(** * DARA treasury agent: decision and scheduling engine

    A shallow embedding of the TypeScript sources of the agent
    (strategy.ts, yield-scanner.ts, protocols/bluefin.ts, protocols/index.ts,
    arc-client.ts, executor.ts, offline-queue.ts) and the properties of
    the decision ledger, the risk scorer, the rebalance policy, the signal
    caches, the optimizer cycle and the offline queue.

    Conventions.
    - A JavaScript [number] is modelled by the rational it denotes ([Q]);
      NaN, the infinities and the rounding of doubles are not represented.
      Comparisons are the boolean ones of [Js].  A [bigint] is a [Z].
    - Millisecond time stamps ([Date.now()]) are [Z]; one reading of the
      clock is shared by the statements of one synchronous function.
    - Template literals are kept as lists of fragments ([text]): literal
      pieces and the numbers formatted into them, so that no number
      formatting has to be modelled.
    - Module-level [let]/[const] variables of the sources are the fields of
      one explicit heap that every function threads. *)

From Stdlib Require Import ZArith QArith Qround Qabs Lia Lqa Bool Ascii Sorted.
From stdpp Require Import base list strings.

Close Scope Q_scope.
Local Open Scope Z_scope.

(** ** JavaScript numbers and strings *)

Module Js.

Definition ltb (x y : Q) : bool := negb (Qle_bool y x).
Definition leb (x y : Q) : bool := Qle_bool x y.
Definition gtb (x y : Q) : bool := ltb y x.
Definition geb (x y : Q) : bool := leb y x.

(** [x || d] on numbers: 0 is the only falsy rational. *)
Definition truthy (x : Q) : bool := negb (Qeq_bool x 0).
Definition orNum (x : option Q) (d : Q) : Q :=
  match x with
  | Some v => if truthy v then v else d
  | None => d
  end.

(** [s || d] on strings: the empty string is falsy. *)
Definition orStr (x : option string) (d : string) : string :=
  match x with
  | Some EmptyString | None => d
  | Some v => v
  end.

Definition min (x y : Q) : Q := if ltb y x then y else x.
Definition max (x y : Q) : Q := if ltb x y then y else x.
Definition abs (x : Q) : Q := Qabs x.
Definition floor (x : Q) : Z := Qfloor x.
(** [Math.round] rounds half-way cases up. *)
Definition round (x : Q) : Z := Qfloor (x + (1 # 2))%Q.

Definition ofZ (z : Z) : Q := inject_Z z.

Definition lowerAscii (c : ascii) : ascii :=
  let n := nat_of_ascii c in
  if ((65 <=? n)%nat && (n <=? 90)%nat)%bool then ascii_of_nat (n + 32) else c.
Definition upperAscii (c : ascii) : ascii :=
  let n := nat_of_ascii c in
  if ((97 <=? n)%nat && (n <=? 122)%nat)%bool then ascii_of_nat (n - 32) else c.

Fixpoint mapString (f : ascii -> ascii) (s : string) : string :=
  match s with
  | EmptyString => EmptyString
  | String c r => String (f c) (mapString f r)
  end.

(** [toLowerCase]/[toUpperCase] on the ASCII range, which covers the
    protocol, chain and asset names the agent handles. *)
Definition toLowerCase : string -> string := mapString lowerAscii.
Definition toUpperCase : string -> string := mapString upperAscii.

Definition isSpace (c : ascii) : bool :=
  let n := nat_of_ascii c in
  ((n =? 32)%nat || ((9 <=? n)%nat && (n <=? 13)%nat))%bool.

Fixpoint trimStart (s : string) : string :=
  match s with
  | String c r => if isSpace c then trimStart r else s
  | EmptyString => EmptyString
  end.

Fixpoint rev (s acc : string) : string :=
  match s with
  | EmptyString => acc
  | String c r => rev r (String c acc)
  end.

Definition trim (s : string) : string :=
  rev (trimStart (rev (trimStart s) EmptyString)) EmptyString.

End Js.

(** Fragments of a template literal. *)
Inductive frag : Type :=
| Lit (s : string)            (* literal text or an interpolated string *)
| Fixed (x : Q) (digits : nat) (* x.toFixed(digits) *)
| Show (x : Q)                (* an interpolated number *)
| ShowZ (z : Z)               (* an interpolated integer *)
| Hex (z : Z)                 (* z.toString(16) *)
| Newline.                    (* a line break inside a template *)

Definition text : Type := list frag.

(** ** lib/types.ts *)

Inductive AgentAction : Type :=
| REBALANCE_SWAP | CROSS_CHAIN_BRIDGE | SAFETY_MOVE | DEPOSIT_BACK
| MONITOR | NO_ACTION | YIELD_REBALANCE.

Definition AgentAction_eqb (a b : AgentAction) : bool :=
  match a, b with
  | REBALANCE_SWAP, REBALANCE_SWAP | CROSS_CHAIN_BRIDGE, CROSS_CHAIN_BRIDGE
  | SAFETY_MOVE, SAFETY_MOVE | DEPOSIT_BACK, DEPOSIT_BACK
  | MONITOR, MONITOR | NO_ACTION, NO_ACTION
  | YIELD_REBALANCE, YIELD_REBALANCE => true
  | _, _ => false
  end.

Inductive DecisionStatus : Type := Pending | Executing | DCompleted | DFailed.

Record AgentDecision : Type := {
  ad_id : text;
  ad_timestamp : Z;
  ad_action : AgentAction;
  ad_reason : text;
  ad_amountIn : Z;
  ad_amountOut : Z;
  ad_chain : string;
  ad_status : DecisionStatus
}.

Record Holding : Type := {
  h_balance : Z;
  h_valueUsd : Q;
  h_percentage : Q
}.

Record PortfolioState : Type := {
  pf_sui : Holding;
  pf_arc : Holding;
  pf_totalValueUsd : Q
}.

Record PriceData : Type := {
  pd_asset : string;
  pd_price : Q;
  pd_timestamp : Z;
  pd_source : string
}.

Inductive LogLevel : Type := LInfo | LWarn | LAction | LError.

(** The optional [data] payload of a log entry is only displayed and is
    left out. *)
Record AgentLog : Type := {
  al_timestamp : Z;
  al_level : LogLevel;
  al_message : text
}.

Record YieldOpportunity : Type := {
  yo_id : string;
  yo_protocol : string;
  yo_chain : string;
  yo_asset : string;
  yo_apy : Q;
  yo_tvl : Q;
  yo_pool : string;
  yo_netApy : Q;
  yo_bridgeCostPct : Q;
  yo_isNative : bool;
  yo_timestamp : Z
}.

Record YieldPosition : Type := {
  yp_protocol : string;
  yp_chain : string;
  yp_asset : string;
  yp_amount : Q;
  yp_amountUsd : Q;
  yp_apy : Q;
  yp_earnedUsd : Q;
  yp_depositedAt : Z
}.

Record YieldScanResult : Type := {
  sr_opportunities : list YieldOpportunity;
  sr_bestOpportunity : option YieldOpportunity;
  sr_currentAllocation : list YieldPosition;
  sr_recommendation : text;
  sr_timestamp : Z
}.

Inductive RiskLevel : Type := conservative | moderate | aggressive.

Inductive IntentStatus : Type := queued | processing | completed | failed.

Definition IntentStatus_eqb (a b : IntentStatus) : bool :=
  match a, b with
  | queued, queued | processing, processing
  | completed, completed | failed, failed => true
  | _, _ => false
  end.

Inductive TreasuryDecisionType : Type :=
| safety_deposit | yield_withdraw | rebalance | risk_assessment
| auto_safety | auto_redeploy.

Inductive DecisionChain : Type := chain_arc | chain_sui | chain_cross.

Record TreasuryDecision : Type := {
  td_id : text;
  td_timestamp : Z;
  td_type : TreasuryDecisionType;
  td_trigger : text;
  td_action : text;
  td_reasoning : text;
  td_riskScore : Q;
  td_amount : option Q;
  td_txHash : option text;
  td_chain : DecisionChain
}.

Record TreasuryState : Type := {
  arcVaultBalance : Q;
  suiYieldTotal : Q;
  lastDecision : option TreasuryDecision;
  lastDecisionTime : Z;
  ts_riskScore : Q;
  allocationArcPct : Q;
  allocationSuiPct : Q
}.

Record PriceHistoryEntry : Type := {
  ph_price : Q;
  ph_timestamp : Z
}.

(** ** lib/constants.ts *)

Module AGENT_CONFIG.
Definition LOOP_INTERVAL : Z := 60000.
Definition TARGET_SUI_PCT : Q := 50.
Definition REBALANCE_THRESHOLD : Q := 5.
Definition MIN_REBALANCE_AMOUNT : Z := 100000000.
Definition YIELD_REBALANCE_THRESHOLD : Q := 2.
End AGENT_CONFIG.

Module TREASURY_CONFIG.
Definition SAFETY_THRESHOLD_PCT : Q := 8.
Definition RECOVERY_THRESHOLD_PCT : Q := 5.
Definition MIN_YIELD_FOR_DEPLOYMENT : Q := 2.
Definition MAX_PRICE_HISTORY : nat := 20.
Definition SAFETY_MOVE_RATIO : Q := 1 # 2.
Definition HIGH_RISK_THRESHOLD : Z := 65.
Definition MEDIUM_RISK_THRESHOLD : Z := 35.
End TREASURY_CONFIG.

Record ProtocolEntry : Type := {
  pe_project : string;
  pe_chain : string;
  pe_displayName : string
}.

(** [Object.values(YIELD_PROTOCOLS)], in declaration order. *)
Definition YIELD_PROTOCOLS : list ProtocolEntry :=
  [ {| pe_project := "scallop-lend"; pe_chain := "Sui"; pe_displayName := "Scallop" |};
    {| pe_project := "navi-lending"; pe_chain := "Sui"; pe_displayName := "NAVI" |};
    {| pe_project := "aave-v3"; pe_chain := "Arbitrum"; pe_displayName := "Aave V3" |};
    {| pe_project := "compound-v3"; pe_chain := "Optimism"; pe_displayName := "Compound V3" |} ].

Definition BRIDGE_FEES : list (string * Q) :=
  [ ("SUI_TO_ARBITRUM", 3 # 10); ("SUI_TO_OPTIMISM", 3 # 10); ("SUI_TO_ARC", 1 # 10);
    ("ARBITRUM_TO_SUI", 3 # 10); ("OPTIMISM_TO_SUI", 3 # 10); ("ARC_TO_SUI", 1 # 10) ]%Q.

Record RiskProfile : Type := {
  rebalanceThresholdApy : Q;
  maxAllocationPct : Q;
  safetyThresholdPriceDrop : Q;
  allowCrossChain : bool
}.

Definition RISK_PROFILES (l : RiskLevel) : RiskProfile :=
  match l with
  | conservative =>
      {| rebalanceThresholdApy := 3; maxAllocationPct := 30;
         safetyThresholdPriceDrop := 5; allowCrossChain := false |}
  | moderate =>
      {| rebalanceThresholdApy := 2; maxAllocationPct := 50;
         safetyThresholdPriceDrop := 10; allowCrossChain := true |}
  | aggressive =>
      {| rebalanceThresholdApy := 1; maxAllocationPct := 70;
         safetyThresholdPriceDrop := 15; allowCrossChain := true |}
  end.

Definition SUI_NETWORK : string := "mainnet".

(** ** agent/strategy.ts: the rebalance policy *)

Module Strategy.

(** [makeDecision]: [decisionCounter] is the module counter, threaded. *)
Definition makeDecision (now : Z) (decisionCounter : nat)
    (action : AgentAction) (reason : text) (amountIn : Z) (chain : string)
  : AgentDecision * nat :=
  let decisionCounter := S decisionCounter in
  ({| ad_id := [Lit "decision-"; ShowZ (Z.of_nat decisionCounter); Lit "-"; ShowZ now];
      ad_timestamp := now;
      ad_action := action;
      ad_reason := reason;
      ad_amountIn := amountIn;
      ad_amountOut := 0;
      ad_chain := chain;
      ad_status := Pending |}, decisionCounter).

Definition isSui (p : PriceData) : bool := String.eqb (pd_asset p) "SUI".

Definition isYieldRebalance (d : AgentDecision) : bool :=
  AgentAction_eqb (ad_action d) YIELD_REBALANCE.

(** Core strategy engine.  [yieldOpportunities] is the optional fourth
    argument; [now] is [Date.now()]. *)
Definition evaluateStrategy (now : Z) (decisionCounter : nat)
    (portfolio : PortfolioState) (prices : list PriceData)
    (previousDecisions : list AgentDecision)
    (yieldOpportunities : option (list YieldOpportunity))
  : AgentDecision * nat :=
  let suiPrice := List.find isSui prices in
  let crashed :=
    match suiPrice with
    | Some p => Js.ltb (pd_price p) (1 # 2)
    | None => false
    end in
  if crashed then
    (* Safety check: if SUI price crashed, move to stables *)
    let safetyAmount := Z.quot (h_balance (pf_sui portfolio)) 2 in
    makeDecision now decisionCounter SAFETY_MOVE
      [Lit "SUI price at $";
       Fixed (match suiPrice with Some p => pd_price p | None => 0 end) 4;
       Lit " — moving 50% to USDC on Arc for safety"]
      safetyAmount "sui→arc"
  else
    (* what follows the yield block: drift check, then no action *)
    let currentSuiPct := h_percentage (pf_sui portfolio) in
    let targetSuiPct := AGENT_CONFIG.TARGET_SUI_PCT in
    let drift := Js.abs (currentSuiPct - targetSuiPct)%Q in
    let noAction :=
      makeDecision now decisionCounter NO_ACTION
        ([Lit "Portfolio balanced — SUI at "; Fixed currentSuiPct 1;
          Lit "% (target: "; Show targetSuiPct; Lit "%). "] ++
         match yieldOpportunities with
         | Some (y0 :: _) =>
             [Lit "Best yield: "; Lit (yo_protocol y0); Lit " at ";
              Fixed (yo_netApy y0) 1; Lit "%"]
         | _ => [Lit "Yield data pending."]
         end)
        0 "monitor" in
    let driftCheck :=
      if Js.gtb drift AGENT_CONFIG.REBALANCE_THRESHOLD then
        if Js.gtb currentSuiPct targetSuiPct then
          let excessPct := (currentSuiPct - targetSuiPct)%Q in
          let excessValue := (h_valueUsd (pf_sui portfolio) * excessPct / 100)%Q in
          let suiPriceUsd := Js.orNum (option_map pd_price suiPrice) 1 in
          let amountSui := Js.floor ((excessValue / suiPriceUsd) * 1000000000)%Q in
          if amountSui >? AGENT_CONFIG.MIN_REBALANCE_AMOUNT then
            makeDecision now decisionCounter CROSS_CHAIN_BRIDGE
              [Lit "Portfolio drifted "; Fixed drift 1;
               Lit "% — SUI overweight at "; Fixed currentSuiPct 1;
               Lit "%. Bridging "; Fixed (Js.ofZ amountSui / 1000000000)%Q 2;
               Lit " SUI to Arc via LI.FI"]
              amountSui "sui→arc"
          else noAction
        else
          let deficitPct := (targetSuiPct - currentSuiPct)%Q in
          let deficitValue := (pf_totalValueUsd portfolio * deficitPct / 100)%Q in
          makeDecision now decisionCounter CROSS_CHAIN_BRIDGE
            [Lit "Portfolio drifted "; Fixed drift 1;
             Lit "% — SUI underweight at "; Fixed currentSuiPct 1;
             Lit "%. Bridging $"; Fixed deficitValue 2;
             Lit " from Arc to Sui via LI.FI"]
            (Js.floor (deficitValue * 1000000)%Q) "arc→sui"
      else noAction in
    (* Yield-based rebalancing *)
    match yieldOpportunities with
    | Some (bestYield :: _) =>
        let currentYield := last (List.filter isYieldRebalance previousDecisions) in
        if Js.gtb (yo_netApy bestYield) AGENT_CONFIG.YIELD_REBALANCE_THRESHOLD then
          if match currentYield with
             | None => true
             | Some cy => now - ad_timestamp cy >? AGENT_CONFIG.LOOP_INTERVAL * 5
             end
          then
            makeDecision now decisionCounter YIELD_REBALANCE
              ([Lit "Best yield: "; Lit (yo_protocol bestYield); Lit " on ";
                Lit (yo_chain bestYield); Lit " at "; Fixed (yo_netApy bestYield) 1;
                Lit "% net APY on "; Lit (yo_asset bestYield); Lit ". "] ++
               if yo_isNative bestYield
               then [Lit "Native Sui — no bridge needed."]
               else [Lit "Cross-chain via LI.FI ("; Fixed (yo_bridgeCostPct bestYield) 1;
                     Lit "% bridge fee)."])
              0
              (if yo_isNative bestYield then "sui"
               else "sui→" +:+ Js.toLowerCase (yo_chain bestYield))
          else driftCheck
        else driftCheck
    | _ => driftCheck
    end.

End Strategy.

(** ** The outside world and the module state *)

(** What a network or contract call gives back: a decoded answer, or a
    failure (network error, non-OK status, undecodable body), which the
    source turns into an exception. *)
Inductive fetched (A : Type) : Type :=
| Fetched (a : A)
| FetchError (msg : string).
Arguments Fetched {A} a.
Arguments FetchError {A} msg.

(** CoinGecko answer: [data.sui?.usd], [data.ethereum?.usd], [data.bitcoin?.usd]. *)
Record CoinGeckoJson : Type := {
  cg_sui : option Q;
  cg_ethereum : option Q;
  cg_bitcoin : option Q
}.

(** The fields of a DeFi Llama pool that the scanner reads. *)
Record DefiLlamaPool : Type := {
  lp_pool : string;
  lp_chain : string;
  lp_project : string;
  lp_symbol : string;
  lp_tvlUsd : Q;
  lp_apy : Q
}.

Record NaviPoolData : Type := {
  np_supplyApy : Q;
  np_borrowApy : Q;
  np_tvlUsd : Q;
  np_asset : string
}.

(** The fields of a Bluefin market that the funding-rate feed reads. *)
Record BluefinMarketData : Type := {
  bm_symbol : string;
  bm_fundingRate : Q;
  bm_nextFundingTime : Z
}.

Record BluefinFundingRate : Type := {
  fr_symbol : string;
  fr_fundingRate : Q;
  fr_annualizedRate : Q;
  fr_nextFundingTime : Z;
  fr_timestamp : Z
}.

(** The agent wallet on Arc: the outcome of each contract write. *)
Record WalletClient : Type := {
  writeDeposit : fetched string;
  writeWithdraw : fetched string;
  writeLogDecision : fetched string
}.

(** The world as one call of the agent observes it.  The NAVI and Bluefin
    answers are given after the decoding loops of [fetchNaviPoolData] and
    [fetchMarketData]. *)
Record World : Type := {
  now : Z;
  coingecko : fetched CoinGeckoJson;
  defillama : fetched (option (list DefiLlamaPool));
  naviConfig : fetched (list NaviPoolData);
  bluefinMarkets : fetched (list BluefinMarketData);
  agentWallet : option WalletClient
}.

(** Transactions are kept as descriptors of what the builders were asked;
    the checks the Sui SDK makes on its arguments are outside the model. *)
Inductive Transaction : Type :=
| TxVaultDeposit (amount : Z)
| TxScallopDeposit (amountMist : Z)
| TxNaviDeposit (amountMist : Z)
| TxSwapSuiToUsdc (amountMist minUsdc : Z).

Inductive Endpoint : Type := CoinGecko | DefiLlama | NaviApi | BluefinApi.

(** Calls that leave the process, recorded in order (ghost state). *)
Inductive Event : Type :=
| EvFetch (e : Endpoint)
| EvVaultDeposit (amountUsdc : Q)
| EvVaultWithdraw (amountUsdc : Q)
| EvLogDecision (action : string)
| EvBuildTx (tx : Transaction)
| EvExecuteTx (tx : Transaction).

(** strategy.ts *)
Record PriceCache : Type := {
  cachedPrices : list PriceData;
  lastPriceFetch : Z
}.

(** protocols/bluefin.ts *)
Record BluefinCache : Type := {
  cachedMarketData : list BluefinMarketData;
  lastMarketFetch : Z;
  cachedFundingRates : list BluefinFundingRate;
  lastFundingFetch : Z
}.

(** yield-scanner.ts *)
Record Scanner : Type := {
  cachedPools : list DefiLlamaPool;
  lastFetchTime : Z;
  cachedNaviData : list NaviPoolData;
  lastNaviFetch : Z;
  currentPositions : list YieldPosition
}.

(** executor.ts; [agentInterval] tells whether the interval timer is set. *)
Record Exec : Type := {
  agentRunning : bool;
  agentInterval : bool;
  riskLevel : RiskLevel;
  agentLogs : list AgentLog;
  priceHistory : list PriceHistoryEntry;
  treasuryDecisions : list TreasuryDecision;
  treasuryState : TreasuryState;
  decisionIdCounter : nat
}.

Record Heap : Type := {
  prices : PriceCache;
  bluefin : BluefinCache;
  scanner : Scanner;
  exec : Exec;
  trace : list Event
}.

Definition withPrices (f : PriceCache -> PriceCache) (h : Heap) : Heap :=
  {| prices := f (prices h); bluefin := bluefin h; scanner := scanner h;
     exec := exec h; trace := trace h |}.
Definition withBluefin (f : BluefinCache -> BluefinCache) (h : Heap) : Heap :=
  {| prices := prices h; bluefin := f (bluefin h); scanner := scanner h;
     exec := exec h; trace := trace h |}.
Definition withScanner (f : Scanner -> Scanner) (h : Heap) : Heap :=
  {| prices := prices h; bluefin := bluefin h; scanner := f (scanner h);
     exec := exec h; trace := trace h |}.
Definition withExec (f : Exec -> Exec) (h : Heap) : Heap :=
  {| prices := prices h; bluefin := bluefin h; scanner := scanner h;
     exec := f (exec h); trace := trace h |}.
Definition withTrace (f : list Event -> list Event) (h : Heap) : Heap :=
  {| prices := prices h; bluefin := bluefin h; scanner := scanner h;
     exec := exec h; trace := f (trace h) |}.

(** The values of the module variables when the modules are loaded. *)
Definition initialTreasuryState : TreasuryState :=
  {| arcVaultBalance := 0; suiYieldTotal := 0; lastDecision := None;
     lastDecisionTime := 0; ts_riskScore := 0;
     allocationArcPct := 0; allocationSuiPct := 100 |}.

Definition initialExec : Exec :=
  {| agentRunning := false; agentInterval := false; riskLevel := moderate;
     agentLogs := []; priceHistory := []; treasuryDecisions := [];
     treasuryState := initialTreasuryState; decisionIdCounter := 0 |}.

Definition initialHeap : Heap :=
  {| prices := {| cachedPrices := []; lastPriceFetch := 0 |};
     bluefin := {| cachedMarketData := []; lastMarketFetch := 0;
                   cachedFundingRates := []; lastFundingFetch := 0 |};
     scanner := {| cachedPools := []; lastFetchTime := 0; cachedNaviData := [];
                   lastNaviFetch := 0; currentPositions := [] |};
     exec := initialExec;
     trace := [] |}.

(** ** Effects: state, the world, exceptions *)

Inductive outcome (A : Type) : Type :=
| Value (a : A)
| Thrown (msg : string).
Arguments Value {A} a.
Arguments Thrown {A} msg.

Definition Eff (A : Type) : Type := World -> Heap -> outcome A * Heap.

Definition ret {A} (a : A) : Eff A := fun _ h => (Value a, h).
Definition throw {A} (msg : string) : Eff A := fun _ h => (Thrown msg, h).
Definition bind {A B} (m : Eff A) (k : A -> Eff B) : Eff B :=
  fun w h =>
    match m w h with
    | (Value a, h') => k a w h'
    | (Thrown e, h') => (Thrown e, h')
    end.
(** [try { m } catch (e) { handler e }]: the state changes made before the
    throw are kept. *)
Definition catch {A} (m : Eff A) (handler : string -> Eff A) : Eff A :=
  fun w h =>
    match m w h with
    | (Value a, h') => (Value a, h')
    | (Thrown e, h') => handler e w h'
    end.
Definition getHeap : Eff Heap := fun _ h => (Value h, h).
Definition modify (f : Heap -> Heap) : Eff unit := fun _ h => (Value tt, f h).
Definition dateNow : Eff Z := fun w h => (Value (now w), h).
Definition emit (e : Event) : Eff unit := modify (withTrace (fun t => t ++ [e])).

Notation "x <- m ;; k" := (bind m (fun x => k))
  (at level 100, m at next level, right associativity).
Notation "m ;;; k" := (bind m (fun _ => k))
  (at level 100, right associativity).

(** [await fetch(url)] followed by the status check and [res.json()]. *)
Definition fetchJson {A} (e : Endpoint) (answer : World -> fetched A) : Eff A :=
  emit (EvFetch e) ;;; (fun w h =>
    match answer w with
    | Fetched a => (Value a, h)
    | FetchError msg => (Thrown msg, h)
    end).

Definition nonEmpty {A} (l : list A) : bool :=
  match l with [] => false | _ :: _ => true end.

(** [Array.prototype.findIndex]. *)
Fixpoint findIndex {A} (p : A -> bool) (l : list A) : option nat :=
  match l with
  | [] => None
  | x :: r => if p x then Some O else option_map S (findIndex p r)
  end.

(** [Array.prototype.sort] with the comparator [(a, b) => key b - key a]:
    descending by [key], stable. *)
Section SortDesc.
Context {A : Type} (key : A -> Q).

Fixpoint insertDesc (x : A) (l : list A) : list A :=
  match l with
  | [] => [x]
  | y :: r => if Js.ltb (key x) (key y) then y :: insertDesc x r else x :: y :: r
  end.

Definition sortDesc (l : list A) : list A := foldr insertDesc [] l.
End SortDesc.

(** ** agent/strategy.ts: the spot price feed *)

Module Prices.

Definition PRICE_CACHE_TTL : Z := 30000.

Definition quote (asset : string) (price : Q) (now : Z) (source : string) : PriceData :=
  {| pd_asset := asset; pd_price := price; pd_timestamp := now; pd_source := source |}.

Definition unavailable (now : Z) : list PriceData :=
  [ quote "SUI" 0 now "unavailable";
    quote "ETH" 0 now "unavailable";
    quote "BTC" 0 now "unavailable" ].

Definition fetchPrices : Eff (list PriceData) :=
  now <- dateNow ;;
  h <- getHeap ;;
  if nonEmpty (cachedPrices (prices h))
     && (now - lastPriceFetch (prices h) <? PRICE_CACHE_TTL)
  then ret (cachedPrices (prices h))
  else
    catch
      (data <- fetchJson CoinGecko coingecko ;;
       let fresh :=
         [ quote "SUI" (default 0%Q (cg_sui data)) now "coingecko";
           quote "ETH" (default 0%Q (cg_ethereum data)) now "coingecko";
           quote "BTC" (default 0%Q (cg_bitcoin data)) now "coingecko" ] in
       modify (withPrices (fun _ =>
                 {| cachedPrices := fresh; lastPriceFetch := now |})) ;;;
       ret fresh)
      (fun _ =>
         (* Return cached or zeroed *)
         h' <- getHeap ;;
         if nonEmpty (cachedPrices (prices h'))
         then ret (cachedPrices (prices h'))
         else ret (unavailable now)).

End Prices.

(** ** agent/protocols/bluefin.ts: market data and funding rates *)

Module Bluefin.

Definition MARKET_CACHE_TTL : Z := 15000.
Definition FUNDING_CACHE_TTL : Z := 60000.

Definition fetchMarketData : Eff (list BluefinMarketData) :=
  now <- dateNow ;;
  h <- getHeap ;;
  if nonEmpty (cachedMarketData (bluefin h))
     && (now - lastMarketFetch (bluefin h) <? MARKET_CACHE_TTL)
  then ret (cachedMarketData (bluefin h))
  else
    catch
      (markets <- fetchJson BluefinApi bluefinMarkets ;;
       modify (withBluefin (fun b =>
                 {| cachedMarketData := markets; lastMarketFetch := now;
                    cachedFundingRates := cachedFundingRates b;
                    lastFundingFetch := lastFundingFetch b |})) ;;;
       ret markets)
      (fun _ => h' <- getHeap ;; ret (cachedMarketData (bluefin h'))).

Definition toRate (now : Z) (m : BluefinMarketData) : BluefinFundingRate :=
  {| fr_symbol := bm_symbol m;
     fr_fundingRate := bm_fundingRate m;
     (* Annualized: funding rate * 3 payments/day * 365 days *)
     fr_annualizedRate := (Js.abs (bm_fundingRate m) * 3 * 365 * 100)%Q;
     fr_nextFundingTime := bm_nextFundingTime m;
     fr_timestamp := now |}.

Definition fetchFundingRates : Eff (list BluefinFundingRate) :=
  now <- dateNow ;;
  h <- getHeap ;;
  if nonEmpty (cachedFundingRates (bluefin h))
     && (now - lastFundingFetch (bluefin h) <? FUNDING_CACHE_TTL)
  then ret (cachedFundingRates (bluefin h))
  else
    catch
      (markets <- fetchMarketData ;;
       let rates := map (toRate now) markets in
       modify (withBluefin (fun b =>
                 {| cachedMarketData := cachedMarketData b;
                    lastMarketFetch := lastMarketFetch b;
                    cachedFundingRates := rates; lastFundingFetch := now |})) ;;;
       ret rates)
      (fun _ => h' <- getHeap ;; ret (cachedFundingRates (bluefin h'))).

Inductive Direction : Type := long | short.

Record FundingYield : Type := {
  fy_symbol : string;
  fy_direction : Direction;
  fy_annualizedYield : Q;
  fy_fundingRate : Q;
  fy_description : text
}.

Definition toYield (r : BluefinFundingRate) : FundingYield :=
  {| fy_symbol := fr_symbol r;
     fy_direction := if Js.gtb (fr_fundingRate r) 0 then short else long;
     fy_annualizedYield := fr_annualizedRate r;
     fy_fundingRate := fr_fundingRate r;
     fy_description :=
       if Js.gtb (fr_fundingRate r) 0
       then [Lit "Short "; Lit (fr_symbol r); Lit " to collect ";
             Fixed (fr_annualizedRate r) 1;
             Lit "% annualized funding (longs pay shorts)"]
       else [Lit "Long "; Lit (fr_symbol r); Lit " to collect ";
             Fixed (fr_annualizedRate r) 1;
             Lit "% annualized funding (shorts pay longs)"] |}.

Definition getFundingRateYields : Eff (list FundingYield) :=
  rates <- fetchFundingRates ;;
  ret (sortDesc fy_annualizedYield
         (map toYield
            (List.filter (fun r => Js.gtb (fr_annualizedRate r) 5) rates))).

End Bluefin.

(** [Promise.all] of three calls: every call runs (and leaves its state
    changes); the result is rejected with the first rejection. *)
Definition promiseAll3 {A B C} (a : Eff A) (b : Eff B) (c : Eff C) : Eff (A * B * C) :=
  fun w h =>
    let '(ra, h1) := a w h in
    let '(rb, h2) := b w h1 in
    let '(rc, h3) := c w h2 in
    match ra, rb, rc with
    | Value x, Value y, Value z => (Value (x, y, z), h3)
    | Thrown e, _, _ => (Thrown e, h3)
    | _, Thrown e, _ => (Thrown e, h3)
    | _, _, Thrown e => (Thrown e, h3)
    end.

(** ** agent/yield-scanner.ts *)

Module YieldScanner.

Definition CACHE_TTL : Z := 60000.
Definition NAVI_CACHE_TTL : Z := 120000.

(** Fetch yield data from DeFi Llama.  There is no [try] here: a failed
    call throws to the caller. *)
Definition fetchDefiLlamaPools : Eff (list DefiLlamaPool) :=
  now <- dateNow ;;
  h <- getHeap ;;
  if nonEmpty (cachedPools (scanner h))
     && (now - lastFetchTime (scanner h) <? CACHE_TTL)
  then ret (cachedPools (scanner h))
  else
    json <- fetchJson DefiLlama defillama ;;
    let pools := default [] json in
    modify (withScanner (fun s =>
              {| cachedPools := pools; lastFetchTime := now;
                 cachedNaviData := cachedNaviData s;
                 lastNaviFetch := lastNaviFetch s;
                 currentPositions := currentPositions s |})) ;;;
    ret pools.

Definition fetchNaviPoolData : Eff (list NaviPoolData) :=
  now <- dateNow ;;
  h <- getHeap ;;
  if nonEmpty (cachedNaviData (scanner h))
     && (now - lastNaviFetch (scanner h) <? NAVI_CACHE_TTL)
  then ret (cachedNaviData (scanner h))
  else
    catch
      (pools <- fetchJson NaviApi naviConfig ;;
       modify (withScanner (fun s =>
                 {| cachedPools := cachedPools s; lastFetchTime := lastFetchTime s;
                    cachedNaviData := pools; lastNaviFetch := now;
                    currentPositions := currentPositions s |})) ;;;
       ret pools)
      (fun _ => h' <- getHeap ;; ret (cachedNaviData (scanner h'))).

Fixpoint assoc (k : string) (l : list (string * Q)) : option Q :=
  match l with
  | [] => None
  | (k', v) :: r => if String.eqb k k' then Some v else assoc k r
  end.

Definition getBridgeCost (fromChain toChain : string) : Q :=
  let key := Js.toUpperCase fromChain +:+ "_TO_" +:+ Js.toUpperCase toChain in
  default (1 # 2)%Q (assoc key BRIDGE_FEES).

Definition filterRelevantPools (pools : list DefiLlamaPool) : list DefiLlamaPool :=
  List.filter
    (fun pool =>
       existsb
         (fun p =>
            String.eqb (lp_project pool) (pe_project p)
            && String.eqb (lp_chain pool) (pe_chain p)
            && Js.gtb (lp_apy pool) 0
            && Js.gtb (lp_tvlUsd pool) 100000)
         YIELD_PROTOCOLS)
    pools.

Definition poolToOpportunity (now : Z) (pool : DefiLlamaPool) : YieldOpportunity :=
  let isNative := String.eqb (lp_chain pool) "Sui" in
  let bridgeCost := if isNative then 0%Q else getBridgeCost "SUI" (lp_chain pool) in
  let netApy := (lp_apy pool - bridgeCost)%Q in
  let protocol :=
    List.find
      (fun p => String.eqb (pe_project p) (lp_project pool)
                && String.eqb (pe_chain p) (lp_chain pool))
      YIELD_PROTOCOLS in
  {| yo_id := lp_pool pool;
     yo_protocol := Js.orStr (option_map pe_displayName protocol) (lp_project pool);
     yo_chain := lp_chain pool;
     yo_asset := lp_symbol pool;
     yo_apy := lp_apy pool;
     yo_tvl := lp_tvlUsd pool;
     yo_pool := lp_pool pool;
     yo_netApy := netApy;
     yo_bridgeCostPct := bridgeCost;
     yo_isNative := isNative;
     yo_timestamp := now |}.

(** The assignments [existing.apy = ..; existing.netApy = ..;
    existing.tvl = ..] on the element found in the array. *)
Definition refresh (naviPool : NaviPoolData) (existing : YieldOpportunity)
  : YieldOpportunity :=
  {| yo_id := yo_id existing;
     yo_protocol := yo_protocol existing;
     yo_chain := yo_chain existing;
     yo_asset := yo_asset existing;
     yo_apy := np_supplyApy naviPool;
     yo_tvl := np_tvlUsd naviPool;
     yo_pool := yo_pool existing;
     yo_netApy := np_supplyApy naviPool;
     yo_bridgeCostPct := yo_bridgeCostPct existing;
     yo_isNative := yo_isNative existing;
     yo_timestamp := yo_timestamp existing |}.

Definition naviDirect (now : Z) (naviPool : NaviPoolData) : YieldOpportunity :=
  {| yo_id := "navi-" +:+ Js.toLowerCase (np_asset naviPool) +:+ "-direct";
     yo_protocol := "NAVI";
     yo_chain := "Sui";
     yo_asset := np_asset naviPool;
     yo_apy := np_supplyApy naviPool;
     yo_tvl := np_tvlUsd naviPool;
     yo_pool := "navi-" +:+ Js.toLowerCase (np_asset naviPool);
     yo_netApy := np_supplyApy naviPool;
     yo_bridgeCostPct := 0;
     yo_isNative := true;
     yo_timestamp := now |}.

(** One turn of the loop over [naviPools]. *)
Definition overlayNavi (now : Z) (opportunities : list YieldOpportunity)
    (naviPool : NaviPoolData) : list YieldOpportunity :=
  if Js.leb (np_supplyApy naviPool) 0 then opportunities
  else
    match findIndex
            (fun o => String.eqb (yo_protocol o) "NAVI"
                      && String.eqb (yo_asset o) (np_asset naviPool))
            opportunities with
    | Some i => alter (refresh naviPool) i opportunities
    | None =>
        if existsb (String.eqb (np_asset naviPool)) ["SUI"; "USDC"; "USDT"]
        then opportunities ++ [naviDirect now naviPool]
        else opportunities
    end.

Definition directionName (d : Bluefin.Direction) : string :=
  match d with Bluefin.long => "long" | Bluefin.short => "short" end.

Definition fundingOpportunity (now : Z) (bf : Bluefin.FundingYield) : YieldOpportunity :=
  {| yo_id := "bluefin-" +:+ Js.toLowerCase (Bluefin.fy_symbol bf) +:+ "-funding";
     yo_protocol := "Bluefin";
     yo_chain := "Sui";
     yo_asset := Bluefin.fy_symbol bf +:+ " (" +:+ directionName (Bluefin.fy_direction bf) +:+ ")";
     yo_apy := Bluefin.fy_annualizedYield bf;
     yo_tvl := 0;
     yo_pool := "bluefin-" +:+ Js.toLowerCase (Bluefin.fy_symbol bf);
     yo_netApy := Bluefin.fy_annualizedYield bf;
     yo_bridgeCostPct := 0;
     yo_isNative := true;
     yo_timestamp := now |}.

(** The synchronous part of [scanYields], after the three sources
    answered. *)
Definition mergeSources (now : Z) (llamaPools : list DefiLlamaPool)
    (naviPools : list NaviPoolData) (bluefinYields : list Bluefin.FundingYield)
  : list YieldOpportunity :=
  let relevant := filterRelevantPools llamaPools in
  let opportunities := map (poolToOpportunity now) relevant in
  (* Overlay NAVI direct API data *)
  let opportunities := fold_left (overlayNavi now) naviPools opportunities in
  (* Add Bluefin funding rate yields as opportunities *)
  let opportunities := opportunities ++ map (fundingOpportunity now) bluefinYields in
  (* Sort by net APY descending *)
  sortDesc yo_netApy opportunities.

Definition scanYields : Eff (list YieldOpportunity) :=
  sources <-
     promiseAll3 fetchDefiLlamaPools fetchNaviPoolData
       (catch Bluefin.getFundingRateYields (fun _ => ret [])) ;;
  let '(llamaPools, naviPools, bluefinYields) := sources in
  now <- dateNow ;;
  ret (mergeSources now llamaPools naviPools bluefinYields).

Definition findBestYield (riskLevel : RiskLevel) : Eff YieldScanResult :=
  opportunities <- scanYields ;;
  let profile := RISK_PROFILES riskLevel in
  (* Filter by risk profile *)
  let eligible :=
    List.filter
      (fun opp =>
         if negb (allowCrossChain profile) && negb (yo_isNative opp) then false
         else if Js.ltb (yo_tvl opp) 1000000 then false
         else true)
      opportunities in
  let bestOpportunity := head eligible in
  h <- getHeap ;;
  now <- dateNow ;;
  let recommendation :=
    match bestOpportunity with
    | Some best =>
        match head (currentPositions (scanner h)) with
        | Some currentBest =>
            if Js.gtb (yo_netApy best - yp_apy currentBest)%Q
                      (rebalanceThresholdApy profile)
            then [Lit "Move funds from "; Lit (yp_protocol currentBest); Lit " (";
                  Fixed (yp_apy currentBest) 1; Lit "% APY) to ";
                  Lit (yo_protocol best); Lit " on "; Lit (yo_chain best); Lit " (";
                  Fixed (yo_netApy best) 1; Lit "% net APY). Yield improvement: +";
                  Fixed (yo_netApy best - yp_apy currentBest)%Q 1; Lit "%"]
            else [Lit "Stay in "; Lit (yp_protocol currentBest); Lit " (";
                  Fixed (yp_apy currentBest) 1; Lit "% APY). Best alternative: ";
                  Lit (yo_protocol best); Lit " at "; Fixed (yo_netApy best) 1;
                  Lit "% — difference below ";
                  Show (rebalanceThresholdApy profile); Lit "% threshold."]
        | None =>
            [Lit "Deploy to "; Lit (yo_protocol best); Lit " on ";
             Lit (yo_chain best); Lit " for "; Fixed (yo_netApy best) 1;
             Lit "% net APY on "; Lit (yo_asset best)]
        end
    | None =>
        [Lit "No eligible yield opportunities found. Consider adjusting risk level."]
    end in
  ret {| sr_opportunities := eligible;
         sr_bestOpportunity := bestOpportunity;
         sr_currentAllocation := currentPositions (scanner h);
         sr_recommendation := recommendation;
         sr_timestamp := now |}.

Definition getCurrentPositions : Eff (list YieldPosition) :=
  h <- getHeap ;; ret (currentPositions (scanner h)).

Definition samePlace (a b : YieldPosition) : bool :=
  String.eqb (yp_protocol a) (yp_protocol b)
  && String.eqb (yp_chain a) (yp_chain b).

Definition setPositionIn (position : YieldPosition) (l : list YieldPosition)
  : list YieldPosition :=
  match findIndex (fun p => samePlace p position) l with
  | Some idx => <[idx := position]> l
  | None => l ++ [position]
  end.

Definition setPosition (position : YieldPosition) : Eff unit :=
  modify (withScanner (fun s =>
            {| cachedPools := cachedPools s; lastFetchTime := lastFetchTime s;
               cachedNaviData := cachedNaviData s; lastNaviFetch := lastNaviFetch s;
               currentPositions := setPositionIn position (currentPositions s) |})).

End YieldScanner.

(** ** agent/protocols/index.ts, deepbook.ts, sui-client.ts: the router *)

Module Protocols.

Inductive ProtocolName : Type := Scallop | NAVI | AaveV3 | CompoundV3 | Arc | BluefinPerp.

Definition protocolString (p : ProtocolName) : string :=
  match p with
  | Scallop => "Scallop"
  | NAVI => "NAVI"
  | AaveV3 => "Aave V3"
  | CompoundV3 => "Compound V3"
  | Arc => "Arc"
  | BluefinPerp => "Bluefin"
  end.

Definition synonyms : list (string * ProtocolName) :=
  [ ("scallop", Scallop); ("scallop-lend", Scallop);
    ("navi", NAVI); ("navi-lending", NAVI); ("navi protocol", NAVI);
    ("aave", AaveV3); ("aave v3", AaveV3); ("aave-v3", AaveV3);
    ("compound", CompoundV3); ("compound v3", CompoundV3); ("compound-v3", CompoundV3);
    ("arc", Arc); ("circle", Arc);
    ("bluefin", BluefinPerp); ("bluefin-perp", BluefinPerp) ].

(** Resolve a protocol name from a user string.  The properties a
    JavaScript object inherits are not keys of the table. *)
Definition resolveProtocolName (input : string) : option ProtocolName :=
  let lower := Js.trim (Js.toLowerCase input) in
  option_map snd (List.find (fun kv => String.eqb (fst kv) lower) synonyms).

Record ProtocolAction : Type := {
  pa_tx : Transaction;
  pa_protocol : string;
  pa_action : string;
  pa_description : text;
  pa_isSimulated : bool
}.

Definition isMainnet : bool := String.eqb SUI_NETWORK "mainnet".
Definition isScallopAvailable : bool := String.eqb SUI_NETWORK "mainnet".
Definition isNaviAvailable : bool := String.eqb SUI_NETWORK "mainnet".
Definition isDeepBookAvailable : bool :=
  existsb (String.eqb SUI_NETWORK) ["mainnet"; "testnet"].

Definition formatSui (mist : Z) : frag := Fixed (Js.ofZ mist / 1000000000)%Q 4.

Definition estimateSwapOutput (amountMist : Z) (suiPriceUsd : Q) : Z * Z :=
  let suiAmount := (Js.ofZ amountMist / 1000000000)%Q in
  let usdcAmount := (suiAmount * suiPriceUsd)%Q in
  let estimatedUsdc := Js.floor (usdcAmount * 1000000)%Q in
  (* 3% slippage protection *)
  let minUsdc := Js.floor (usdcAmount * (97 # 100) * 1000000)%Q in
  (estimatedUsdc, minUsdc).

Definition buildDepositTx (amount : Z) : Transaction := TxVaultDeposit amount.

(** [context.suiPriceUsd] is the only field of the context that is read. *)
Definition buildProtocolDeposit (protocol : ProtocolName) (amountMist : Z)
    (suiPriceUsd : option Q) : ProtocolAction :=
  match protocol with
  | Scallop =>
      if isMainnet && isScallopAvailable then
        {| pa_tx := TxScallopDeposit amountMist; pa_protocol := "Scallop";
           pa_action := "deposit";
           pa_description := [Lit "Depositing "; formatSui amountMist;
                              Lit " SUI into Scallop lending pool"];
           pa_isSimulated := false |}
      else
        {| pa_tx := TxScallopDeposit amountMist; pa_protocol := "Scallop";
           pa_action := "deposit";
           pa_description := [Lit "[Demo] Scallop deposit of "; formatSui amountMist;
                              Lit " SUI (mainnet PTB built, testnet simulation)"];
           pa_isSimulated := true |}
  | NAVI =>
      if isMainnet && isNaviAvailable then
        {| pa_tx := TxNaviDeposit amountMist; pa_protocol := "NAVI";
           pa_action := "deposit";
           pa_description := [Lit "Depositing "; formatSui amountMist;
                              Lit " SUI into NAVI lending pool"];
           pa_isSimulated := false |}
      else
        {| pa_tx := TxNaviDeposit amountMist; pa_protocol := "NAVI";
           pa_action := "deposit";
           pa_description := [Lit "[Demo] NAVI deposit of "; formatSui amountMist;
                              Lit " SUI (mainnet PTB built, testnet simulation)"];
           pa_isSimulated := true |}
  | AaveV3 | CompoundV3 =>
      let suiPrice := Js.orNum suiPriceUsd (3 # 2) in
      let minUsdc := snd (estimateSwapOutput amountMist suiPrice) in
      {| pa_tx := TxSwapSuiToUsdc amountMist minUsdc;
         pa_protocol := protocolString protocol;
         pa_action := "swap_and_bridge";
         pa_description := [Lit "Swapping "; formatSui amountMist;
                            Lit " SUI → USDC on DeepBook, then bridge to ";
                            Lit (protocolString protocol); Lit " via LI.FI"];
         pa_isSimulated := negb isDeepBookAvailable |}
  | Arc =>
      let suiPrice := Js.orNum suiPriceUsd (3 # 2) in
      let minUsdc := snd (estimateSwapOutput amountMist suiPrice) in
      {| pa_tx := TxSwapSuiToUsdc amountMist minUsdc; pa_protocol := "Arc";
         pa_action := "swap_and_bridge";
         pa_description := [Lit "Swapping "; formatSui amountMist;
                            Lit " SUI → USDC, bridging to Arc via LI.FI"];
         pa_isSimulated := negb isDeepBookAvailable |}
  | BluefinPerp =>
      let suiPrice := Js.orNum suiPriceUsd (3 # 2) in
      let minUsdc := snd (estimateSwapOutput amountMist suiPrice) in
      {| pa_tx := TxSwapSuiToUsdc amountMist minUsdc; pa_protocol := "Bluefin";
         pa_action := "swap_for_margin";
         pa_description := [Lit "Swapping "; formatSui amountMist;
                            Lit " SUI → USDC for Bluefin margin deposit"];
         pa_isSimulated := true |}
  end.

End Protocols.

(** ** agent/arc-client.ts: the safety vault *)

Module ArcClient.

Record VaultResult : Type := {
  vr_txHash : text;
  vr_success : bool
}.

Definition write (ev : Event) (sim : string) (pick : WalletClient -> fetched string)
  : Eff VaultResult :=
  fun w h =>
    match agentWallet w with
    | None =>
        (* No agent wallet configured: simulated *)
        (Value {| vr_txHash := [Lit sim; Hex (now w)]; vr_success := true |}, h)
    | Some walletClient =>
        match pick walletClient with
        | Fetched hash =>
            (Value {| vr_txHash := [Lit hash]; vr_success := true |},
             withTrace (fun t => t ++ [ev]) h)
        | FetchError _ =>
            (Value {| vr_txHash := [Lit EmptyString]; vr_success := false |},
             withTrace (fun t => t ++ [ev]) h)
        end
    end.

Definition depositToVault (amountUsdc : Q) (reason : text) : Eff VaultResult :=
  write (EvVaultDeposit amountUsdc) "sim_deposit_" writeDeposit.

Definition withdrawFromVault (amountUsdc : Q) (reason : text) : Eff VaultResult :=
  write (EvVaultWithdraw amountUsdc) "sim_withdraw_" writeWithdraw.

Definition logVaultDecision (action : string) (riskScore : Q) (reason : text)
  : Eff VaultResult :=
  write (EvLogDecision action) "sim_decision_" writeLogDecision.

End ArcClient.

(** ** agent/executor.ts *)

(** [a.push(x); if (a.length > cap) a.shift()]. *)
Definition pushBounded {A} (cap : nat) (x : A) (l : list A) : list A :=
  let l' := l ++ [x] in
  if (cap <? length l')%nat then tail l' else l'.

Fixpoint joinText (sep : string) (l : list text) : text :=
  match l with
  | [] => []
  | [t] => t
  | t :: r => t ++ Lit sep :: joinText sep r
  end.

Definition sumQ (l : list Q) : Q := fold_left Qplus l 0%Q.

Definition dquote : string := String (ascii_of_nat 34) EmptyString.

Module Executor.

Definition setAgentLogs (v : list AgentLog) (e : Exec) : Exec :=
  {| agentRunning := agentRunning e; agentInterval := agentInterval e;
     riskLevel := riskLevel e; agentLogs := v; priceHistory := priceHistory e;
     treasuryDecisions := treasuryDecisions e; treasuryState := treasuryState e;
     decisionIdCounter := decisionIdCounter e |}.
Definition setPriceHistory (v : list PriceHistoryEntry) (e : Exec) : Exec :=
  {| agentRunning := agentRunning e; agentInterval := agentInterval e;
     riskLevel := riskLevel e; agentLogs := agentLogs e; priceHistory := v;
     treasuryDecisions := treasuryDecisions e; treasuryState := treasuryState e;
     decisionIdCounter := decisionIdCounter e |}.
Definition setTreasuryState (v : TreasuryState) (e : Exec) : Exec :=
  {| agentRunning := agentRunning e; agentInterval := agentInterval e;
     riskLevel := riskLevel e; agentLogs := agentLogs e;
     priceHistory := priceHistory e;
     treasuryDecisions := treasuryDecisions e; treasuryState := v;
     decisionIdCounter := decisionIdCounter e |}.
Definition setRiskLevel (v : RiskLevel) (e : Exec) : Exec :=
  {| agentRunning := agentRunning e; agentInterval := agentInterval e;
     riskLevel := v; agentLogs := agentLogs e; priceHistory := priceHistory e;
     treasuryDecisions := treasuryDecisions e; treasuryState := treasuryState e;
     decisionIdCounter := decisionIdCounter e |}.

Definition setBalances (arc sui : Q) (t : TreasuryState) : TreasuryState :=
  {| arcVaultBalance := arc; suiYieldTotal := sui;
     lastDecision := lastDecision t; lastDecisionTime := lastDecisionTime t;
     ts_riskScore := ts_riskScore t;
     allocationArcPct := allocationArcPct t;
     allocationSuiPct := allocationSuiPct t |}.
Definition setAllocation (arcPct : Q) (t : TreasuryState) : TreasuryState :=
  {| arcVaultBalance := arcVaultBalance t; suiYieldTotal := suiYieldTotal t;
     lastDecision := lastDecision t; lastDecisionTime := lastDecisionTime t;
     ts_riskScore := ts_riskScore t;
     allocationArcPct := arcPct;
     allocationSuiPct := (100 - arcPct)%Q |}.
Definition setRiskScore (r : Q) (t : TreasuryState) : TreasuryState :=
  {| arcVaultBalance := arcVaultBalance t; suiYieldTotal := suiYieldTotal t;
     lastDecision := lastDecision t; lastDecisionTime := lastDecisionTime t;
     ts_riskScore := r;
     allocationArcPct := allocationArcPct t;
     allocationSuiPct := allocationSuiPct t |}.

(** Get live SUI price (cached 30s) *)
Definition getSuiPrice : Eff Q :=
  prices <- Prices.fetchPrices ;;
  ret (Js.orNum (option_map pd_price (List.find Strategy.isSui prices)) 0).

Definition recordTreasuryDecision (type : TreasuryDecisionType)
    (trigger action reasoning : text) (riskScore : Q)
    (amount : option Q) (txHash : option text) (chain : DecisionChain)
  : Eff TreasuryDecision :=
  now <- dateNow ;;
  h <- getHeap ;;
  let counter := S (decisionIdCounter (exec h)) in
  let decision :=
    {| td_id := [Lit "td-"; ShowZ (Z.of_nat counter); Lit "-"; ShowZ now];
       td_timestamp := now;
       td_type := type;
       td_trigger := trigger;
       td_action := action;
       td_reasoning := reasoning;
       td_riskScore := riskScore;
       td_amount := amount;
       td_txHash := txHash;
       td_chain := chain |} in
  modify (withExec (fun e =>
    {| agentRunning := agentRunning e; agentInterval := agentInterval e;
       riskLevel := riskLevel e; agentLogs := agentLogs e;
       priceHistory := priceHistory e;
       treasuryDecisions := pushBounded 50 decision (treasuryDecisions e);
       treasuryState :=
         {| arcVaultBalance := arcVaultBalance (treasuryState e);
            suiYieldTotal := suiYieldTotal (treasuryState e);
            lastDecision := Some decision;
            lastDecisionTime := now;
            ts_riskScore := riskScore;
            allocationArcPct := allocationArcPct (treasuryState e);
            allocationSuiPct := allocationSuiPct (treasuryState e) |};
       decisionIdCounter := counter |})) ;;;
  ret decision.

(** [log]; the console and the UI callback are outside the model. *)
Definition log (level : LogLevel) (message : text) : Eff unit :=
  now <- dateNow ;;
  modify (withExec (fun e =>
    setAgentLogs
      (pushBounded 100
         {| al_timestamp := now; al_level := level; al_message := message |}
         (agentLogs e)) e)).

(** *** The risk score of [assessTreasuryRisk] *)

Definition priceRisk (priceChange24h : Q) : Q :=
  Js.min 100 (Js.max 0 (Js.abs (Js.min 0 priceChange24h) * 5)%Q).
Definition fundingRisk (avgFundingAnnualized : Q) : Q :=
  Js.min 100 (Js.max 0 (- avgFundingAnnualized * 2 + 50)%Q).
Definition yieldRisk (bestYieldApy : Q) : Q :=
  Js.min 100 (Js.max 0 ((5 - bestYieldApy) * 20)%Q).
Definition riskScoreOf (priceChange24h avgFundingAnnualized bestYieldApy : Q) : Z :=
  Js.round (priceRisk priceChange24h * (4 # 10)
            + fundingRisk avgFundingAnnualized * (3 # 10)
            + yieldRisk bestYieldApy * (3 # 10))%Q.

Record Recommendation : Type := {
  recommendedArcPct : Q;
  recommendedSuiPct : Q;
  riskLabel : string
}.

Definition recommend (riskScore : Z) : Recommendation :=
  if riskScore >=? TREASURY_CONFIG.HIGH_RISK_THRESHOLD then
    {| recommendedArcPct := 70; recommendedSuiPct := 30; riskLabel := "HIGH" |}
  else if riskScore >=? TREASURY_CONFIG.MEDIUM_RISK_THRESHOLD then
    {| recommendedArcPct := 40; recommendedSuiPct := 60; riskLabel := "MEDIUM" |}
  else
    {| recommendedArcPct := 15; recommendedSuiPct := 85; riskLabel := "LOW" |}.

Definition priceChangeOf (history : list PriceHistoryEntry) (suiPrice : Q) : Q :=
  let oldest :=
    if (1 <? length history)%nat
    then match history with e :: _ => ph_price e | [] => suiPrice end
    else suiPrice in
  if Js.gtb oldest 0 then ((suiPrice - oldest) / oldest * 100)%Q else 0%Q.

Definition fundingSignalOf (avgFundingAnnualized : Q) : string :=
  if Js.ltb avgFundingAnnualized (-5) then "bearish"
  else if Js.gtb avgFundingAnnualized 10 then "bullish"
  else "neutral".

(** *** The entry point *)

(** The cases of the [switch] that are modelled; the read-only queries,
    the bridge quotes, the Bluefin cases and the two agent-control cases
    are not. *)
Inductive FunctionName : Type :=
| depositToVault | withdrawFromVault | moveToYield | setRiskLevelFn
| assessTreasuryRisk | moveToArcVault | withdrawFromArcVault.

Definition functionString (n : FunctionName) : string :=
  match n with
  | depositToVault => "depositToVault"
  | withdrawFromVault => "withdrawFromVault"
  | moveToYield => "moveToYield"
  | setRiskLevelFn => "setRiskLevel"
  | assessTreasuryRisk => "assessTreasuryRisk"
  | moveToArcVault => "moveToArcVault"
  | withdrawFromArcVault => "withdrawFromArcVault"
  end.

(** [args], with the fields the modelled cases read, typed as the casts
    of the source take them ([None]: the property is absent). *)
Record Args : Type := {
  arg_amount : option Q;
  arg_protocol : option string;
  arg_level : option string;
  arg_reason : option string
}.

Record TxResult : Type := {
  digest : string;
  success : bool
}.

Record Context : Type := {
  walletAddress : option string;
  delegatorExecute : option (Transaction -> fetched (option TxResult))
}.

Definition runDelegator (f : Transaction -> fetched (option TxResult))
    (tx : Transaction) : Eff (option TxResult) :=
  emit (EvExecuteTx tx) ;;; (fun _ h =>
    match f tx with
    | Fetched r => (Value r, h)
    | FetchError msg => (Thrown msg, h)
    end).

Definition succeeded (r : option TxResult) : option TxResult :=
  match r with
  | Some x => if success x then Some x else None
  | None => None
  end.

Definition parseRiskLevel (s : string) : option RiskLevel :=
  if String.eqb s "conservative" then Some conservative
  else if String.eqb s "moderate" then Some moderate
  else if String.eqb s "aggressive" then Some aggressive
  else None.

Definition riskLevelString (l : RiskLevel) : string :=
  match l with
  | conservative => "conservative"
  | moderate => "moderate"
  | aggressive => "aggressive"
  end.

Definition updateAllocation (t : TreasuryState) : TreasuryState :=
  let totalValue := (arcVaultBalance t + suiYieldTotal t)%Q in
  setAllocation
    (if Js.gtb totalValue 0 then (arcVaultBalance t / totalValue * 100)%Q else 0%Q) t.

Definition ARC_EXPLORER : string := "https://testnet.arcscan.app".
Definition arcScanTxLink (txHash : text) : text :=
  Lit ARC_EXPLORER :: Lit "/tx/" :: txHash.

Definition modifyTreasury (f : TreasuryState -> TreasuryState) : Eff unit :=
  modify (withExec (fun e => setTreasuryState (f (treasuryState e)) e)).

Definition getTreasury : Eff TreasuryState :=
  h <- getHeap ;; ret (treasuryState (exec h)).

(** [p.catch(() => {})] on a call that is not awaited. *)
Definition fireAndForget {A} (m : Eff A) : Eff unit :=
  catch (m ;;; ret tt) (fun _ => ret tt).

Definition caseDepositToVault (args : Args) (context : Context) : Eff text :=
  let amount := Js.orNum (arg_amount args) 0 in
  if Js.leb amount 0 then ret [Lit "Please specify an amount to deposit."]
  else
    match delegatorExecute context with
    | None =>
        ret [Lit "Please fund the voice agent first. Click the wallet icon to deposit."]
    | Some execute =>
        catch
          (let tx := Protocols.buildDepositTx (Js.floor (amount * 1000000000)%Q) in
           emit (EvBuildTx tx) ;;;
           result <- runDelegator execute tx ;;
           match succeeded result with
           | Some r =>
               log LAction [Lit "Deposited "; Show amount; Lit " SUI to vault"] ;;;
               ret [Lit "Successfully deposited "; Show amount;
                    Lit " SUI to the vault. Transaction: ";
                    Lit (String.substring 0 10 (digest r)); Lit "..."]
           | None => ret [Lit "Deposit transaction failed. Please try again."]
           end)
          (fun msg => ret [Lit "Deposit failed: "; Lit msg])
    end.

Definition caseWithdrawFromVault : Eff text :=
  log LAction [Lit "Withdraw requested"] ;;;
  ret [Lit "Withdrawal initiated. Your SUI plus accumulated yield will be returned to your wallet. (Demo mode — full withdrawal logic requires on-chain receipt.)"].

Definition caseMoveToYield (args : Args) (context : Context) : Eff text :=
  let protocolInput := Js.orStr (arg_protocol args) EmptyString in
  if String.eqb protocolInput EmptyString
  then ret [Lit "Please specify a protocol to move funds to."]
  else
    catch
      (suiPrice <- getSuiPrice ;;
       let protocolName := Protocols.resolveProtocolName protocolInput in
       yields <- YieldScanner.scanYields ;;
       let target :=
         List.find
           (fun y =>
              String.eqb (Js.toLowerCase (yo_protocol y)) (Js.toLowerCase protocolInput)
              || match protocolName with
                 | Some pn => String.eqb (yo_protocol y) (Protocols.protocolString pn)
                 | None => false
                 end)
           yields in
       match target with
       | None =>
           ret [Lit "Protocol "; Lit dquote; Lit protocolInput; Lit dquote;
                Lit " not found. Available: ";
                Lit (String.concat ", " (map yo_protocol yields))]
       | Some target =>
           let amount := Js.orNum (arg_amount args) 100 in
           let amountMist := Js.floor (amount * 1000000000)%Q in
           let amountUsd := (amount * suiPrice)%Q in
           now <- dateNow ;;
           let position :=
             {| yp_protocol := yo_protocol target; yp_chain := yo_chain target;
                yp_asset := yo_asset target; yp_amount := amount;
                yp_amountUsd := amountUsd; yp_apy := yo_netApy target;
                yp_earnedUsd := 0; yp_depositedAt := now |} in
           match protocolName with
           | Some pn =>
               let action := Protocols.buildProtocolDeposit pn amountMist (Some suiPrice) in
               emit (EvBuildTx (Protocols.pa_tx action)) ;;;
               if yo_isNative target then
                 (* Build real PTB for the target protocol *)
                 log LAction [Lit "Building "; Lit (Protocols.pa_protocol action);
                              Lit " deposit PTB"] ;;;
                 match delegatorExecute context with
                 | Some execute =>
                     if negb (Protocols.pa_isSimulated action) then
                       (* Execute if we have a delegator *)
                       catch
                         (result <- runDelegator execute (Protocols.pa_tx action) ;;
                          match succeeded result with
                          | Some r =>
                              YieldScanner.setPosition position ;;;
                              log LAction [Lit "Executed "; Lit (Protocols.pa_protocol action);
                                           Lit " deposit"] ;;;
                              ret (Protocols.pa_description action ++
                                   [Lit ". Transaction: "; Lit (String.substring 0 10 (digest r));
                                    Lit "... Earning "; Fixed (yo_netApy target) 1;
                                    Lit "% APY."])
                          | None =>
                              ret [Lit (Protocols.pa_protocol action);
                                   Lit " deposit transaction failed."]
                          end)
                         (fun msg =>
                            ret [Lit (Protocols.pa_protocol action);
                                 Lit " execution failed: "; Lit msg])
                     else
                       (* Record the position *)
                       YieldScanner.setPosition position ;;;
                       ret (Protocols.pa_description action ++
                            [Lit ". Now earning "; Fixed (yo_netApy target) 1; Lit "% APY."])
                 | None =>
                     YieldScanner.setPosition position ;;;
                     ret (Protocols.pa_description action ++
                          [Lit ". Now earning "; Fixed (yo_netApy target) 1; Lit "% APY."])
                 end
               else
                 (* Cross-chain target: needs swap + bridge *)
                 YieldScanner.setPosition position ;;;
                 log LAction [Lit "Cross-chain move to "; Lit (yo_protocol target)] ;;;
                 ret (Protocols.pa_description action ++
                      [Lit ". "; Fixed (yo_netApy target) 1; Lit "% net APY after ";
                       Fixed (yo_bridgeCostPct target) 1;
                       Lit "% bridge fee. DeepBook swap + LI.FI bridge route prepared."])
           | None =>
               (* Fallback: record position *)
               YieldScanner.setPosition position ;;;
               log LAction [Lit "Moved funds to "; Lit (yo_protocol target)] ;;;
               if yo_isNative target then
                 ret [Lit "Deployed to "; Lit (yo_protocol target); Lit " on ";
                      Lit (yo_chain target); Lit " at "; Fixed (yo_netApy target) 1;
                      Lit "% APY. Funds are now earning yield."]
               else
                 ret [Lit "Bridging to "; Lit (yo_chain target);
                      Lit " via LI.FI, then deploying to "; Lit (yo_protocol target);
                      Lit " at "; Fixed (yo_netApy target) 1; Lit "% APY (net after ";
                      Fixed (yo_bridgeCostPct target) 1; Lit "% bridge fee)."]
           end
       end)
      (fun msg => ret [Lit "Move failed: "; Lit msg]).

Definition caseSetRiskLevel (args : Args) : Eff text :=
  let level := Js.orStr (arg_level args) "moderate" in
  match parseRiskLevel level with
  | None => ret [Lit "Risk level must be: conservative, moderate, or aggressive."]
  | Some l =>
      modify (withExec (setRiskLevel l)) ;;;
      let profile := RISK_PROFILES l in
      log LInfo [Lit "Risk level set to "; Lit level] ;;;
      ret [Lit "Risk level set to "; Lit level; Lit ". Rebalance threshold: ";
           Show (rebalanceThresholdApy profile);
           Lit "% APY difference. Max protocol allocation: ";
           Show (maxAllocationPct profile); Lit "%. Cross-chain: ";
           Lit (if allowCrossChain profile
                then "enabled (Aave, Compound via LI.FI)"
                else "disabled (Sui-only: Scallop, NAVI)"); Lit "."]
  end.

Definition signOf (x : Q) : frag :=
  if Js.geb x 0 then Lit "+" else Lit EmptyString.

Definition caseAssessTreasuryRisk : Eff text :=
  catch
    (prices <- Prices.fetchPrices ;;
     let suiPrice := Js.orNum (option_map pd_price (List.find Strategy.isSui prices)) 0 in
     (* Track price history *)
     now <- dateNow ;;
     modify (withExec (fun e =>
       setPriceHistory
         (pushBounded TREASURY_CONFIG.MAX_PRICE_HISTORY
            {| ph_price := suiPrice; ph_timestamp := now |} (priceHistory e)) e)) ;;;
     h <- getHeap ;;
     (* Calculate 24h price change *)
     let priceChange24h := priceChangeOf (priceHistory (exec h)) suiPrice in
     (* Funding rates signal *)
     funding <-
       catch
         (rates <- Bluefin.fetchFundingRates ;;
          if nonEmpty rates then
            let avg := (sumQ (map fr_annualizedRate rates)
                        / Js.ofZ (Z.of_nat (length rates)))%Q in
            ret (avg, fundingSignalOf avg)
          else ret (0%Q, "neutral"))
         (fun _ => ret (0%Q, "neutral")) ;;
     let avgFundingAnnualized := fst funding in
     let fundingSignal := snd funding in
     (* Best yield signal *)
     bestYieldApy <-
       catch
         (yieldResult <- YieldScanner.findBestYield (riskLevel (exec h)) ;;
          ret (Js.orNum (option_map yo_netApy (sr_bestOpportunity yieldResult)) 0))
         (fun _ => ret 0%Q) ;;
     (* Compute risk score 0-100 *)
     let riskScore := riskScoreOf priceChange24h avgFundingAnnualized bestYieldApy in
     let rec := recommend riskScore in
     (* Build triggers list *)
     let triggers : list text :=
       (if Js.ltb priceChange24h (-5)
        then [[Lit "SUI down "; Fixed (Js.abs priceChange24h) 1; Lit "%"]] else [])
       ++ (if Js.gtb priceChange24h 5
           then [[Lit "SUI up "; Fixed priceChange24h 1; Lit "%"]] else [])
       ++ (if String.eqb fundingSignal "bearish"
           then [[Lit "Negative funding ("; Fixed avgFundingAnnualized 1; Lit "% ann.)"]]
           else [])
       ++ (if Js.ltb bestYieldApy 2
           then [[Lit "Low yields (best: "; Fixed bestYieldApy 1; Lit "%)"]] else [])
       ++ (if Js.gtb bestYieldApy 5
           then [[Lit "Strong yields (best: "; Fixed bestYieldApy 1; Lit "%)"]] else []) in
     modifyTreasury (setRiskScore (Js.ofZ riskScore)) ;;;
     decision <-
       recordTreasuryDecision risk_assessment
         (if nonEmpty triggers then joinText ", " triggers else [Lit "Routine check"])
         [Lit "Risk assessment: "; Lit (riskLabel rec); Lit " ("; ShowZ riskScore;
          Lit "/100)"]
         [Lit "SUI at $"; Fixed suiPrice 4; Lit " ("; signOf priceChange24h;
          Fixed priceChange24h 1; Lit "%), funding "; Lit fundingSignal; Lit " (";
          Fixed avgFundingAnnualized 1; Lit "% ann.), best yield ";
          Fixed bestYieldApy 1; Lit "%"]
         (Js.ofZ riskScore) None None chain_arc ;;
     log LInfo [Lit "Treasury risk: "; ShowZ riskScore; Lit "/100 (";
                Lit (riskLabel rec); Lit ")"] ;;;
     ret ([Lit "Treasury Risk Assessment:"; Newline; Lit "• Risk Score: "; ShowZ riskScore;
           Lit "/100 ("; Lit (riskLabel rec); Lit ")"; Newline; Lit "• SUI Price: $";
           Fixed suiPrice 4; Lit " ("; signOf priceChange24h;
           Fixed priceChange24h 1; Lit "% trend)"; Newline; Lit "• Funding: "; Lit fundingSignal;
           Lit " ("; Fixed avgFundingAnnualized 1;
           Lit "% annualized)"; Newline; Lit "• Best Yield: "; Fixed bestYieldApy 1;
           Lit "% APY"; Newline; Newline; Lit "Recommendation: "; Show (recommendedArcPct rec);
           Lit "% Arc Vault (safety) / "; Show (recommendedSuiPct rec);
           Lit "% Sui Yield"; Newline]
          ++ (if nonEmpty triggers
              then Lit "Triggers: " :: joinText ", " triggers
              else [Lit "No active triggers."])))
    (fun msg => ret [Lit "Risk assessment failed: "; Lit msg]).

Definition caseMoveToArcVault (args : Args) : Eff text :=
  let amount := Js.orNum (arg_amount args) 0 in
  if Js.leb amount 0 then ret [Lit "Please specify an amount in USDC to deposit."]
  else
    let reason :=
      [Lit (Js.orStr (arg_reason args)
              "Manual safety move — parking in RWA-backed USDC on Arc")] in
    catch
      (result <- ArcClient.depositToVault amount reason ;;
       if ArcClient.vr_success result then
         modifyTreasury (fun t =>
           updateAllocation
             (setBalances (arcVaultBalance t + amount)%Q (suiYieldTotal t) t)) ;;;
         t <- getTreasury ;;
         decision <-
           recordTreasuryDecision safety_deposit reason
             [Lit "Deposited $"; Fixed amount 2; Lit " USDC to Arc vault"]
             reason (ts_riskScore t) (Some amount)
             (Some (ArcClient.vr_txHash result)) chain_arc ;;
         (* Log on-chain *)
         fireAndForget
           (ArcClient.logVaultDecision "SAFETY_DEPOSIT" (ts_riskScore t) reason) ;;;
         log LAction [Lit "Arc vault deposit: $"; Show amount; Lit " USDC"] ;;;
         t' <- getTreasury ;;
         ret ([Lit "Deposited $"; Fixed amount 2;
               Lit " USDC into Arc treasury vault."; Newline; Lit "Reason: "] ++ reason
              ++ [Newline; Lit "Transaction: "] ++ arcScanTxLink (ArcClient.vr_txHash result)
              ++ [Newline; Lit "Vault balance: ~$"; Fixed (arcVaultBalance t') 2;
                  Lit " USDC (backed by US Treasuries)"])
       else
         ret [Lit "Arc vault deposit failed. Please check wallet balance and try again."])
      (fun msg => ret [Lit "Arc vault deposit failed: "; Lit msg]).

Definition caseWithdrawFromArcVault (args : Args) : Eff text :=
  let amount := Js.orNum (arg_amount args) 0 in
  if Js.leb amount 0 then ret [Lit "Please specify an amount in USDC to withdraw."]
  else
    let reason :=
      [Lit (Js.orStr (arg_reason args)
              "Redeploying to Sui yield — market conditions improved")] in
    catch
      (result <- ArcClient.withdrawFromVault amount reason ;;
       if ArcClient.vr_success result then
         modifyTreasury (fun t =>
           updateAllocation
             (setBalances (Js.max 0 (arcVaultBalance t - amount)%Q)
                (suiYieldTotal t) t)) ;;;
         t <- getTreasury ;;
         recordTreasuryDecision yield_withdraw reason
           [Lit "Withdrew $"; Fixed amount 2; Lit " USDC from Arc vault"]
           reason (ts_riskScore t) (Some amount)
           (Some (ArcClient.vr_txHash result)) chain_arc ;;;
         fireAndForget
           (ArcClient.logVaultDecision "YIELD_WITHDRAW" (ts_riskScore t) reason) ;;;
         log LAction [Lit "Arc vault withdrawal: $"; Show amount; Lit " USDC"] ;;;
         t' <- getTreasury ;;
         ret ([Lit "Withdrew $"; Fixed amount 2;
               Lit " USDC from Arc vault for yield redeployment."; Newline; Lit "Reason: "] ++ reason
              ++ [Newline; Lit "Transaction: "] ++ arcScanTxLink (ArcClient.vr_txHash result)
              ++ [Newline; Lit "Remaining vault balance: ~$"; Fixed (arcVaultBalance t') 2;
                  Lit " USDC"])
       else ret [Lit "Arc vault withdrawal failed. Check vault balance."])
      (fun msg => ret [Lit "Arc vault withdrawal failed: "; Lit msg]).

(** Execute a function call from Gemini. *)
Definition executeFunction (name : FunctionName) (args : Args) (context : Context)
  : Eff text :=
  log LInfo [Lit "Executing: "; Lit (functionString name)] ;;;
  match name with
  | depositToVault => caseDepositToVault args context
  | withdrawFromVault => caseWithdrawFromVault
  | moveToYield => caseMoveToYield args context
  | setRiskLevelFn => caseSetRiskLevel args
  | assessTreasuryRisk => caseAssessTreasuryRisk
  | moveToArcVault => caseMoveToArcVault args
  | withdrawFromArcVault => caseWithdrawFromArcVault args
  end.

(** *** The optimizer cycle *)

(** [Math.min(...xs)] on a non-empty array. *)
Definition minOf (xs : list Q) (otherwise : Q) : Q :=
  match xs with
  | [] => otherwise
  | x :: r => fold_left Js.min r x
  end.

(** [a.slice(-n)]. *)
Definition lastN {A} (n : nat) (l : list A) : list A := drop (length l - n) l.

Definition orUndefined (s : option string) : string := default "undefined" s.

(** Safety trigger: deposit to the vault, then [return]. *)
Definition safetyMove (priceFromRecent moveAmount : Q) : Eff unit :=
  let reason :=
    [Lit "SUI dropped "; Fixed (Js.abs priceFromRecent) 1; Lit "% — moving $";
     Fixed moveAmount 0; Lit " USDC to Arc vault for safety"] in
  log LAction (Lit "SAFETY TRIGGER: " :: reason) ;;;
  result <- ArcClient.depositToVault moveAmount reason ;;
  if ArcClient.vr_success result then
    modifyTreasury (fun t =>
      setBalances (arcVaultBalance t + moveAmount)%Q
                  (suiYieldTotal t - moveAmount)%Q t) ;;;
    recordTreasuryDecision auto_safety
      [Lit "SUI price drop "; Fixed priceFromRecent 1; Lit "%"]
      [Lit "Auto-deposited $"; Fixed moveAmount 0; Lit " USDC to Arc vault"]
      reason
      (Js.min 100 (Js.ofZ (Js.round (Js.abs priceFromRecent * 5)%Q)))
      (Some moveAmount) (Some (ArcClient.vr_txHash result)) chain_arc ;;;
    fireAndForget (ArcClient.logVaultDecision "AUTO_SAFETY" 80 reason)
  else ret tt.

(** Recovery trigger.  The block has no [return]: control goes on to the
    standard rebalancing below it. *)
Definition recoveryRedeploy (recoveryFromLow : Q) : Eff unit :=
  h <- getHeap ;;
  if Js.gtb recoveryFromLow TREASURY_CONFIG.RECOVERY_THRESHOLD_PCT
     && Js.gtb (arcVaultBalance (treasuryState (exec h))) 1
  then
    (* Only redeploy if yields are attractive *)
    yieldCheck <- YieldScanner.findBestYield (riskLevel (exec h)) ;;
    let bestApy := Js.orNum (option_map yo_netApy (sr_bestOpportunity yieldCheck)) 0 in
    if Js.gtb bestApy TREASURY_CONFIG.MIN_YIELD_FOR_DEPLOYMENT then
      t <- getTreasury ;;
      let redeployAmount := (arcVaultBalance t * (1 # 2))%Q in
      let bestName :=
        orUndefined (option_map yo_protocol (sr_bestOpportunity yieldCheck)) in
      let reason :=
        [Lit "SUI recovered "; Fixed recoveryFromLow 1; Lit "% from low, best yield ";
         Fixed bestApy 1; Lit "% — redeploying $"; Fixed redeployAmount 0;
         Lit " to "; Lit bestName] in
      log LAction (Lit "RECOVERY TRIGGER: " :: reason) ;;;
      result <- ArcClient.withdrawFromVault redeployAmount reason ;;
      if ArcClient.vr_success result then
        modifyTreasury (fun t =>
          setBalances (arcVaultBalance t - redeployAmount)%Q
                      (suiYieldTotal t + redeployAmount)%Q t) ;;;
        recordTreasuryDecision auto_redeploy
          [Lit "Recovery +"; Fixed recoveryFromLow 1; Lit "% from low, yield ";
           Fixed bestApy 1; Lit "%"]
          [Lit "Auto-withdrew $"; Fixed redeployAmount 0; Lit " from Arc vault to ";
           Lit bestName]
          reason
          (Js.max 0 (50 - Js.ofZ (Js.round (recoveryFromLow * 3)%Q))%Q)
          (Some redeployAmount) (Some (ArcClient.vr_txHash result)) chain_cross ;;;
        fireAndForget (ArcClient.logVaultDecision "AUTO_REDEPLOY" 30 reason)
      else ret tt
    else ret tt
  else ret tt.

(** Standard yield rebalancing. *)
Definition standardRebalance (context : Context) : Eff unit :=
  h <- getHeap ;;
  result <- YieldScanner.findBestYield (riskLevel (exec h)) ;;
  let profile := RISK_PROFILES (riskLevel (exec h)) in
  match sr_bestOpportunity result with
  | None =>
      (* If no good yields and not already in Arc, consider parking there *)
      t <- getTreasury ;;
      if Js.gtb (suiYieldTotal t) 10
         && forallb (fun o => Js.ltb (yo_netApy o) TREASURY_CONFIG.MIN_YIELD_FOR_DEPLOYMENT)
              (sr_opportunities result)
      then
        log LInfo [Lit "No attractive yields — Arc vault preferred for safety"] ;;;
        recordTreasuryDecision risk_assessment
          [Lit "No yields above threshold"]
          [Lit "Prefer Arc vault — all yields below minimum"]
          [Lit "Best available yield below ";
           Show TREASURY_CONFIG.MIN_YIELD_FOR_DEPLOYMENT;
           Lit "% — USDC in Arc vault earns risk-free rate backed by US Treasuries"]
          55 None None chain_arc ;;;
        ret tt
      else log LInfo [Lit "No yield opportunities found"]
  | Some best =>
      let currentBest := head (sr_currentAllocation result) in
      let improvement :=
        match currentBest with
        | Some c => (yo_netApy best - yp_apy c)%Q
        | None => yo_netApy best
        end in
      let currentName := Js.orStr (option_map yp_protocol currentBest) "idle" in
      log LInfo [Lit "Best yield: "; Lit (yo_protocol best); Lit " at ";
                 Fixed (yo_netApy best) 1; Lit "%"] ;;;
      (* Check if rebalance is warranted *)
      if Js.gtb improvement (rebalanceThresholdApy profile) then
        let protocolName := Protocols.resolveProtocolName (yo_protocol best) in
        log LAction [Lit "Rebalancing: "; Lit currentName; Lit " → ";
                     Lit (yo_protocol best); Lit " (+"; Fixed improvement 1;
                     Lit "% APY)"] ;;;
        (* Build real PTB if protocol is supported *)
        match protocolName with
        | Some pn =>
            let amountMist :=
              Js.floor (Js.orNum (option_map yp_amount currentBest) 0 * 1000000000)%Q in
            cycleSuiPrice <- getSuiPrice ;;
            let action := Protocols.buildProtocolDeposit pn amountMist (Some cycleSuiPrice) in
            emit (EvBuildTx (Protocols.pa_tx action)) ;;;
            log LInfo (Lit "PTB built: " :: Protocols.pa_description action)
        | None => ret tt
        end ;;;
        (* Update position tracking *)
        now <- dateNow ;;
        YieldScanner.setPosition
          {| yp_protocol := yo_protocol best; yp_chain := yo_chain best;
             yp_asset := yo_asset best;
             yp_amount := Js.orNum (option_map yp_amount currentBest) 0;
             yp_amountUsd := Js.orNum (option_map yp_amountUsd currentBest) 0;
             yp_apy := yo_netApy best;
             yp_earnedUsd := Js.orNum (option_map yp_earnedUsd currentBest) 0;
             yp_depositedAt := now |} ;;;
        t <- getTreasury ;;
        recordTreasuryDecision rebalance
          [Lit "+"; Fixed improvement 1; Lit "% APY improvement"]
          [Lit "Rebalanced to "; Lit (yo_protocol best); Lit " at ";
           Fixed (yo_netApy best) 1; Lit "% APY"]
          [Lit "Moved from "; Lit currentName; Lit " to "; Lit (yo_protocol best);
           Lit " for "; Fixed improvement 1; Lit "% APY improvement on ";
           Lit (yo_chain best)]
          (ts_riskScore t) (option_map yp_amountUsd currentBest) None chain_sui ;;;
        ret tt
      else
        log LInfo [Lit "No rebalance needed. Improvement ("; Fixed improvement 1;
                   Lit "%) below threshold ("; Show (rebalanceThresholdApy profile);
                   Lit "%)"]
  end.

(** Single optimization cycle.  A division by a zero price gives 0 here
    and a non-number in the source; both fail the comparisons below. *)
Definition runOptimizationCycle (context : Context) : Eff unit :=
  catch
    (log LInfo [Lit "Running yield scan + treasury safety check..."] ;;;
     (* Treasury Safety Check *)
     suiPrice <- getSuiPrice ;;
     now <- dateNow ;;
     modify (withExec (fun e =>
       setPriceHistory
         (pushBounded TREASURY_CONFIG.MAX_PRICE_HISTORY
            {| ph_price := suiPrice; ph_timestamp := now |} (priceHistory e)) e)) ;;;
     h <- getHeap ;;
     let history := priceHistory (exec h) in
     (* Calculate price trend *)
     let recentLow :=
       if (2 <? length history)%nat
       then minOf (map ph_price (lastN 10 history)) suiPrice
       else suiPrice in
     let priceFromRecent :=
       if (2 <? length history)%nat
       then match history with
            | e0 :: _ => ((suiPrice - ph_price e0) / ph_price e0 * 100)%Q
            | [] => 0%Q
            end
       else 0%Q in
     let recoveryFromLow :=
       if Js.gtb recentLow 0 then ((suiPrice - recentLow) / recentLow * 100)%Q
       else 0%Q in
     let moveAmount :=
       (suiYieldTotal (treasuryState (exec h)) * TREASURY_CONFIG.SAFETY_MOVE_RATIO)%Q in
     (* Check safety trigger: SUI dropped > threshold% *)
     if Js.ltb priceFromRecent (- TREASURY_CONFIG.SAFETY_THRESHOLD_PCT)%Q
        && Js.gtb moveAmount 1
     then safetyMove priceFromRecent moveAmount (* Skip yield rebalance this cycle *)
     else
       (* Check recovery trigger *)
       recoveryRedeploy recoveryFromLow ;;;
       (* Standard Yield Rebalancing *)
       standardRebalance context)
    (fun msg => log LError [Lit "Optimization cycle failed: "; Lit msg]).
End Executor.

(** *** The scheduler seen from the event loop *)

(** [runOptimizationCycle] is an [async] function that nobody awaits:
    calling it starts a cycle, which suspends at its first [await] and
    settles in some later turn of the event loop.  The loop state keeps the
    two module variables of the scheduler and counts the cycles that were
    started and have not settled yet. *)
Module Scheduler.

Inductive LoopEvent : Type :=
| StartAutoYield   (* executeFunction("startAutoYield") *)
| StopAutoYield    (* executeFunction("stopAutoYield") *)
| TimerFires       (* the setInterval callback is run *)
| CycleSettles.    (* one cycle in flight reaches its end *)

Record Loop : Type := {
  running : bool;       (* agentRunning *)
  timer : bool;         (* agentInterval is set *)
  inFlight : nat;       (* cycles started and not yet settled *)
  launched : nat        (* cycles started so far *)
}.

Definition initial : Loop :=
  {| running := false; timer := false; inFlight := 0; launched := 0 |}.

(** The call [runOptimizationCycle(context)], up to the first [await]. *)
Definition launchCycle (l : Loop) : Loop :=
  {| running := running l; timer := timer l;
     inFlight := S (inFlight l); launched := S (launched l) |}.

Definition startAutoOptimizer (l : Loop) : Loop :=
  let l := {| running := true; timer := timer l;
              inFlight := inFlight l; launched := launched l |} in
  (* Run immediately, then on interval *)
  let l := launchCycle l in
  {| running := running l; timer := true;
     inFlight := inFlight l; launched := launched l |}.

Definition stopAutoOptimizer (l : Loop) : Loop :=
  {| running := false; timer := false;
     inFlight := inFlight l; launched := launched l |}.

Definition step (l : Loop) (ev : LoopEvent) : Loop :=
  match ev with
  | StartAutoYield => if running l then l else startAutoOptimizer l
  | StopAutoYield => if negb (running l) then l else stopAutoOptimizer l
  | TimerFires => if timer l then launchCycle l else l
  | CycleSettles =>
      {| running := running l; timer := timer l;
         inFlight := pred (inFlight l); launched := launched l |}
  end.

Definition run (evs : list LoopEvent) (l : Loop) : Loop := fold_left step evs l.

End Scheduler.

(** ** agent/offline-queue.ts *)

Module OfflineQueue.
Section Queue.

(** The type of [args] and the state the executor works on. *)
Context {JsArgs : Type} {ExecutorState : Type}.

Record OfflineIntent : Type := {
  oi_id : string;
  oi_timestamp : Z;
  oi_functionName : string;
  oi_args : JsArgs;
  oi_status : IntentStatus;
  oi_result : option string;
  oi_error : option string
}.

(** What is under the storage key. *)
Inductive Item : Type :=
| Absent
| Corrupt
| Json (queue : list OfflineIntent).

(** [localStorage]; [updates] lists the calls of [updateIntent] in order
    (ghost state). *)
Record Storage : Type := {
  available : bool;
  item : Item;
  updates : list (string * IntentStatus)
}.

Definition getQueue (st : Storage) : list OfflineIntent :=
  if available st then
    match item st with
    | Json q => q
    | Absent | Corrupt => []
    end
  else [].

Definition saveQueue (queue : list OfflineIntent) (st : Storage) : Storage :=
  if available st
  then {| available := true; item := Json queue; updates := updates st |}
  else st.

(** Add an intent to the offline queue.  [id] stands for the identifier
    the source builds from the clock and [Math.random()]. *)
Definition enqueue (id : string) (now : Z) (functionName : string) (args : JsArgs)
    (st : Storage) : OfflineIntent * Storage :=
  let intent :=
    {| oi_id := id; oi_timestamp := now; oi_functionName := functionName;
       oi_args := args; oi_status := queued; oi_result := None; oi_error := None |} in
  (intent, saveQueue (getQueue st ++ [intent]) st).

Record Updates : Type := {
  u_status : IntentStatus;
  u_result : option string;
  u_error : option string
}.

(** [{ ...intent, ...updates }] *)
Definition apply (u : Updates) (i : OfflineIntent) : OfflineIntent :=
  {| oi_id := oi_id i; oi_timestamp := oi_timestamp i;
     oi_functionName := oi_functionName i; oi_args := oi_args i;
     oi_status := u_status u;
     oi_result := match u_result u with Some r => Some r | None => oi_result i end;
     oi_error := match u_error u with Some e => Some e | None => oi_error i end |}.

Definition updateIntent (id : string) (u : Updates) (st : Storage) : Storage :=
  let st := {| available := available st; item := item st;
               updates := updates st ++ [(id, u_status u)] |} in
  let queue := getQueue st in
  match findIndex (fun i => String.eqb (oi_id i) id) queue with
  | Some idx => saveQueue (alter (apply u) idx queue) st
  | None => st
  end.

Definition getPending (st : Storage) : list OfflineIntent :=
  List.filter (fun i => IntentStatus_eqb (oi_status i) queued) (getQueue st).

(** How the promise of the executor settles. *)
Inductive Settled : Type :=
| Resolved (result : string)
| RejectedError (message : string)   (* an [Error] was thrown *)
| RejectedOther.                     (* something else was thrown *)

Record Result : Type := {
  r_id : string;
  r_result : string;
  r_success : bool
}.

Variable executor : string -> JsArgs -> ExecutorState -> Settled * ExecutorState.

Definition resultOf (intent : OfflineIntent) (o : Settled) : Result :=
  match o with
  | Resolved result =>
      {| r_id := oi_id intent; r_result := result; r_success := true |}
  | RejectedError message =>
      {| r_id := oi_id intent; r_result := message; r_success := false |}
  | RejectedOther =>
      {| r_id := oi_id intent; r_result := "Unknown error"; r_success := false |}
  end.

Definition settle (intent : OfflineIntent) (o : Settled) (st : Storage) : Storage :=
  match o with
  | Resolved result =>
      updateIntent (oi_id intent)
        {| u_status := completed; u_result := Some result; u_error := None |} st
  | RejectedError message =>
      updateIntent (oi_id intent)
        {| u_status := failed; u_result := None; u_error := Some message |} st
  | RejectedOther =>
      updateIntent (oi_id intent)
        {| u_status := failed; u_result := None; u_error := Some "Unknown error" |} st
  end.

(** The [for (const intent of pending)] loop. *)
Fixpoint drain (pending : list OfflineIntent) (results : list Result)
    (st : Storage) (s : ExecutorState) : list Result * Storage * ExecutorState :=
  match pending with
  | [] => (results, st, s)
  | intent :: rest =>
      let st := updateIntent (oi_id intent)
                  {| u_status := processing; u_result := None; u_error := None |} st in
      let '(o, s) := executor (oi_functionName intent) (oi_args intent) s in
      let st := settle intent o st in
      drain rest (results ++ [resultOf intent o]) st s
  end.

Definition processQueue (st : Storage) (s : ExecutorState) : list Result * Storage * ExecutorState :=
  let pending := getPending st in
  if (length pending =? 0)%nat then ([], st, s)
  else drain pending [] st s.

(** The promises the executor returns when it is called on the intents
    one after the other. *)
Fixpoint settlements (pending : list OfflineIntent) (s : ExecutorState) : list Settled :=
  match pending with
  | [] => []
  | intent :: rest =>
      let '(o, s) := executor (oi_functionName intent) (oi_args intent) s in
      o :: settlements rest s
  end.

Definition finalStatus (o : Settled) : IntentStatus :=
  match o with
  | Resolved _ => completed
  | RejectedError _ | RejectedOther => failed
  end.

End Queue.
End OfflineQueue.

(** ** agent/strategy.ts: the portfolio snapshot *)

Module Portfolio.

(** Build portfolio state from on-chain data. *)
Definition buildPortfolioState (suiBalanceMist arcBalanceUsdc : Z) (suiPriceUsd : Q)
  : PortfolioState :=
  let suiValueUsd := (Js.ofZ suiBalanceMist / 1000000000 * suiPriceUsd)%Q in
  let arcValueUsd := (Js.ofZ arcBalanceUsdc / 1000000)%Q in
  let totalValueUsd := (suiValueUsd + arcValueUsd)%Q in
  {| pf_sui :=
       {| h_balance := suiBalanceMist;
          h_valueUsd := suiValueUsd;
          h_percentage :=
            if Js.gtb totalValueUsd 0 then (suiValueUsd / totalValueUsd * 100)%Q
            else 50%Q |};
     pf_arc :=
       {| h_balance := arcBalanceUsdc;
          h_valueUsd := arcValueUsd;
          h_percentage :=
            if Js.gtb totalValueUsd 0 then (arcValueUsd / totalValueUsd * 100)%Q
            else 50%Q |};
     pf_totalValueUsd := totalValueUsd |}.

End Portfolio.

(** ** agent/yield-scanner.ts: position bookkeeping *)

Module Positions.

(** One turn of the loop of [syncPositions] over the on-chain positions. *)
Definition mergeOne (l : list YieldPosition) (pos : YieldPosition) : list YieldPosition :=
  match List.find (fun p => YieldScanner.samePlace p pos) l with
  | Some _ => l
  | None => l ++ [pos]
  end.

(** Sync positions from on-chain data; [onChain] is what
    [queryOnChainPositions] returned (it catches its own failures and then
    returns the positions found so far). *)
Definition syncPositionsIn (onChain l : list YieldPosition) : list YieldPosition :=
  fold_left mergeOne onChain l.

Definition syncPositions (onChain : list YieldPosition) : Eff unit :=
  modify (withScanner (fun s =>
            {| cachedPools := cachedPools s; lastFetchTime := lastFetchTime s;
               cachedNaviData := cachedNaviData s; lastNaviFetch := lastNaviFetch s;
               currentPositions := syncPositionsIn onChain (currentPositions s) |})).

Definition clearPositions : Eff unit :=
  modify (withScanner (fun s =>
            {| cachedPools := cachedPools s; lastFetchTime := lastFetchTime s;
               cachedNaviData := cachedNaviData s; lastNaviFetch := lastNaviFetch s;
               currentPositions := [] |})).

End Positions.

(** ** agent/offline-queue.ts: clearing the queue *)

Module QueueCleanup.
Section Cleanup.
Context {JsArgs : Type}.

(** Clear completed/failed intents *)
Definition clearProcessed (st : @OfflineQueue.Storage JsArgs) : OfflineQueue.Storage :=
  OfflineQueue.saveQueue
    (List.filter
       (fun i => IntentStatus_eqb (OfflineQueue.oi_status i) queued
                 || IntentStatus_eqb (OfflineQueue.oi_status i) processing)
       (OfflineQueue.getQueue st))
    st.

(** Clear entire queue *)
Definition clearQueue (st : @OfflineQueue.Storage JsArgs) : OfflineQueue.Storage :=
  OfflineQueue.saveQueue [] st.

End Cleanup.
End QueueCleanup.

(** ** Vocabulary of the statements *)

Definition ledger (h : Heap) : list TreasuryDecision := treasuryDecisions (exec h).

(** One call of [recordTreasuryDecision]: its arguments and the world it
    runs in. *)
Record RecordCall : Type := {
  rc_world : World;
  rc_type : TreasuryDecisionType;
  rc_trigger : text;
  rc_action : text;
  rc_reasoning : text;
  rc_riskScore : Q;
  rc_amount : option Q;
  rc_txHash : option text;
  rc_chain : DecisionChain
}.

Definition recordCall (c : RecordCall) (h : Heap) : outcome TreasuryDecision * Heap :=
  Executor.recordTreasuryDecision (rc_type c) (rc_trigger c) (rc_action c)
    (rc_reasoning c) (rc_riskScore c) (rc_amount c) (rc_txHash c) (rc_chain c)
    (rc_world c) h.

Definition recordAll (calls : list RecordCall) (h : Heap) : Heap :=
  fold_left (fun h c => snd (recordCall c h)) calls h.

(** ** Scenarios *)

Definition llamaPool (project chain symbol : string) (apy tvl : Q) : DefiLlamaPool :=
  {| lp_pool := project +:+ "-" +:+ symbol; lp_chain := chain; lp_project := project;
     lp_symbol := symbol; lp_tvlUsd := tvl; lp_apy := apy |}.

(** A world where only CoinGecko and DeFi Llama answer and no agent wallet
    is configured (vault calls are simulated by the client). *)
Definition calmWorld (t : Z) (suiUsd : Q) (pools : fetched (option (list DefiLlamaPool)))
  : World :=
  {| now := t;
     coingecko := Fetched {| cg_sui := Some suiUsd; cg_ethereum := None; cg_bitcoin := None |};
     defillama := pools;
     naviConfig := FetchError "NAVI API 503";
     bluefinMarkets := FetchError "Bluefin API 503";
     agentWallet := None |}.

Definition twoPools : fetched (option (list DefiLlamaPool)) :=
  Fetched (Some [ llamaPool "scallop-lend" "Sui" "SUI" 3 5000000;
                  llamaPool "navi-lending" "Sui" "SUI" 12 5000000 ]).

Definition llamaDown : fetched (option (list DefiLlamaPool)) :=
  FetchError "DeFi Llama API error: 503".

Definition noArgs : Executor.Args :=
  {| Executor.arg_amount := None; Executor.arg_protocol := None;
     Executor.arg_level := None; Executor.arg_reason := None |}.

Definition voice : Executor.Context :=
  {| Executor.walletAddress := None; Executor.delegatorExecute := None |}.

Definition after {A} (m : Eff A) (w : World) (h : Heap) : Heap := snd (m w h).

(** Hysteresis scenario: the user moves funds to Scallop, then two
    scheduler cycles run one interval apart while NAVI pays 12%. *)
Definition moveToScallop : Executor.Args :=
  {| Executor.arg_amount := Some 10%Q; Executor.arg_protocol := Some "Scallop";
     Executor.arg_level := None; Executor.arg_reason := None |}.

Definition thrash0 : Heap :=
  after (Executor.executeFunction Executor.moveToYield moveToScallop voice)
        (calmWorld 1000000 2 twoPools) initialHeap.
Definition thrash1 : Heap :=
  after (Executor.runOptimizationCycle voice) (calmWorld 1060000 2 twoPools) thrash0.
Definition thrash2 : Heap :=
  after (Executor.runOptimizationCycle voice) (calmWorld 1120000 2 twoPools) thrash1.

(** Recovery scenario: 100 USDC parked in the vault, two cycles while
    DeFi Llama is down (2.00 then 1.80), then a cycle at 2.00 with yields
    available. *)
Definition park100 : Executor.Args :=
  {| Executor.arg_amount := Some 100%Q; Executor.arg_protocol := None;
     Executor.arg_level := None; Executor.arg_reason := None |}.

Definition recovery0 : Heap :=
  after (Executor.executeFunction Executor.moveToArcVault park100 voice)
        (calmWorld 1000000 2 llamaDown) initialHeap.
Definition recovery1 : Heap :=
  after (Executor.runOptimizationCycle voice) (calmWorld 1060000 2 llamaDown) recovery0.
Definition recovery2 : Heap :=
  after (Executor.runOptimizationCycle voice) (calmWorld 1120000 (18 # 10) llamaDown) recovery1.
Definition recovery3 : Heap :=
  after (Executor.runOptimizationCycle voice) (calmWorld 1180000 2 twoPools) recovery2.

Definition crashedPrices : list PriceData :=
  [ Prices.quote "ETH" 3000 0 "coingecko"; Prices.quote "SUI" (4 # 10) 0 "coingecko" ].

Definition somePortfolio : PortfolioState :=
  {| pf_sui := {| h_balance := 7000000000; h_valueUsd := 28 # 10; h_percentage := 50 |};
     pf_arc := {| h_balance := 2800000; h_valueUsd := 28 # 10; h_percentage := 50 |};
     pf_totalValueUsd := 56 # 10 |}.

(** A decision as the cycle records it when no yield is attractive. *)
Definition routineCheck : RecordCall :=
  {| rc_world := calmWorld 1000000 2 llamaDown;
     rc_type := risk_assessment;
     rc_trigger := [Lit "No yields above threshold"];
     rc_action := [Lit "Prefer Arc vault — all yields below minimum"];
     rc_reasoning := [Lit "Best available yield below threshold"];
     rc_riskScore := 55;
     rc_amount := None;
     rc_txHash := None;
     rc_chain := chain_arc |}.

Definition calmPrices : list PriceData :=
  [ Prices.quote "SUI" 2 1060000 "coingecko" ].

Definition navi12 : YieldOpportunity :=
  YieldScanner.poolToOpportunity 1060000 (llamaPool "navi-lending" "Sui" "SUI" 12 5000000).

(** The yield rebalance [evaluateStrategy] returns at time 1000000 when no
    rebalance was made before. *)
Definition firstRebalance : AgentDecision :=
  fst (Strategy.evaluateStrategy 1000000 0 somePortfolio calmPrices [] (Some [navi12])).

(** The risk formulas in the words of the specification. *)
Module SpecRisk.

Definition clamp (x lo hi : Q) : Q :=
  if Js.ltb x lo then lo else if Js.ltb hi x then hi else x.

Definition priceDropComponent (pctChange24h : Q) : Q :=
  clamp (Js.max 0 (- pctChange24h) * 5)%Q 0 100.
Definition fundingComponent (avgAnnualizedFunding : Q) : Q :=
  clamp (- avgAnnualizedFunding * 2 + 50)%Q 0 100.
Definition yieldComponent (bestNetApy : Q) : Q :=
  clamp ((5 - bestNetApy) * 20)%Q 0 100.
Definition risk (priceRisk fundingRisk yieldRisk : Q) : Z :=
  Js.round ((4 # 10) * priceRisk + (3 # 10) * fundingRisk + (3 # 10) * yieldRisk)%Q.

Inductive Band : Type := HIGH | MEDIUM | LOW.

Definition band (score : Z) : Band :=
  if 65 <=? score then HIGH else if 35 <=? score then MEDIUM else LOW.

(** Label, safety share, yield share. *)
Definition split (b : Band) : string * Q * Q :=
  match b with
  | HIGH => ("HIGH", 70%Q, 30%Q)
  | MEDIUM => ("MEDIUM", 40%Q, 60%Q)
  | LOW => ("LOW", 15%Q, 85%Q)
  end.

End SpecRisk.

Definition recommendationTriple (r : Executor.Recommendation) : string * Q * Q :=
  (Executor.riskLabel r, Executor.recommendedArcPct r, Executor.recommendedSuiPct r).

(** Negative funding: one risk assessment from the initial state, at a
    steady SUI price of 2.00 with NAVI paying 2%, while the SUI perpetual
    market reports the funding rate [rate]. *)
Definition navi2 : fetched (option (list DefiLlamaPool)) :=
  Fetched (Some [ llamaPool "navi-lending" "Sui" "SUI" 2 5000000 ]).

Definition perpAt (rate : Q) : BluefinMarketData :=
  {| bm_symbol := "SUI-PERP"; bm_fundingRate := rate; bm_nextFundingTime := 0 |}.

Definition fundingWorld (rate : Q) : World :=
  {| now := 1000000;
     coingecko := Fetched {| cg_sui := Some 2%Q; cg_ethereum := None; cg_bitcoin := None |};
     defillama := navi2;
     naviConfig := FetchError "NAVI API 503";
     bluefinMarkets := Fetched [perpAt rate];
     agentWallet := None |}.

Definition assessedAt (rate : Q) : Heap :=
  after (Executor.executeFunction Executor.assessTreasuryRisk noArgs voice)
        (fundingWorld rate) initialHeap.

(** The funding rate per 8 hours as a yearly percentage, with its sign:
    three payments a day, 365 days. *)
Definition annualized (rate : Q) : Q := (rate * 3 * 365 * 100)%Q.

Definition lastAction (h : Heap) : option text := option_map td_action (last (ledger h)).
Definition lastTrigger (h : Heap) : option text := option_map td_trigger (last (ledger h)).
Definition lastReasoning (h : Heap) : text :=
  default [] (option_map td_reasoning (last (ledger h))).

(** The offline queue: what the queue should hold after a drain. *)
Section QueueVocabulary.
Context {JsArgs ExecutorState : Type}.
Abbreviation Intent := (@OfflineQueue.OfflineIntent JsArgs).

(** The settlement paired with the intent of identifier [id], if any. *)
Fixpoint settlementOf (id : string) (ps : list (Intent * OfflineQueue.Settled))
  : option OfflineQueue.Settled :=
  match ps with
  | [] => None
  | (i, o) :: r =>
      if String.eqb (OfflineQueue.oi_id i) id then Some o else settlementOf id r
  end.

(** An intent after [processing] and then its final status were written. *)
Definition settled (i : Intent) (o : OfflineQueue.Settled) : Intent :=
  {| OfflineQueue.oi_id := OfflineQueue.oi_id i;
     OfflineQueue.oi_timestamp := OfflineQueue.oi_timestamp i;
     OfflineQueue.oi_functionName := OfflineQueue.oi_functionName i;
     OfflineQueue.oi_args := OfflineQueue.oi_args i;
     OfflineQueue.oi_status := OfflineQueue.finalStatus o;
     OfflineQueue.oi_result :=
       match o with
       | OfflineQueue.Resolved r => Some r
       | _ => OfflineQueue.oi_result i
       end;
     OfflineQueue.oi_error :=
       match o with
       | OfflineQueue.Resolved _ => OfflineQueue.oi_error i
       | OfflineQueue.RejectedError m => Some m
       | OfflineQueue.RejectedOther => Some "Unknown error"
       end |}.

Definition transitions (p : Intent * OfflineQueue.Settled)
  : list (string * IntentStatus) :=
  [ (OfflineQueue.oi_id (fst p), processing);
    (OfflineQueue.oi_id (fst p), OfflineQueue.finalStatus (snd p)) ].
Definition hasId (id : string) (i : Intent) : bool :=
  String.eqb (OfflineQueue.oi_id i) id.

Definition writeById (id : string) (u : OfflineQueue.Updates) (q : list Intent)
  : list Intent :=
  map (fun j => if hasId id j then OfflineQueue.apply u j else j) q.

(** The queue after the two writes made for one intent. *)
Definition settleIn (q : list Intent) (p : Intent * OfflineQueue.Settled)
  : list Intent :=
  map (fun j => if hasId (OfflineQueue.oi_id (fst p)) j then settled j (snd p) else j) q.

Definition expected (ps : list (Intent * OfflineQueue.Settled)) (j : Intent) : Intent :=
  match settlementOf (OfflineQueue.oi_id j) ps with
  | Some o => settled j o
  | None => j
  end.
End QueueVocabulary.

(** Scenario D: A, B, C queued while offline; the executor throws on B. *)
Definition intentNamed (id : string) : @OfflineQueue.OfflineIntent Executor.Args :=
  {| OfflineQueue.oi_id := id; OfflineQueue.oi_timestamp := 1000000;
     OfflineQueue.oi_functionName := id; OfflineQueue.oi_args := noArgs;
     OfflineQueue.oi_status := queued;
     OfflineQueue.oi_result := None; OfflineQueue.oi_error := None |}.

Definition failsOnB (functionName : string) (args : Executor.Args) (calls : nat)
  : OfflineQueue.Settled * nat :=
  (if String.eqb functionName "B" then OfflineQueue.RejectedError "boom"
   else OfflineQueue.Resolved "ok", S calls).

Definition emptyStorage : @OfflineQueue.Storage Executor.Args :=
  {| OfflineQueue.available := true; OfflineQueue.item := OfflineQueue.Absent;
     OfflineQueue.updates := [] |}.

Definition offlineABC : @OfflineQueue.Storage Executor.Args :=
  snd (OfflineQueue.enqueue "C" 1000000 "C" noArgs
         (snd (OfflineQueue.enqueue "B" 1000000 "B" noArgs
                 (snd (OfflineQueue.enqueue "A" 1000000 "A" noArgs emptyStorage))))).

(** The invariants of a yield opportunity. *)
Definition netOfBridge (o : YieldOpportunity) : Prop :=
  (yo_netApy o == yo_apy o - yo_bridgeCostPct o)%Q.

Definition nativeIsFree (o : YieldOpportunity) : Prop :=
  (yo_isNative o = true \/ yo_chain o = "Sui") -> (yo_bridgeCostPct o == 0)%Q.

(** What the merge keeps true of every element while it works; entries
    named NAVI are the ones the overlay rewrites. *)
Definition wellFormed (o : YieldOpportunity) : Prop :=
  netOfBridge o /\ nativeIsFree o /\
  (yo_protocol o = "NAVI" -> (yo_bridgeCostPct o == 0)%Q).

(** A scan where the three sources answer, NAVI with a fresher rate. *)
Definition liveWorld : World :=
  {| now := 1000000;
     coingecko := Fetched {| cg_sui := Some 2%Q; cg_ethereum := None; cg_bitcoin := None |};
     defillama :=
       Fetched (Some [ llamaPool "aave-v3" "Arbitrum" "USDC" 6 9000000;
                       llamaPool "navi-lending" "Sui" "SUI" 4 5000000;
                       llamaPool "unknown-farm" "Sui" "SUI" 90 5000000 ]);
     naviConfig :=
       Fetched [ {| np_supplyApy := 5; np_borrowApy := 7; np_tvlUsd := 5500000;
                    np_asset := "SUI" |};
                 {| np_supplyApy := 8; np_borrowApy := 9; np_tvlUsd := 2000000;
                    np_asset := "USDC" |} ];
     bluefinMarkets :=
       Fetched [ {| bm_symbol := "SUI-PERP"; bm_fundingRate := 1 # 10000;
                    bm_nextFundingTime := 1100000 |} ];
     agentWallet := None |}.

Definition liveScan : list YieldOpportunity :=
  match fst (YieldScanner.scanYields liveWorld initialHeap) with
  | Value l => l
  | Thrown _ => []
  end.

(** Every source is down, one minute after [thrash0] filled the caches. *)
Definition blackout : World :=
  {| now := 1060000;
     coingecko := FetchError "CoinGecko 429";
     defillama := llamaDown;
     naviConfig := FetchError "NAVI API 503";
     bluefinMarkets := FetchError "Bluefin API 503";
     agentWallet := None |}.

(** Invalid input of the executor entry point. *)
Definition rejection (name : Executor.FunctionName) : text :=
  match name with
  | Executor.depositToVault => [Lit "Please specify an amount to deposit."]
  | Executor.moveToArcVault => [Lit "Please specify an amount in USDC to deposit."]
  | Executor.withdrawFromArcVault => [Lit "Please specify an amount in USDC to withdraw."]
  | Executor.setRiskLevelFn =>
      [Lit "Risk level must be: conservative, moderate, or aggressive."]
  | _ => []
  end.

Definition invalidInput (name : Executor.FunctionName) (args : Executor.Args) : Prop :=
  match name with
  | Executor.depositToVault | Executor.moveToArcVault | Executor.withdrawFromArcVault =>
      exists x : Q, Executor.arg_amount args = Some x /\ (x <= 0)%Q
  | Executor.setRiskLevelFn =>
      exists s : string,
        Executor.arg_level args = Some s /\ s <> EmptyString /\
        s <> "conservative" /\ s <> "moderate" /\ s <> "aggressive"
  | _ => False
  end.

Definition withAmount (x : Q) (args : Executor.Args) : Executor.Args :=
  {| Executor.arg_amount := Some x;
     Executor.arg_protocol := Executor.arg_protocol args;
     Executor.arg_level := Executor.arg_level args;
     Executor.arg_reason := Executor.arg_reason args |}.

Definition extremeRisk : Executor.Args :=
  {| Executor.arg_amount := None; Executor.arg_protocol := None;
     Executor.arg_level := Some "extreme"; Executor.arg_reason := None |}.

Definition scallopMove (amount : Q) : Executor.Args :=
  {| Executor.arg_amount := Some amount; Executor.arg_protocol := Some "Scallop";
     Executor.arg_level := None; Executor.arg_reason := None |}.

Definition afterScallopMove (amount : Q) : Heap :=
  after (Executor.executeFunction Executor.moveToYield (scallopMove amount) voice)
        (calmWorld 1000000 2 twoPools) initialHeap.

(** ** Vocabulary of the further properties *)

(** The key of a position: one per protocol and chain. *)
Definition placeOf (p : YieldPosition) : string * string := (yp_protocol p, yp_chain p).

(** Descending order of the net yields. *)
Definition byNetApyDesc (a b : YieldOpportunity) : Prop := (yo_netApy b <= yo_netApy a)%Q.

(** The number of decisions recorded so far. *)
Definition recorded (h : Heap) : nat := decisionIdCounter (exec h).

Definition overweightPortfolio : PortfolioState :=
  {| pf_sui := {| h_balance := 4000000000; h_valueUsd := 8; h_percentage := 80 |};
     pf_arc := {| h_balance := 2000000; h_valueUsd := 2; h_percentage := 20 |};
     pf_totalValueUsd := 10 |}.

Definition liveBest : YieldScanResult :=
  match fst (YieldScanner.findBestYield conservative liveWorld initialHeap) with
  | Value r => r
  | Thrown _ =>
      {| sr_opportunities := []; sr_bestOpportunity := None; sr_currentAllocation := [];
         sr_recommendation := []; sr_timestamp := 0 |}
  end.


Definition navi12Position : YieldPosition :=
  {| yp_protocol := "NAVI"; yp_chain := "Sui"; yp_asset := "SUI"; yp_amount := 10;
     yp_amountUsd := 20; yp_apy := 12; yp_earnedUsd := 0; yp_depositedAt := 1120000 |}.

(** [m] leaves the part [f] of the heap as it found it, however it ends. *)
Definition Keeps {A X : Type} (f : Heap -> X) (m : Eff A) : Prop :=
  forall w h, f (snd (m w h)) = f h.

(** [f] does not look at the record of outside calls. *)
Definition OffTrace {X : Type} (f : Heap -> X) : Prop :=
  forall g h, f (withTrace g h) = f h.

(** [m] never throws. *)
Definition NeverThrows {A : Type} (m : Eff A) : Prop :=
  forall w h, exists a, fst (m w h) = Value a.

(** [m] records no more than [n] decisions, however it ends. *)
Definition RecordsAtMost {A : Type} (n : nat) (m : Eff A) : Prop :=
  forall w h, (recorded h <= recorded (snd (m w h)) <= recorded h + n)%nat.

(** The part of the executor state that the decision ledger owns. *)
Definition books (h : Heap)
  : list TreasuryDecision * TreasuryState * nat * RiskLevel :=
  (treasuryDecisions (exec h), treasuryState (exec h), decisionIdCounter (exec h),
   riskLevel (exec h)).

Definition positions (h : Heap) : list YieldPosition := currentPositions (scanner h).

Definition allocation (h : Heap) : Q * Q :=
  (allocationArcPct (treasuryState (exec h)), allocationSuiPct (treasuryState (exec h))).

(** The agent wallet is configured and rejects the write picked by [pick]. *)
Definition writeRejected (w : World) (pick : WalletClient -> fetched string) : bool :=
  match agentWallet w with
  | Some walletClient =>
      match pick walletClient with
      | Fetched _ => false
      | FetchError _ => true
      end
  | None => false
  end.

(** A world whose agent wallet rejects every write. *)
Definition emptyWallet : World :=
  {| now := 1000000;
     coingecko := Fetched {| cg_sui := Some 2%Q; cg_ethereum := None; cg_bitcoin := None |};
     defillama := llamaDown;
     naviConfig := FetchError "NAVI API 503";
     bluefinMarkets := FetchError "Bluefin API 503";
     agentWallet :=
       Some {| writeDeposit := FetchError "insufficient funds";
               writeWithdraw := FetchError "insufficient funds";
               writeLogDecision := FetchError "insufficient funds" |} |}.

Definition lastDecisionType (h : Heap) : option TreasuryDecisionType :=
  option_map td_type (lastDecision (treasuryState (exec h))).

Definition lastDecisionAmount (h : Heap) : option (option Q) :=
  option_map td_amount (lastDecision (treasuryState (exec h))).

(** The price cache answers at [w] without a request. *)
Definition priceCacheFresh (w : World) (h : Heap) : bool :=
  nonEmpty (cachedPrices (prices h))
  && (now w - lastPriceFetch (prices h) <? Prices.PRICE_CACHE_TTL).

(** Every cached funding rate has a non-negative annualized rate. *)
Definition nonNegativeFunding (h : Heap) : Prop :=
  Forall (fun r => (0 <= fr_annualizedRate r)%Q) (cachedFundingRates (bluefin h)).

(** The average that [assessTreasuryRisk] takes over the funding rates. *)
Definition averageFunding (rates : list BluefinFundingRate) : Q :=
  (sumQ (map fr_annualizedRate rates) / Js.ofZ (Z.of_nat (length rates)))%Q.

(** Every character of [s] is an ASCII character (code below 128). *)
Definition asciiOnly (s : string) : bool :=
  forallb (fun c => (nat_of_ascii c <? 128)%nat) (String.list_ascii_of_string s).

(** A second Scallop position, for a list that already tracks Scallop. *)
Definition scallop5Position : YieldPosition :=
  {| yp_protocol := "Scallop"; yp_chain := "Sui"; yp_asset := "SUI"; yp_amount := 25;
     yp_amountUsd := 50; yp_apy := 5; yp_earnedUsd := 0; yp_depositedAt := 1180000 |}.

(** A stored queue in which B was left [processing] by a run that was cut
    short, between A and C still queued. *)
Definition leftProcessing (id : string) : @OfflineQueue.OfflineIntent Executor.Args :=
  {| OfflineQueue.oi_id := id; OfflineQueue.oi_timestamp := 1000000;
     OfflineQueue.oi_functionName := id; OfflineQueue.oi_args := noArgs;
     OfflineQueue.oi_status := processing;
     OfflineQueue.oi_result := None; OfflineQueue.oi_error := None |}.

Definition interruptedQueue : list (@OfflineQueue.OfflineIntent Executor.Args) :=
  [intentNamed "A"; leftProcessing "B"; intentNamed "C"].

Definition interruptedStorage : @OfflineQueue.Storage Executor.Args :=
  {| OfflineQueue.available := true; OfflineQueue.item := OfflineQueue.Json interruptedQueue;
     OfflineQueue.updates := [] |}.

(** * Properties *)

(** ** The decision ledger *)

Lemma pushBounded_spec {A} (cap : nat) (x : A) (l : list A) :
  (0 < cap)%nat -> (length l <= cap)%nat ->
  pushBounded cap x l = (if (length l <? cap)%nat then l else tail l) ++ [x].
Proof.
  intros Hcap Hlen. unfold pushBounded. rewrite length_app. cbn [length].
  destruct (Nat.ltb_spec (length l) cap) as [Hlt | Hge].
  - destruct (Nat.ltb_spec cap (length l + 1)) as [H | H]; [lia | reflexivity].
  - destruct (Nat.ltb_spec cap (length l + 1)) as [H | H]; [| lia].
    destruct l as [| y l]; [cbn in *; lia | reflexivity].
Qed.

Lemma pushBounded_length {A} (cap : nat) (x : A) (l : list A) :
  (0 < cap)%nat -> (length l <= cap)%nat -> (length (pushBounded cap x l) <= cap)%nat.
Proof.
  intros Hcap Hlen. rewrite pushBounded_spec by assumption.
  rewrite length_app. cbn [length].
  destruct (Nat.ltb_spec (length l) cap) as [Hlt | Hge]; [lia |].
  destruct l as [| y l]; cbn in *; lia.
Qed.

Lemma recordCall_ledger (c : RecordCall) (h : Heap) :
  exists d,
    fst (recordCall c h) = Value d /\
    ledger (snd (recordCall c h)) = pushBounded 50 d (ledger h).
Proof. eexists. split; reflexivity. Qed.

Lemma recordAll_bounded (calls : list RecordCall) (h : Heap) :
  (length (ledger h) <= 50)%nat -> (length (ledger (recordAll calls h)) <= 50)%nat.
Proof.
  revert h. induction calls as [| c calls IH]; intros h Hlen; [exact Hlen |].
  cbn [recordAll fold_left]. apply IH.
  destruct (recordCall_ledger c h) as (d & _ & ->).
  apply pushBounded_length; [lia | exact Hlen].
Qed.

(** C7.  The decision ledger never holds more than 50 decisions: whatever
    sequence of decisions is recorded on a ledger within the bound, the
    bound still holds, and each further record appends the new decision at
    the end, dropping exactly the oldest entry once 50 are held. *)
Theorem ledger_capacity_fifo (calls : list RecordCall) (h : Heap) :
  (length (ledger h) <= 50)%nat ->
  (length (ledger (recordAll calls h)) <= 50)%nat /\
  forall c : RecordCall,
    let h' := recordAll calls h in
    exists d,
      fst (recordCall c h') = Value d /\
      ledger (snd (recordCall c h')) =
        (if (length (ledger h') <? 50)%nat then ledger h' else tail (ledger h')) ++ [d].
Proof.
  intros Hlen. split; [apply recordAll_bounded, Hlen |].
  intros c h'. destruct (recordCall_ledger c h') as (d & Hd & Hl).
  exists d. split; [exact Hd |]. rewrite Hl.
  apply pushBounded_spec; [lia | apply recordAll_bounded, Hlen].
Qed.

Lemma ledger_capacity_fifo_witness :
  (length (ledger initialHeap) <= 50)%nat /\
  (length (ledger (recordAll (replicate 60 routineCheck) initialHeap)) <= 50)%nat.
Proof.
  split; [cbn; lia |].
  apply (ledger_capacity_fifo (replicate 60 routineCheck) initialHeap). cbn. lia.
Defined.

(** ** Comparisons *)

Lemma ltb_lt (x y : Q) : Js.ltb x y = true <-> (x < y)%Q.
Proof.
  unfold Js.ltb. rewrite negb_true_iff. split.
  - intros H. apply Qnot_le_lt. intros Hle.
    apply Qle_bool_iff in Hle. congruence.
  - intros H. destruct (Qle_bool y x) eqn:E; [| reflexivity].
    apply Qle_bool_iff in E. exfalso. exact (Qlt_not_le _ _ H E).
Qed.

Lemma ltb_ge (x y : Q) : Js.ltb x y = false <-> (y <= x)%Q.
Proof.
  unfold Js.ltb. rewrite negb_false_iff. apply Qle_bool_iff.
Qed.

Lemma leb_le (x y : Q) : Js.leb x y = true <-> (x <= y)%Q.
Proof. apply Qle_bool_iff. Qed.

(** ** The rebalance policy *)

(** C8.  Crash safety comes first: whenever the first SUI quote is below
    0.5, [evaluateStrategy] returns a safety move of half the SUI balance
    towards Arc, whatever the yield opportunities, the portfolio drift and
    the previous decisions are. *)
Theorem crash_safety_first (now : Z) (decisionCounter : nat)
    (portfolio : PortfolioState) (prices : list PriceData)
    (previousDecisions : list AgentDecision)
    (yieldOpportunities : option (list YieldOpportunity)) (p : PriceData) :
  List.find Strategy.isSui prices = Some p ->
  (pd_price p < 1 # 2)%Q ->
  let d := fst (Strategy.evaluateStrategy now decisionCounter portfolio prices
                  previousDecisions yieldOpportunities) in
  ad_action d = SAFETY_MOVE /\
  ad_amountIn d = Z.quot (h_balance (pf_sui portfolio)) 2 /\
  ad_chain d = "sui→arc".
Proof.
  intros Hfind Hlow. unfold Strategy.evaluateStrategy. rewrite Hfind.
  apply ltb_lt in Hlow. rewrite Hlow. cbn. repeat split.
Qed.

Lemma crash_safety_first_witness :
  let d := fst (Strategy.evaluateStrategy 1060000 0 somePortfolio crashedPrices
                  [firstRebalance] (Some [navi12])) in
  ad_action d = SAFETY_MOVE /\
  ad_amountIn d = 3500000000 /\
  ad_chain d = "sui→arc".
Proof.
  apply (crash_safety_first 1060000 0 somePortfolio crashedPrices [firstRebalance]
           (Some [navi12]) (Prices.quote "SUI" (4 # 10) 0 "coingecko")).
  - reflexivity.
  - reflexivity.
Defined.

(** C3, as the code has it.  [evaluateStrategy] does not return a yield
    rebalance while the latest yield rebalance among the previous decisions
    is at most five loop intervals old, however good the best yield is. *)
Theorem hysteresis_in_evaluateStrategy (now : Z) (decisionCounter : nat)
    (portfolio : PortfolioState) (prices : list PriceData)
    (previousDecisions : list AgentDecision)
    (yieldOpportunities : option (list YieldOpportunity)) (cy : AgentDecision) :
  last (List.filter Strategy.isYieldRebalance previousDecisions) = Some cy ->
  now - ad_timestamp cy <= AGENT_CONFIG.LOOP_INTERVAL * 5 ->
  ad_action (fst (Strategy.evaluateStrategy now decisionCounter portfolio prices
                    previousDecisions yieldOpportunities)) <> YIELD_REBALANCE.
Proof.
  intros Hlast Hrecent.
  assert (Hno : (now - ad_timestamp cy >? AGENT_CONFIG.LOOP_INTERVAL * 5) = false).
  { rewrite Z.gtb_ltb. apply Z.ltb_ge. exact Hrecent. }
  unfold Strategy.evaluateStrategy. cbv zeta. rewrite Hlast, Hno.
  destruct (match List.find Strategy.isSui prices with
            | Some p => Js.ltb (pd_price p) (1 # 2)
            | None => false
            end); [cbn; discriminate |].
  destruct yieldOpportunities as [[| bestYield rest] |];
    repeat match goal with
           | |- context [if ?c then _ else _] => destruct c
           end;
    cbn; discriminate.
Qed.

Lemma hysteresis_in_evaluateStrategy_witness :
  ad_action (fst (Strategy.evaluateStrategy 1060000 1 somePortfolio calmPrices
                    [firstRebalance] (Some [navi12]))) <> YIELD_REBALANCE.
Proof.
  apply (hysteresis_in_evaluateStrategy 1060000 1 somePortfolio calmPrices
           [firstRebalance] (Some [navi12]) firstRebalance).
  - reflexivity.
  - vm_compute. discriminate.
Defined.

(** C3, counterexample.  The scheduler cycle does not consult
    [evaluateStrategy]: with a Scallop position opened first and NAVI
    paying 12%, two cycles one interval (60 s) apart both record a
    rebalance decision. *)
Lemma cycle_retriggers_rebalance :
  map td_type (ledger thrash0) = [] /\
  map td_type (ledger thrash1) = [rebalance] /\
  map td_type (ledger thrash2) = [rebalance; rebalance] /\
  map td_timestamp (ledger thrash2) = [1060000; 1120000] /\
  1120000 - 1060000 < 5 * AGENT_CONFIG.LOOP_INTERVAL.
Proof. vm_compute. repeat split. Qed.

(** ** The optimizer cycle *)

(** C1.  One cycle in which the recovery trigger fires: the redeploy from
    the vault is recorded and, as the recovery block does not return, the
    standard check of the same cycle records a rebalance as well. *)
Theorem cycle_recovery_records_two_decisions :
  map td_type (ledger recovery2) = [safety_deposit] /\
  map td_type (ledger recovery3) = [safety_deposit; auto_redeploy; rebalance] /\
  map td_timestamp (ledger recovery3) = [1000000; 1180000; 1180000].
Proof. vm_compute. repeat split. Qed.

(** ** The scheduler *)

(** C2, as the code has it.  The interval callback starts a cycle on every
    tick, whatever the number of cycles still in flight: no tick is
    skipped. *)
Theorem timer_launches_without_guard (l : Scheduler.Loop) :
  Scheduler.timer l = true ->
  Scheduler.inFlight (Scheduler.step l Scheduler.TimerFires)
    = S (Scheduler.inFlight l) /\
  Scheduler.launched (Scheduler.step l Scheduler.TimerFires)
    = S (Scheduler.launched l).
Proof. intros Htimer. cbn. rewrite Htimer. split; reflexivity. Qed.

Lemma timer_launches_without_guard_witness :
  Scheduler.inFlight
    (Scheduler.step (Scheduler.run [Scheduler.StartAutoYield] Scheduler.initial)
       Scheduler.TimerFires) = 2%nat /\
  Scheduler.launched
    (Scheduler.step (Scheduler.run [Scheduler.StartAutoYield] Scheduler.initial)
       Scheduler.TimerFires) = 2%nat.
Proof.
  apply (timer_launches_without_guard
           (Scheduler.run [Scheduler.StartAutoYield] Scheduler.initial)).
  reflexivity.
Defined.

(** C2, counterexample.  Started, then one tick before the first cycle
    settles: two cycles are in flight while the scheduler is running. *)
Lemma cycles_can_overlap :
  ~ (forall evs : list Scheduler.LoopEvent,
       Scheduler.running (Scheduler.run evs Scheduler.initial) = true ->
       (Scheduler.inFlight (Scheduler.run evs Scheduler.initial) <= 1)%nat).
Proof.
  intros H.
  specialize (H [Scheduler.StartAutoYield; Scheduler.TimerFires] eq_refl).
  cbn in H. lia.
Qed.

(** ** The risk score *)

Ltac by_cases_on_comparisons :=
  repeat match goal with
         | |- context [Js.ltb ?a ?b] =>
             let E := fresh "E" in
             destruct (Js.ltb a b) eqn:E;
             [apply ltb_lt in E | apply ltb_ge in E]
         | H : context [Js.ltb ?a ?b] |- _ =>
             let E := fresh "E" in
             destruct (Js.ltb a b) eqn:E;
             [apply ltb_lt in E | apply ltb_ge in E]
         end.

Lemma priceRisk_spec (pct : Q) :
  (Executor.priceRisk pct == SpecRisk.priceDropComponent pct)%Q.
Proof.
  unfold Executor.priceRisk, SpecRisk.priceDropComponent, SpecRisk.clamp,
    Js.min, Js.max, Js.abs.
  destruct (Js.ltb pct 0) eqn:Hneg;
    [apply ltb_lt in Hneg | apply ltb_ge in Hneg].
  - assert (Habs : (Qabs pct == - pct)%Q) by (apply Qabs_neg; lra).
    by_cases_on_comparisons; lra.
  - change (Qabs 0) with 0%Q. by_cases_on_comparisons; lra.
Qed.

Lemma fundingRisk_spec (avg : Q) :
  (Executor.fundingRisk avg == SpecRisk.fundingComponent avg)%Q.
Proof.
  unfold Executor.fundingRisk, SpecRisk.fundingComponent, SpecRisk.clamp,
    Js.min, Js.max.
  by_cases_on_comparisons; lra.
Qed.

Lemma yieldRisk_spec (best : Q) :
  (Executor.yieldRisk best == SpecRisk.yieldComponent best)%Q.
Proof.
  unfold Executor.yieldRisk, SpecRisk.yieldComponent, SpecRisk.clamp,
    Js.min, Js.max.
  by_cases_on_comparisons; lra.
Qed.

Lemma recommend_band (score : Z) :
  recommendationTriple (Executor.recommend score) = SpecRisk.split (SpecRisk.band score).
Proof.
  unfold Executor.recommend, SpecRisk.band, TREASURY_CONFIG.HIGH_RISK_THRESHOLD,
    TREASURY_CONFIG.MEDIUM_RISK_THRESHOLD.
  rewrite !Z.geb_leb.
  destruct (65 <=? score); [reflexivity |].
  destruct (35 <=? score); reflexivity.
Qed.

(** C4.  The funding component as the code computes it.  With the SUI
    perpetual at a funding rate of -0.01% per 8 hours (-10.95% a year,
    shorts pay longs), a steady price and a best net yield of 2%, the
    specified formula gives a funding component of 71.9 and the score 40,
    MEDIUM.  The assessment records 26, LOW, calls the funding bullish and
    raises no trigger: the rates it averages have lost their sign, so that
    a rate of +0.01% records the same 26 and no funding at all records
    33. *)
Theorem negative_funding_lowers_risk :
  (annualized (-1 # 10000) == - (1095 # 100))%Q /\
  (SpecRisk.fundingComponent (annualized (-1 # 10000)) == 719 # 10)%Q /\
  SpecRisk.risk (SpecRisk.priceDropComponent 0)
    (SpecRisk.fundingComponent (annualized (-1 # 10000)))
    (SpecRisk.yieldComponent 2) = 40 /\
  SpecRisk.band 40 = SpecRisk.MEDIUM /\
  map fr_fundingRate (cachedFundingRates (bluefin (assessedAt (-1 # 10000))))
    = [(-1 # 10000)%Q] /\
  lastAction (assessedAt (-1 # 10000))
    = Some [Lit "Risk assessment: "; Lit "LOW"; Lit " ("; ShowZ 26; Lit "/100)"] /\
  In (Lit "bullish") (lastReasoning (assessedAt (-1 # 10000))) /\
  lastTrigger (assessedAt (-1 # 10000)) = Some [Lit "Routine check"] /\
  lastAction (assessedAt (1 # 10000))
    = Some [Lit "Risk assessment: "; Lit "LOW"; Lit " ("; ShowZ 26; Lit "/100)"] /\
  lastAction (assessedAt 0)
    = Some [Lit "Risk assessment: "; Lit "LOW"; Lit " ("; ShowZ 33; Lit "/100)"].
Proof.
  split; [reflexivity |]. split; [reflexivity |].
  vm_compute. repeat split. do 6 right. left. reflexivity.
Qed.

(** ** The offline queue *)

Section QueueProofs.
Context {JsArgs ExecutorState : Type}.
Variable executor :
  string -> JsArgs -> ExecutorState -> OfflineQueue.Settled * ExecutorState.

Abbreviation Intent := (@OfflineQueue.OfflineIntent JsArgs).
Abbreviation Storage := (@OfflineQueue.Storage JsArgs).

Lemma writeById_ids id u (q : list Intent) :
  map OfflineQueue.oi_id (writeById id u q) = map OfflineQueue.oi_id q.
Proof.
  unfold writeById. rewrite map_map. apply map_ext.
  intros j. destruct (hasId id j); reflexivity.
Qed.

Lemma writeById_absent id u (q : list Intent) :
  ~ In id (map OfflineQueue.oi_id q) -> writeById id u q = q.
Proof.
  induction q as [| j q IH]; intros Hnot; [reflexivity |].
  cbn in *. unfold hasId at 1.
  destruct (String.eqb_spec (OfflineQueue.oi_id j) id) as [E | E].
  - exfalso. apply Hnot. left. exact E.
  - f_equal. apply IH. intros H. apply Hnot. right. exact H.
Qed.

Lemma alter_first_is_write id u (q : list Intent) :
  List.NoDup (map OfflineQueue.oi_id q) ->
  match findIndex (hasId id) q with
  | Some idx => alter (OfflineQueue.apply u) idx q
  | None => q
  end = writeById id u q.
Proof.
  induction q as [| j q IH]; intros Hnd; [reflexivity |].
  cbn [map] in Hnd. apply List.NoDup_cons_iff in Hnd. destruct Hnd as [Hj Hnd].
  cbn [findIndex writeById map].
  destruct (hasId id j) eqn:E.
  - cbn. f_equal. symmetry. apply writeById_absent.
    unfold hasId in E. apply String.eqb_eq in E. subst id. exact Hj.
  - specialize (IH Hnd).
    destruct (findIndex (hasId id) q) as [idx |]; cbn; f_equal; exact IH.
Qed.

Lemma updateIntent_write id u (q : list Intent) ups :
  List.NoDup (map OfflineQueue.oi_id q) ->
  OfflineQueue.updateIntent id u
    {| OfflineQueue.available := true; OfflineQueue.item := OfflineQueue.Json q;
       OfflineQueue.updates := ups |}
  = {| OfflineQueue.available := true;
       OfflineQueue.item := OfflineQueue.Json (writeById id u q);
       OfflineQueue.updates := ups ++ [(id, OfflineQueue.u_status u)] |}.
Proof.
  intros Hnd. unfold OfflineQueue.updateIntent. cbn.
  pose proof (alter_first_is_write id u q Hnd) as H. unfold hasId in H.
  destruct (findIndex _ q) as [idx |] eqn:E.
  - unfold OfflineQueue.saveQueue. cbn. rewrite H. reflexivity.
  - rewrite <- H. reflexivity.
Qed.

Lemma settleIn_ids (q : list Intent) (p : Intent * OfflineQueue.Settled) :
  map OfflineQueue.oi_id (settleIn q p) = map OfflineQueue.oi_id q.
Proof.
  unfold settleIn. rewrite map_map. apply map_ext.
  intros j. destruct (hasId _ j); reflexivity.
Qed.

Lemma two_writes (i : Intent) (o : OfflineQueue.Settled) (q : list Intent) ups :
  List.NoDup (map OfflineQueue.oi_id q) ->
  OfflineQueue.settle i o
    (OfflineQueue.updateIntent (OfflineQueue.oi_id i)
       {| OfflineQueue.u_status := processing; OfflineQueue.u_result := None;
          OfflineQueue.u_error := None |}
       {| OfflineQueue.available := true; OfflineQueue.item := OfflineQueue.Json q;
          OfflineQueue.updates := ups |})
  = {| OfflineQueue.available := true;
       OfflineQueue.item := OfflineQueue.Json (settleIn q (i, o));
       OfflineQueue.updates := ups ++ transitions (i, o) |}.
Proof.
  intros Hnd. rewrite updateIntent_write by exact Hnd.
  assert (Hnd' : List.NoDup (map OfflineQueue.oi_id
                   (writeById (OfflineQueue.oi_id i)
                      {| OfflineQueue.u_status := processing;
                         OfflineQueue.u_result := None;
                         OfflineQueue.u_error := None |} q)))
    by (rewrite writeById_ids; exact Hnd).
  unfold OfflineQueue.settle.
  destruct o; rewrite updateIntent_write by exact Hnd';
    unfold transitions; cbn [fst snd OfflineQueue.u_status OfflineQueue.finalStatus];
    rewrite <- app_assoc; cbn [app]; f_equal; f_equal;
    unfold writeById, settleIn; rewrite map_map; apply map_ext; intros j;
    cbn [fst snd]; unfold hasId; cbn;
    destruct (String.eqb (OfflineQueue.oi_id j) (OfflineQueue.oi_id i)) eqn:E;
    cbn; rewrite ?E; reflexivity.
Qed.

Lemma drain_spec (pending : list Intent) :
  forall (results : list OfflineQueue.Result) (q : list Intent) ups s,
    List.NoDup (map OfflineQueue.oi_id q) ->
    let outs := OfflineQueue.settlements executor pending s in
    let '(results', st', _) :=
      OfflineQueue.drain executor pending results
        {| OfflineQueue.available := true; OfflineQueue.item := OfflineQueue.Json q;
           OfflineQueue.updates := ups |} s in
    results' = results ++ zip_with OfflineQueue.resultOf pending outs /\
    st' = {| OfflineQueue.available := true;
             OfflineQueue.item := OfflineQueue.Json (fold_left settleIn (zip pending outs) q);
             OfflineQueue.updates := ups ++ concat (map transitions (zip pending outs)) |}.
Proof.
  induction pending as [| i pending IH]; intros results q ups s Hnd.
  - cbn. rewrite !app_nil_r. split; reflexivity.
  - cbn [OfflineQueue.drain OfflineQueue.settlements].
    destruct (executor (OfflineQueue.oi_functionName i) (OfflineQueue.oi_args i) s)
      as [o s1].
    rewrite two_writes by exact Hnd.
    specialize (IH (results ++ [OfflineQueue.resultOf i o]) (settleIn q (i, o))
                  (ups ++ transitions (i, o)) s1).
    rewrite settleIn_ids in IH. specialize (IH Hnd). cbv zeta in IH.
    destruct (OfflineQueue.drain executor pending _ _ s1) as [[results' st'] s'].
    destruct IH as [-> ->]. cbn [zip_with zip map concat fold_left].
    rewrite <- !app_assoc. split; reflexivity.
Qed.


Lemma settlementOf_absent id (ps : list (Intent * OfflineQueue.Settled)) :
  ~ In id (map (fun p => OfflineQueue.oi_id (fst p)) ps) -> settlementOf id ps = None.
Proof.
  induction ps as [| [i o] ps IH]; intros Hnot; [reflexivity |].
  cbn in *. destruct (String.eqb_spec (OfflineQueue.oi_id i) id) as [E | E].
  - exfalso. apply Hnot. left. exact E.
  - apply IH. intros H. apply Hnot. right. exact H.
Qed.

Lemma fold_settleIn (ps : list (Intent * OfflineQueue.Settled)) :
  forall q : list Intent,
    List.NoDup (map (fun p => OfflineQueue.oi_id (fst p)) ps) ->
    fold_left settleIn ps q = map (expected ps) q.
Proof.
  induction ps as [| [i o] ps IH]; intros q Hnd.
  - cbn. unfold expected. cbn. symmetry. apply map_id.
  - cbn [map fst] in Hnd. apply List.NoDup_cons_iff in Hnd. destruct Hnd as [Hi Hnd].
    cbn [fold_left]. rewrite IH by exact Hnd.
    unfold settleIn. rewrite map_map. apply map_ext. intros j.
    cbn [fst snd]. unfold hasId, expected. cbn [settlementOf].
    rewrite (String.eqb_sym (OfflineQueue.oi_id i) (OfflineQueue.oi_id j)).
    destruct (String.eqb_spec (OfflineQueue.oi_id j) (OfflineQueue.oi_id i)) as [E | E].
    + cbn [settled OfflineQueue.oi_id]. rewrite E.
      rewrite settlementOf_absent by exact Hi. reflexivity.
    + reflexivity.
Qed.

Lemma settlements_length (pending : list Intent) :
  forall s, length (OfflineQueue.settlements executor pending s) = length pending.
Proof.
  induction pending as [| i pending IH]; intros s; [reflexivity |].
  cbn. destruct (executor _ _ s) as [o s']. cbn. f_equal. apply IH.
Qed.

Lemma zip_ids (pending : list Intent) (outs : list OfflineQueue.Settled) :
  length outs = length pending ->
  map (fun p => OfflineQueue.oi_id (fst p)) (zip pending outs)
  = map OfflineQueue.oi_id pending.
Proof.
  revert outs. induction pending as [| i pending IH]; intros [| o outs] Hlen;
    cbn in *; try reflexivity; try discriminate.
  f_equal. apply IH. lia.
Qed.


Lemma filter_ids_NoDup (p : Intent -> bool) (q : list Intent) :
  List.NoDup (map OfflineQueue.oi_id q) ->
  List.NoDup (map OfflineQueue.oi_id (List.filter p q)).
Proof.
  induction q as [| j q IH]; intros Hnd; [constructor |].
  cbn [map] in Hnd. apply List.NoDup_cons_iff in Hnd. destruct Hnd as [Hj Hnd].
  cbn [List.filter]. destruct (p j); [| apply IH, Hnd].
  cbn [map]. constructor; [| apply IH, Hnd].
  intros Hin. apply Hj. apply List.in_map_iff in Hin.
  destruct Hin as (k & Hk & Hin). apply List.filter_In in Hin.
  apply List.in_map_iff. exists k. tauto.
Qed.


End QueueProofs.


(** ** The yield scan *)

Lemma findIndex_Some {A} (p : A -> bool) (l : list A) (i : nat) :
  findIndex p l = Some i -> exists x, l !! i = Some x /\ p x = true.
Proof.
  revert i. induction l as [| y l IH]; intros i H; [discriminate |].
  cbn in H. destruct (p y) eqn:E.
  - injection H as <-. exists y. split; [reflexivity | exact E].
  - destruct (findIndex p l) as [k |]; [| discriminate].
    injection H as <-. destruct (IH k eq_refl) as (x & Hx & Hp).
    exists x. split; assumption.
Qed.

Lemma insertDesc_Forall {A} (key : A -> Q) (P : A -> Prop) (x : A) (l : list A) :
  P x -> Forall P l -> Forall P (insertDesc key x l).
Proof.
  intros Hx Hl. induction Hl as [| y l Hy Hl IH]; cbn.
  - constructor; [exact Hx | constructor].
  - destruct (Js.ltb (key x) (key y)); repeat constructor; assumption.
Qed.

Lemma sortDesc_Forall {A} (key : A -> Q) (P : A -> Prop) (l : list A) :
  Forall P l -> Forall P (sortDesc key l).
Proof.
  intros Hl. induction Hl as [| y l Hy Hl IH]; cbn; [constructor |].
  apply insertDesc_Forall; assumption.
Qed.

Lemma poolToOpportunity_wellFormed (now : Z) (pools : list DefiLlamaPool)
    (pool : DefiLlamaPool) :
  In pool (YieldScanner.filterRelevantPools pools) ->
  wellFormed (YieldScanner.poolToOpportunity now pool).
Proof.
  intros Hin. apply List.filter_In in Hin. destruct Hin as [_ Hrel].
  split; [| split].
  - unfold netOfBridge. cbn. reflexivity.
  - unfold nativeIsFree. cbn. intros [Hn | Hc].
    + rewrite Hn. reflexivity.
    + rewrite Hc. reflexivity.
  - apply List.existsb_exists in Hrel. destruct Hrel as (p & Hp & Hcond).
    apply andb_prop in Hcond. destruct Hcond as [Hcond _].
    apply andb_prop in Hcond. destruct Hcond as [Hcond _].
    apply andb_prop in Hcond. destruct Hcond as [Hproj Hchain].
    apply String.eqb_eq in Hproj, Hchain.
    unfold YieldScanner.poolToOpportunity. cbn [yo_protocol yo_bridgeCostPct].
    rewrite Hproj, Hchain.
    cbn in Hp. destruct Hp as [<- | [<- | [<- | [<- | []]]]]; cbn;
      intros Hname; first [discriminate Hname | reflexivity].
Qed.

Lemma refresh_wellFormed (naviPool : NaviPoolData) (o : YieldOpportunity) :
  yo_protocol o = "NAVI" -> wellFormed o ->
  wellFormed (YieldScanner.refresh naviPool o).
Proof.
  intros Hname (Hnet & Hfree & Hnavi). specialize (Hnavi Hname).
  split; [| split].
  - unfold netOfBridge in *. cbn. rewrite Hnavi. ring.
  - exact Hfree.
  - intros _. exact Hnavi.
Qed.

Lemma naviDirect_wellFormed (now : Z) (naviPool : NaviPoolData) :
  wellFormed (YieldScanner.naviDirect now naviPool).
Proof.
  split; [| split].
  - unfold netOfBridge. cbn. ring.
  - intros _. reflexivity.
  - intros _. reflexivity.
Qed.

Lemma fundingOpportunity_wellFormed (now : Z) (bf : Bluefin.FundingYield) :
  wellFormed (YieldScanner.fundingOpportunity now bf).
Proof.
  split; [| split].
  - unfold netOfBridge. cbn. ring.
  - intros _. reflexivity.
  - intros _. reflexivity.
Qed.

Lemma overlayNavi_wellFormed (now : Z) (opportunities : list YieldOpportunity)
    (naviPool : NaviPoolData) :
  Forall wellFormed opportunities ->
  Forall wellFormed (YieldScanner.overlayNavi now opportunities naviPool).
Proof.
  intros Hall. unfold YieldScanner.overlayNavi.
  destruct (Js.leb (np_supplyApy naviPool) 0); [exact Hall |].
  destruct (findIndex _ opportunities) as [i |] eqn:Hfound.
  - apply Forall_alter; [exact Hall |].
    intros x Hx Hwf. apply findIndex_Some in Hfound.
    destruct Hfound as (y & Hy & Hp). rewrite Hx in Hy. injection Hy as <-.
    apply andb_prop in Hp. destruct Hp as [Hname _]. apply String.eqb_eq in Hname.
    apply refresh_wellFormed; assumption.
  - destruct (existsb _ _); [| exact Hall].
    apply Forall_app. split; [exact Hall |].
    constructor; [apply naviDirect_wellFormed | constructor].
Qed.

Lemma mergeSources_wellFormed (now : Z) (llamaPools : list DefiLlamaPool)
    (naviPools : list NaviPoolData) (bluefinYields : list Bluefin.FundingYield) :
  Forall wellFormed (YieldScanner.mergeSources now llamaPools naviPools bluefinYields).
Proof.
  unfold YieldScanner.mergeSources. apply sortDesc_Forall.
  apply Forall_app. split.
  - assert (Hstart : Forall wellFormed
              (map (YieldScanner.poolToOpportunity now)
                 (YieldScanner.filterRelevantPools llamaPools))).
    { apply List.Forall_forall. intros o Ho. apply List.in_map_iff in Ho.
      destruct Ho as (pool & <- & Hpool).
      apply (poolToOpportunity_wellFormed now llamaPools pool Hpool). }
    revert Hstart.
    generalize (map (YieldScanner.poolToOpportunity now)
                  (YieldScanner.filterRelevantPools llamaPools)).
    induction naviPools as [| naviPool naviPools IH]; intros opportunities Hall;
      [exact Hall |].
    cbn [fold_left]. apply IH. apply overlayNavi_wellFormed, Hall.
  - apply List.Forall_forall. intros o Ho. apply List.in_map_iff in Ho.
    destruct Ho as (bf & <- & _). apply fundingOpportunity_wellFormed.
Qed.

(** C9.  Every opportunity a yield scan returns has
    [netApy = apy - bridgeCostPct], and every native one (flagged native or
    on Sui, so also those of the NAVI feed and of the funding rates) has a
    bridge cost of 0. *)
Theorem scanYields_net_of_bridge (w : World) (h : Heap)
    (opportunities : list YieldOpportunity) :
  fst (YieldScanner.scanYields w h) = Value opportunities ->
  Forall (fun o => netOfBridge o /\ nativeIsFree o) opportunities.
Proof.
  unfold YieldScanner.scanYields, bind. intros Hscan.
  destruct (promiseAll3 _ _ _ w h) as [[[[llamaPools naviPools] bluefinYields] | e] h'];
    [| discriminate Hscan].
  cbn in Hscan. injection Hscan as <-.
  eapply Forall_impl; [apply mergeSources_wellFormed |].
  intros o (Hnet & Hfree & _). split; assumption.
Qed.

Lemma scanYields_net_of_bridge_witness :
  fst (YieldScanner.scanYields liveWorld initialHeap) = Value liveScan /\
  map yo_protocol liveScan = ["Bluefin"; "NAVI"; "Aave V3"; "NAVI"] /\
  Forall (fun o => netOfBridge o /\ nativeIsFree o) liveScan.
Proof.
  split; [vm_compute; reflexivity |].
  split; [vm_compute; reflexivity |].
  apply (scanYields_net_of_bridge liveWorld initialHeap liveScan).
  vm_compute. reflexivity.
Defined.

(** ** The signal feeds *)

(** The price, NAVI and funding feeds catch every failure of their
    source. *)
Lemma guarded_feeds_never_throw (w : World) (h : Heap) :
  (exists v, fst (Prices.fetchPrices w h) = Value v) /\
  (exists v, fst (YieldScanner.fetchNaviPoolData w h) = Value v) /\
  (exists v, fst (Bluefin.fetchFundingRates w h) = Value v).
Proof.
  split; [| split].
  - unfold Prices.fetchPrices, bind, catch, fetchJson, emit, modify, dateNow, getHeap, ret.
    cbn. destruct (_ && _); [eexists; reflexivity |].
    destruct (coingecko w); cbn; [eexists; reflexivity |].
    destruct (nonEmpty _); eexists; reflexivity.
  - unfold YieldScanner.fetchNaviPoolData, bind, catch, fetchJson, emit, modify,
      dateNow, getHeap, ret.
    cbn. destruct (_ && _); [eexists; reflexivity |].
    destruct (naviConfig w); cbn; eexists; reflexivity.
  - unfold Bluefin.fetchFundingRates, Bluefin.fetchMarketData, bind, catch, fetchJson,
      emit, modify, dateNow, getHeap, ret.
    cbn. destruct (_ && _); [eexists; reflexivity |].
    destruct (_ && _); [cbn; eexists; reflexivity |].
    destruct (bluefinMarkets w); cbn; eexists; reflexivity.
Qed.

(** C5.  With every source down and all caches filled one minute before,
    the price feed serves its stale quotes, but [fetchDefiLlamaPools]
    throws although it holds cached pools, and the scan fails with it. *)
Theorem pool_list_failure_propagates :
  nonEmpty (cachedPools (scanner thrash0)) = true /\
  fst (YieldScanner.fetchDefiLlamaPools blackout thrash0)
    = Thrown "DeFi Llama API error: 503" /\
  fst (YieldScanner.scanYields blackout thrash0)
    = Thrown "DeFi Llama API error: 503" /\
  fst (Prices.fetchPrices blackout thrash0) = Value (cachedPrices (prices thrash0)) /\
  nonEmpty (cachedPrices (prices thrash0)) = true.
Proof. vm_compute. repeat split. Qed.

(** ** The executor entry point *)

Lemma orNum_nonPositive (x : Q) : (x <= 0)%Q -> Js.leb (Js.orNum (Some x) 0) 0 = true.
Proof.
  intros Hx. unfold Js.orNum. destruct (Js.truthy x).
  - apply leb_le, Hx.
  - reflexivity.
Qed.

Lemma parseRiskLevel_unknown (s : string) :
  s <> EmptyString -> s <> "conservative" -> s <> "moderate" -> s <> "aggressive" ->
  Executor.parseRiskLevel (Js.orStr (Some s) "moderate") = None.
Proof.
  intros H0 H1 H2 H3.
  assert (Hs : Js.orStr (Some s) "moderate" = s) by (destruct s; [congruence | reflexivity]).
  rewrite Hs. unfold Executor.parseRiskLevel.
  apply String.eqb_neq in H1, H2, H3. rewrite H1, H2, H3. reflexivity.
Qed.

(** C10, as the code has it.  A vault deposit, a deposit into or a
    withdrawal from the Arc vault with an amount that is not positive, and
    a risk level that is none of the three names, are answered by the
    rejection message after the entry log line alone: treasury state,
    positions, ledger and risk level are unchanged and nothing leaves the
    process.  A yield move has no such check: an amount of 0 stands for
    the default of 100. *)
Theorem invalid_input_rejected (name : Executor.FunctionName) (args : Executor.Args)
    (context : Executor.Context) (w : World) (h : Heap) :
  invalidInput name args ->
  let h' := snd (Executor.executeFunction name args context w h) in
  fst (Executor.executeFunction name args context w h) = Value (rejection name) /\
  treasuryState (exec h') = treasuryState (exec h) /\
  currentPositions (scanner h') = currentPositions (scanner h) /\
  ledger h' = ledger h /\
  riskLevel (exec h') = riskLevel (exec h) /\
  trace h' = trace h /\
  Executor.executeFunction Executor.moveToYield (withAmount 0 args) context w h
    = Executor.executeFunction Executor.moveToYield (withAmount 100 args) context w h.
Proof.
  intros Hbad.
  assert (Hdefault :
    Executor.executeFunction Executor.moveToYield (withAmount 0 args) context w h
    = Executor.executeFunction Executor.moveToYield (withAmount 100 args) context w h)
    by reflexivity.
  destruct name; cbn in Hbad; try contradiction.
  - destruct Hbad as (x & Hx & Hle).
    unfold Executor.executeFunction, Executor.caseDepositToVault, bind.
    cbn [Executor.log dateNow modify bind]. rewrite Hx, (orNum_nonPositive x Hle).
    cbn. repeat split; exact Hdefault.
  - destruct Hbad as (s & Hs & H0 & H1 & H2 & H3).
    unfold Executor.executeFunction, Executor.caseSetRiskLevel, bind.
    cbn [Executor.log dateNow modify bind].
    rewrite Hs, (parseRiskLevel_unknown s H0 H1 H2 H3).
    cbn. repeat split; exact Hdefault.
  - destruct Hbad as (x & Hx & Hle).
    unfold Executor.executeFunction, Executor.caseMoveToArcVault, bind.
    cbn [Executor.log dateNow modify bind]. rewrite Hx, (orNum_nonPositive x Hle).
    cbn. repeat split; exact Hdefault.
  - destruct Hbad as (x & Hx & Hle).
    unfold Executor.executeFunction, Executor.caseWithdrawFromArcVault, bind.
    cbn [Executor.log dateNow modify bind]. rewrite Hx, (orNum_nonPositive x Hle).
    cbn. repeat split; exact Hdefault.
Qed.

Lemma invalid_input_rejected_witness :
  invalidInput Executor.setRiskLevelFn extremeRisk /\
  invalidInput Executor.moveToArcVault (withAmount (-5) noArgs) /\
  fst (Executor.executeFunction Executor.setRiskLevelFn extremeRisk voice
         (calmWorld 1000000 2 twoPools) initialHeap)
    = Value (rejection Executor.setRiskLevelFn) /\
  fst (Executor.executeFunction Executor.moveToArcVault (withAmount (-5) noArgs) voice
         (calmWorld 1000000 2 twoPools) initialHeap)
    = Value (rejection Executor.moveToArcVault).
Proof.
  assert (Hlevel : invalidInput Executor.setRiskLevelFn extremeRisk).
  { exists "extreme". repeat split; discriminate. }
  assert (Hamount : invalidInput Executor.moveToArcVault (withAmount (-5) noArgs)).
  { exists (-5)%Q. split; [reflexivity | discriminate]. }
  split; [exact Hlevel |]. split; [exact Hamount |]. split.
  - exact (proj1 (invalid_input_rejected Executor.setRiskLevelFn extremeRisk voice
                    (calmWorld 1000000 2 twoPools) initialHeap Hlevel)).
  - exact (proj1 (invalid_input_rejected Executor.moveToArcVault (withAmount (-5) noArgs)
                    voice (calmWorld 1000000 2 twoPools) initialHeap Hamount)).
Defined.

(** C10, counterexample.  A yield move to Scallop with the amount 0 is not
    rejected: the amount becomes 100, a deposit transaction is built and a
    position of 100 SUI is recorded. *)
Lemma yield_move_accepts_non_positive_amount :
  currentPositions (scanner initialHeap) = [] /\
  trace initialHeap = [] /\
  map yp_amount (currentPositions (scanner (afterScallopMove 0))) = [100%Q] /\
  map yp_protocol (currentPositions (scanner (afterScallopMove 0))) = ["Scallop"] /\
  last (trace (afterScallopMove 0)) = Some (EvBuildTx (TxScallopDeposit 100000000000)).
Proof. vm_compute. repeat split. Qed.

(** * Further properties of the code *)

(** ** Risk score *)

Lemma priceRisk_range (pct : Q) : (0 <= Executor.priceRisk pct <= 100)%Q.
Proof.
  unfold Executor.priceRisk, Js.min, Js.max. by_cases_on_comparisons; lra.
Qed.

Lemma fundingRisk_range (avg : Q) : (0 <= Executor.fundingRisk avg <= 100)%Q.
Proof.
  unfold Executor.fundingRisk, Js.min, Js.max. by_cases_on_comparisons; lra.
Qed.

Lemma yieldRisk_range (best : Q) : (0 <= Executor.yieldRisk best <= 100)%Q.
Proof.
  unfold Executor.yieldRisk, Js.min, Js.max. by_cases_on_comparisons; lra.
Qed.

(** X1.  Whatever the three signals are, each risk component lies between
    0 and 100 and so does the rounded score. *)
Theorem riskScore_range (priceChange24h avgFundingAnnualized bestYieldApy : Q) :
  (0 <= Executor.priceRisk priceChange24h <= 100)%Q /\
  (0 <= Executor.fundingRisk avgFundingAnnualized <= 100)%Q /\
  (0 <= Executor.yieldRisk bestYieldApy <= 100)%Q /\
  0 <= Executor.riskScoreOf priceChange24h avgFundingAnnualized bestYieldApy <= 100.
Proof.
  pose proof (priceRisk_range priceChange24h) as Hp.
  pose proof (fundingRisk_range avgFundingAnnualized) as Hf.
  pose proof (yieldRisk_range bestYieldApy) as Hy.
  repeat split; try tauto.
  - unfold Executor.riskScoreOf, Js.round.
    change 0 with (Qfloor 0). apply Qfloor_resp_le. lra.
  - unfold Executor.riskScoreOf, Js.round.
    change 100 with (Qfloor (201 # 2)). apply Qfloor_resp_le. lra.
Qed.

(** X2.  Only a price drop counts: the price component is 0 for every
    non-negative change, and a deeper drop never gives a smaller
    component. *)
Theorem priceRisk_monotone (a b : Q) :
  (a <= b)%Q ->
  (Executor.priceRisk b <= Executor.priceRisk a)%Q /\
  ((0 <= b)%Q -> (Executor.priceRisk b == 0)%Q).
Proof.
  intros Hab. rewrite !priceRisk_spec.
  unfold SpecRisk.priceDropComponent, SpecRisk.clamp, Js.max.
  split; [| intros Hb]; by_cases_on_comparisons; lra.
Qed.

Lemma priceRisk_monotone_witness :
  (-10 <= -4)%Q /\ (Executor.priceRisk (-4) <= Executor.priceRisk (-10))%Q /\
  (0 <= 3)%Q /\ (Executor.priceRisk 3 == 0)%Q.
Proof.
  assert (H1 : (-10 <= -4)%Q) by discriminate.
  assert (H2 : (1 <= 3)%Q) by discriminate.
  assert (H3 : (0 <= 3)%Q) by discriminate.
  split; [exact H1 |]. split; [exact (proj1 (priceRisk_monotone (-10) (-4) H1)) |].
  split; [exact H3 |]. exact (proj2 (priceRisk_monotone 1 3 H2) H3).
Defined.

(** ** Swap estimate *)

(** X3.  For a non-negative amount and price the slippage floor of a swap
    is never negative and never above the estimate. *)
Theorem estimateSwapOutput_floor (amountMist : Z) (suiPriceUsd : Q) :
  0 <= amountMist -> (0 <= suiPriceUsd)%Q ->
  0 <= snd (Protocols.estimateSwapOutput amountMist suiPriceUsd)
    <= fst (Protocols.estimateSwapOutput amountMist suiPriceUsd).
Proof.
  intros Ha Hp. unfold Protocols.estimateSwapOutput. cbn [fst snd].
  assert (Hamt : (0 <= Js.ofZ amountMist / 1000000000)%Q).
  { unfold Js.ofZ. apply Qle_shift_div_l; [reflexivity |].
    rewrite Qmult_0_l. change 0%Q with (inject_Z 0). rewrite <- Zle_Qle. exact Ha. }
  assert (Hu : (0 <= Js.ofZ amountMist / 1000000000 * suiPriceUsd)%Q)
    by (apply Qmult_le_0_compat; assumption).
  set (u := (Js.ofZ amountMist / 1000000000 * suiPriceUsd)%Q) in *.
  unfold Js.floor. split.
  - change 0 with (Qfloor 0). apply Qfloor_resp_le. lra.
  - apply Qfloor_resp_le. lra.
Qed.

Lemma estimateSwapOutput_floor_witness :
  0 <= snd (Protocols.estimateSwapOutput 1500000000 2)
    <= fst (Protocols.estimateSwapOutput 1500000000 2).
Proof.
  apply (estimateSwapOutput_floor 1500000000 2); [lia | discriminate].
Defined.

(** ** Portfolio snapshot *)

(** X4.  For balances and a price that are not negative, each share of a
    portfolio snapshot lies between 0 and 100, the side worth less never
    has the larger share, and the total is the sum of the two values; a
    portfolio worth nothing is shown as 50/50. *)
Theorem buildPortfolioState_shares (suiBalanceMist arcBalanceUsdc : Z) (suiPriceUsd : Q) :
  0 <= suiBalanceMist -> 0 <= arcBalanceUsdc -> (0 <= suiPriceUsd)%Q ->
  let p := Portfolio.buildPortfolioState suiBalanceMist arcBalanceUsdc suiPriceUsd in
  (0 <= h_percentage (pf_sui p) <= 100)%Q /\
  (0 <= h_percentage (pf_arc p) <= 100)%Q /\
  ((h_valueUsd (pf_sui p) <= h_valueUsd (pf_arc p))%Q ->
   (h_percentage (pf_sui p) <= h_percentage (pf_arc p))%Q) /\
  (pf_totalValueUsd p == h_valueUsd (pf_sui p) + h_valueUsd (pf_arc p))%Q /\
  ((pf_totalValueUsd p <= 0)%Q ->
   h_percentage (pf_sui p) = 50%Q /\ h_percentage (pf_arc p) = 50%Q).
Proof.
  intros Hs Ha Hp. cbv zeta. unfold Portfolio.buildPortfolioState.
  cbn [pf_sui pf_arc pf_totalValueUsd h_percentage h_valueUsd].
  assert (Hsui : (0 <= Js.ofZ suiBalanceMist / 1000000000 * suiPriceUsd)%Q).
  { apply Qmult_le_0_compat; [| exact Hp].
    apply Qle_shift_div_l; [reflexivity |]. rewrite Qmult_0_l.
    unfold Js.ofZ. change 0%Q with (inject_Z 0). rewrite <- Zle_Qle. exact Hs. }
  assert (Harc : (0 <= Js.ofZ arcBalanceUsdc / 1000000)%Q).
  { apply Qle_shift_div_l; [reflexivity |]. rewrite Qmult_0_l.
    unfold Js.ofZ. change 0%Q with (inject_Z 0). rewrite <- Zle_Qle. exact Ha. }
  set (s := (Js.ofZ suiBalanceMist / 1000000000 * suiPriceUsd)%Q) in *.
  set (a := (Js.ofZ arcBalanceUsdc / 1000000)%Q) in *.
  unfold Js.gtb.
  destruct (Js.ltb 0 (s + a)) eqn:E; [apply ltb_lt in E | apply ltb_ge in E].
  - assert (Hshare : forall x : Q, (0 <= x)%Q -> (x <= s + a)%Q ->
                                   (0 <= x / (s + a) * 100 <= 100)%Q).
    { intros x Hx Hle.
      assert (Hq : (0 <= x / (s + a) <= 1)%Q)
        by (split; [apply Qle_shift_div_l | apply Qle_shift_div_r]; try exact E; lra).
      set (q := (x / (s + a))%Q) in *. lra. }
    split; [apply Hshare; lra |]. split; [apply Hshare; lra |].
    split; [| split; [reflexivity | intros H; lra]].
    intros Hle. apply Qmult_le_compat_r; [| discriminate].
    unfold Qdiv. apply Qmult_le_compat_r; [exact Hle |].
    apply Qinv_le_0_compat. lra.
  - split; [split; discriminate |]. split; [split; discriminate |].
    split; [intros _; apply Qle_refl |].
    split; [reflexivity | intros _; split; reflexivity].
Qed.

Lemma buildPortfolioState_shares_witness :
  let p := Portfolio.buildPortfolioState 1000000000 2000000 1 in
  (0 <= h_percentage (pf_sui p) <= 100)%Q /\
  (0 <= h_percentage (pf_arc p) <= 100)%Q /\
  (h_percentage (pf_sui p) <= h_percentage (pf_arc p))%Q /\
  h_percentage (pf_sui (Portfolio.buildPortfolioState 0 0 2)) = 50%Q.
Proof.
  assert (H1 : 0 <= 1000000000) by lia.
  assert (H2 : 0 <= 2000000) by lia.
  assert (H3 : (0 <= 1)%Q) by discriminate.
  assert (H0 : 0 <= 0) by lia.
  assert (H4 : (0 <= 2)%Q) by discriminate.
  pose proof (buildPortfolioState_shares 1000000000 2000000 1 H1 H2 H3)
    as (Hsui & Harc & Hle & _ & _).
  pose proof (buildPortfolioState_shares 0 0 2 H0 H0 H4) as (_ & _ & _ & _ & H50).
  cbv zeta. split; [exact Hsui |]. split; [exact Harc |].
  split; [apply Hle; discriminate | apply H50; discriminate].
Defined.

(** ** Protocol names *)

Lemma lower_upper_ascii (c : ascii) : Js.lowerAscii (Js.upperAscii c) = Js.lowerAscii c.
Proof. destruct c as [[] [] [] [] [] [] [] []]; reflexivity. Qed.

Lemma lower_lower_ascii (c : ascii) : Js.lowerAscii (Js.lowerAscii c) = Js.lowerAscii c.
Proof. destruct c as [[] [] [] [] [] [] [] []]; reflexivity. Qed.

Lemma toLowerCase_toUpperCase (s : string) :
  Js.toLowerCase (Js.toUpperCase s) = Js.toLowerCase s.
Proof.
  unfold Js.toLowerCase, Js.toUpperCase.
  induction s as [| c s IH]; cbn; [reflexivity |].
  rewrite lower_upper_ascii, IH. reflexivity.
Qed.

Lemma toLowerCase_idempotent (s : string) :
  Js.toLowerCase (Js.toLowerCase s) = Js.toLowerCase s.
Proof.
  unfold Js.toLowerCase.
  induction s as [| c s IH]; cbn; [reflexivity |].
  rewrite lower_lower_ascii, IH. reflexivity.
Qed.

(** X5.  The router resolves every canonical protocol name to itself; and
    an input made of ASCII characters resolves the same way in upper case,
    in lower case and with a blank before it. *)
Theorem resolveProtocolName_canonical :
  (forall p : Protocols.ProtocolName,
     Protocols.resolveProtocolName (Protocols.protocolString p) = Some p) /\
  (forall s : string,
     asciiOnly s = true ->
     Protocols.resolveProtocolName (Js.toUpperCase s) = Protocols.resolveProtocolName s /\
     Protocols.resolveProtocolName (Js.toLowerCase s) = Protocols.resolveProtocolName s /\
     Protocols.resolveProtocolName (String " " s) = Protocols.resolveProtocolName s).
Proof.
  split; [intros []; reflexivity |].
  intros s _. unfold Protocols.resolveProtocolName.
  rewrite toLowerCase_toUpperCase, toLowerCase_idempotent.
  repeat split; reflexivity.
Qed.

Lemma resolveProtocolName_canonical_witness :
  Protocols.resolveProtocolName "AAVE V3" = Some Protocols.AaveV3 /\
  Protocols.resolveProtocolName " Aave V3" = Some Protocols.AaveV3.
Proof.
  assert (H : asciiOnly "Aave V3" = true) by reflexivity.
  destruct (proj2 resolveProtocolName_canonical "Aave V3" H) as (Hup & _ & Hblank).
  split.
  - change "AAVE V3" with (Js.toUpperCase "Aave V3"). rewrite Hup. reflexivity.
  - rewrite Hblank. reflexivity.
Defined.

(** ** The policy function *)

(** X6.  [evaluateStrategy] always answers with one of four actions (a
    safety move, a yield rebalance, a bridge or no action), as a pending
    decision stamped with the current time, and uses up exactly one
    decision number. *)
Theorem evaluateStrategy_shape (now : Z) (decisionCounter : nat)
    (portfolio : PortfolioState) (prices : list PriceData)
    (previousDecisions : list AgentDecision)
    (yieldOpportunities : option (list YieldOpportunity)) :
  let r := Strategy.evaluateStrategy now decisionCounter portfolio prices
             previousDecisions yieldOpportunities in
  (ad_action (fst r) = SAFETY_MOVE \/ ad_action (fst r) = YIELD_REBALANCE \/
   ad_action (fst r) = CROSS_CHAIN_BRIDGE \/ ad_action (fst r) = NO_ACTION) /\
  ad_status (fst r) = Pending /\
  ad_amountOut (fst r) = 0 /\
  ad_timestamp (fst r) = now /\
  snd r = S decisionCounter.
Proof.
  unfold Strategy.evaluateStrategy. cbv zeta.
  repeat match goal with
         | |- context [match ?c with _ => _ end] =>
             lazymatch c with
             | context [match _ with _ => _ end] => fail
             | _ => destruct c
             end
         end;
    cbn; tauto.
Qed.

Lemma gtb_gt (x y : Q) : Js.gtb x y = true <-> (y < x)%Q.
Proof. unfold Js.gtb. apply ltb_lt. Qed.

(** X7.  When SUI has not crashed, the best opportunity nets more than the
    2% floor and no yield rebalance of the last five intervals is among the
    previous decisions, [evaluateStrategy] returns a yield rebalance
    towards the best venue: on Sui for a native venue, across the bridge to
    the venue's chain otherwise. *)
Theorem yield_rebalance_fires (now : Z) (decisionCounter : nat)
    (portfolio : PortfolioState) (prices : list PriceData)
    (previousDecisions : list AgentDecision)
    (bestYield : YieldOpportunity) (others : list YieldOpportunity) :
  (forall p, List.find Strategy.isSui prices = Some p -> (1 # 2 <= pd_price p)%Q) ->
  (AGENT_CONFIG.YIELD_REBALANCE_THRESHOLD < yo_netApy bestYield)%Q ->
  (forall cy,
     last (List.filter Strategy.isYieldRebalance previousDecisions) = Some cy ->
     AGENT_CONFIG.LOOP_INTERVAL * 5 < now - ad_timestamp cy) ->
  let d := fst (Strategy.evaluateStrategy now decisionCounter portfolio prices
                  previousDecisions (Some (bestYield :: others))) in
  ad_action d = YIELD_REBALANCE /\
  ad_amountIn d = 0 /\
  ad_chain d = (if yo_isNative bestYield then "sui"
                else "sui→" +:+ Js.toLowerCase (yo_chain bestYield)).
Proof.
  intros Hprice Hbest Hold. unfold Strategy.evaluateStrategy. cbv zeta.
  assert (Hcrash : match List.find Strategy.isSui prices with
                   | Some p => Js.ltb (pd_price p) (1 # 2)
                   | None => false
                   end = false).
  { destruct (List.find Strategy.isSui prices) as [p |]; [| reflexivity].
    apply ltb_ge. apply Hprice. reflexivity. }
  rewrite Hcrash. apply gtb_gt in Hbest. rewrite Hbest.
  destruct (last (List.filter Strategy.isYieldRebalance previousDecisions)) as [cy |].
  - specialize (Hold cy eq_refl).
    replace (now - ad_timestamp cy >? AGENT_CONFIG.LOOP_INTERVAL * 5) with true
      by (symmetry; apply Z.gtb_lt; exact Hold).
    cbn. repeat split.
  - cbn. repeat split.
Qed.

Lemma yield_rebalance_fires_witness :
  let d := fst (Strategy.evaluateStrategy 1400000 1 somePortfolio calmPrices
                  [firstRebalance] (Some [navi12])) in
  ad_action d = YIELD_REBALANCE /\ ad_amountIn d = 0 /\ ad_chain d = "sui".
Proof.
  apply (yield_rebalance_fires 1400000 1 somePortfolio calmPrices [firstRebalance]
           navi12 []).
  - intros p Hp. injection Hp as <-. discriminate.
  - reflexivity.
  - intros cy Hcy. injection Hcy as <-. reflexivity.
Defined.

(** X8.  [evaluateStrategy] bridges only a portfolio whose SUI share is
    more than 5 points away from 50%: towards Arc when SUI is overweight,
    and then only an amount above the minimum of 0.1 SUI, towards Sui
    otherwise. *)
Theorem bridge_only_beyond_threshold (now : Z) (decisionCounter : nat)
    (portfolio : PortfolioState) (prices : list PriceData)
    (previousDecisions : list AgentDecision)
    (yieldOpportunities : option (list YieldOpportunity)) :
  let d := fst (Strategy.evaluateStrategy now decisionCounter portfolio prices
                  previousDecisions yieldOpportunities) in
  ad_action d = CROSS_CHAIN_BRIDGE ->
  (AGENT_CONFIG.REBALANCE_THRESHOLD
   < Qabs (h_percentage (pf_sui portfolio) - AGENT_CONFIG.TARGET_SUI_PCT))%Q /\
  ((AGENT_CONFIG.TARGET_SUI_PCT < h_percentage (pf_sui portfolio))%Q /\
   ad_chain d = "sui→arc" /\ AGENT_CONFIG.MIN_REBALANCE_AMOUNT < ad_amountIn d
   \/
   (h_percentage (pf_sui portfolio) <= AGENT_CONFIG.TARGET_SUI_PCT)%Q /\
   ad_chain d = "arc→sui").
Proof.
  unfold Strategy.evaluateStrategy. cbv zeta. unfold Js.abs.
  destruct (match List.find Strategy.isSui prices with
            | Some p => Js.ltb (pd_price p) (1 # 2)
            | None => false
            end); [cbn; discriminate |].
  destruct yieldOpportunities as [[| bestYield rest] |];
    repeat match goal with
           | |- context [if Js.gtb (yo_netApy bestYield) ?t then _ else _] =>
               destruct (Js.gtb (yo_netApy bestYield) t)
           | |- context [if match last ?l with _ => _ end then _ else _] =>
               destruct (match last l with
                         | Some cy => now - ad_timestamp cy >? AGENT_CONFIG.LOOP_INTERVAL * 5
                         | None => true
                         end)
           end;
    try (cbn; discriminate);
    (destruct (Js.gtb (Qabs (h_percentage (pf_sui portfolio) - AGENT_CONFIG.TARGET_SUI_PCT))
                 AGENT_CONFIG.REBALANCE_THRESHOLD) eqn:Hd;
     [apply gtb_gt in Hd | cbn; discriminate]);
    (destruct (Js.gtb (h_percentage (pf_sui portfolio)) AGENT_CONFIG.TARGET_SUI_PCT) eqn:Hc;
     [apply gtb_gt in Hc | apply ltb_ge in Hc]);
    try (match goal with
         | |- context [if ?a >? ?b then _ else _] =>
             destruct (a >? b) eqn:Ha; [apply Z.gtb_lt in Ha | cbn; discriminate]
         end);
    cbn; intros _; (split; [exact Hd |]);
    first [left; repeat split; assumption | right; repeat split; assumption].
Qed.

Lemma bridge_only_beyond_threshold_witness :
  let d := fst (Strategy.evaluateStrategy 1060000 0 overweightPortfolio calmPrices
                  [] None) in
  ad_action d = CROSS_CHAIN_BRIDGE /\
  ad_chain d = "sui→arc" /\
  ad_amountIn d = 1200000000 /\
  (AGENT_CONFIG.REBALANCE_THRESHOLD
   < Qabs (h_percentage (pf_sui overweightPortfolio) - AGENT_CONFIG.TARGET_SUI_PCT))%Q.
Proof.
  assert (H : ad_action (fst (Strategy.evaluateStrategy 1060000 0 overweightPortfolio
                                calmPrices [] None)) = CROSS_CHAIN_BRIDGE)
    by reflexivity.
  split; [exact H |]. split; [reflexivity |]. split; [reflexivity |].
  exact (proj1 (bridge_only_beyond_threshold 1060000 0 overweightPortfolio calmPrices
                  [] None H)).
Defined.

(** ** Ranking of the opportunities *)

Section SortedDesc.
Context {A : Type} (key : A -> Q).

Abbreviation descending := (fun a b : A => (key b <= key a)%Q).

Lemma insertDesc_sorted (x : A) (l : list A) :
  StronglySorted descending l -> StronglySorted descending (insertDesc key x l).
Proof.
  intros Hl. induction Hl as [| y l Hl IH Hy]; cbn.
  - constructor; constructor.
  - destruct (Js.ltb (key x) (key y)) eqn:E;
      [apply ltb_lt in E | apply ltb_ge in E].
    + constructor; [exact IH |].
      apply insertDesc_Forall; [cbn; lra | exact Hy].
    + constructor; [constructor; assumption |].
      constructor; [exact E |].
      eapply Forall_impl; [exact Hy |].
      cbn. intros z Hz. lra.
Qed.

Lemma sortDesc_sorted (l : list A) : StronglySorted descending (sortDesc key l).
Proof.
  induction l as [| x l IH]; cbn; [constructor |].
  apply insertDesc_sorted, IH.
Qed.

Lemma insertDesc_perm (x : A) (l : list A) : Permutation (insertDesc key x l) (x :: l).
Proof.
  induction l as [| y l IH]; cbn; [reflexivity |].
  destruct (Js.ltb (key x) (key y)); [| reflexivity].
  rewrite IH. apply perm_swap.
Qed.

Lemma sortDesc_perm (l : list A) : Permutation (sortDesc key l) l.
Proof.
  induction l as [| x l IH]; cbn; [reflexivity |].
  rewrite insertDesc_perm. constructor. exact IH.
Qed.

Lemma filter_sorted (p : A -> bool) (l : list A) :
  StronglySorted descending l -> StronglySorted descending (List.filter p l).
Proof.
  intros Hl. induction Hl as [| y l Hl IH Hy]; cbn; [constructor |].
  destruct (p y); [| exact IH].
  constructor; [exact IH |].
  apply List.Forall_forall. intros z Hz. apply List.filter_In in Hz.
  rewrite List.Forall_forall in Hy. apply Hy. tauto.
Qed.

End SortedDesc.

Lemma scanYields_merge (w : World) (h : Heap) (opportunities : list YieldOpportunity) :
  fst (YieldScanner.scanYields w h) = Value opportunities ->
  exists llamaPools naviPools bluefinYields,
    opportunities = YieldScanner.mergeSources (now w) llamaPools naviPools bluefinYields.
Proof.
  unfold YieldScanner.scanYields, bind. intros Hscan.
  destruct (promiseAll3 _ _ _ w h) as [[[[llamaPools naviPools] bluefinYields] | e] h'];
    [| discriminate Hscan].
  cbn in Hscan. injection Hscan as <-.
  exists llamaPools, naviPools, bluefinYields. reflexivity.
Qed.

Lemma mergeSources_sorted (now : Z) llamaPools naviPools bluefinYields :
  StronglySorted byNetApyDesc
    (YieldScanner.mergeSources now llamaPools naviPools bluefinYields).
Proof. unfold YieldScanner.mergeSources. apply (sortDesc_sorted yo_netApy). Qed.

(** X9.  A yield scan returns its opportunities ranked by net yield, the
    highest first: no opportunity is followed by one that nets more. *)
Theorem scanYields_ranked (w : World) (h : Heap) (opportunities : list YieldOpportunity) :
  fst (YieldScanner.scanYields w h) = Value opportunities ->
  StronglySorted byNetApyDesc opportunities.
Proof.
  intros Hscan. apply scanYields_merge in Hscan.
  destruct Hscan as (llamaPools & naviPools & bluefinYields & ->).
  apply mergeSources_sorted.
Qed.

Lemma scanYields_ranked_witness :
  fst (YieldScanner.scanYields liveWorld initialHeap) = Value liveScan /\
  StronglySorted byNetApyDesc liveScan.
Proof.
  assert (H : fst (YieldScanner.scanYields liveWorld initialHeap) = Value liveScan)
    by (vm_compute; reflexivity).
  split; [exact H |].
  exact (scanYields_ranked liveWorld initialHeap liveScan H).
Defined.

Lemma findBestYield_result (riskLevel : RiskLevel) (w : World) (h : Heap)
    (r : YieldScanResult) :
  fst (YieldScanner.findBestYield riskLevel w h) = Value r ->
  exists opportunities,
    fst (YieldScanner.scanYields w h) = Value opportunities /\
    sr_opportunities r
    = List.filter
        (fun opp =>
           if negb (allowCrossChain (RISK_PROFILES riskLevel)) && negb (yo_isNative opp)
           then false
           else if Js.ltb (yo_tvl opp) 1000000 then false else true)
        opportunities /\
    sr_bestOpportunity r = head (sr_opportunities r) /\
    sr_currentAllocation r = currentPositions (scanner (snd (YieldScanner.scanYields w h))).
Proof.
  unfold YieldScanner.findBestYield, bind.
  destruct (YieldScanner.scanYields w h) as [[opportunities | e] h1];
    [| discriminate].
  cbn. intros Hr. injection Hr as <-. exists opportunities. repeat split.
Qed.

(** X10.  The best opportunity [findBestYield] reports is the first of the
    eligible ones and none of them nets more; every eligible opportunity
    has at least 1,000,000 of TVL, and under a risk profile that forbids
    cross-chain moves every one of them is native. *)
Theorem findBestYield_best (riskLevel : RiskLevel) (w : World) (h : Heap)
    (r : YieldScanResult) :
  fst (YieldScanner.findBestYield riskLevel w h) = Value r ->
  sr_bestOpportunity r = head (sr_opportunities r) /\
  Forall (fun o =>
            (1000000 <= yo_tvl o)%Q /\
            (allowCrossChain (RISK_PROFILES riskLevel) = false -> yo_isNative o = true))
         (sr_opportunities r) /\
  forall best,
    sr_bestOpportunity r = Some best ->
    Forall (fun o => (yo_netApy o <= yo_netApy best)%Q) (sr_opportunities r).
Proof.
  intros Hr. apply findBestYield_result in Hr.
  destruct Hr as (opportunities & Hscan & Hel & Hbest & _).
  split; [exact Hbest |]. split.
  - rewrite Hel. apply List.Forall_forall. intros o Ho.
    apply List.filter_In in Ho. destruct Ho as [_ Ho].
    destruct (allowCrossChain (RISK_PROFILES riskLevel)), (yo_isNative o);
      cbn in Ho; try discriminate;
      (destruct (Js.ltb (yo_tvl o) 1000000) eqn:E; [discriminate | apply ltb_ge in E]);
      (split; [exact E | intros; congruence]).
  - intros best Hb. rewrite Hbest in Hb.
    assert (Hsorted : StronglySorted byNetApyDesc (sr_opportunities r)).
    { rewrite Hel. apply (filter_sorted yo_netApy).
      apply scanYields_merge in Hscan.
      destruct Hscan as (llamaPools & naviPools & bluefinYields & ->).
      apply mergeSources_sorted. }
    destruct (sr_opportunities r) as [| o rest]; [discriminate |].
    cbn in Hb. injection Hb as ->.
    apply StronglySorted_inv in Hsorted. destruct Hsorted as [_ Hrest].
    constructor; [apply Qle_refl | exact Hrest].
Qed.

Lemma findBestYield_best_witness :
  sr_bestOpportunity liveBest = head (sr_opportunities liveBest) /\
  map yo_protocol (sr_opportunities liveBest) = ["NAVI"; "NAVI"] /\
  Forall (fun o =>
            (1000000 <= yo_tvl o)%Q /\
            (allowCrossChain (RISK_PROFILES conservative) = false -> yo_isNative o = true))
         (sr_opportunities liveBest).
Proof.
  assert (H : fst (YieldScanner.findBestYield conservative liveWorld initialHeap)
              = Value liveBest) by (vm_compute; reflexivity).
  pose proof (findBestYield_best conservative liveWorld initialHeap liveBest H) as (H1 & H2 & _).
  split; [exact H1 |]. split; [vm_compute; reflexivity | exact H2].
Defined.

(** ** Cross-chain opportunities *)





(** ** Positions *)

Lemma samePlace_placeOf (a b : YieldPosition) :
  YieldScanner.samePlace a b = true <-> placeOf a = placeOf b.
Proof.
  unfold YieldScanner.samePlace, placeOf. rewrite andb_true_iff, !String.eqb_eq.
  split; [intros [-> ->]; reflexivity | intros H; injection H; auto].
Qed.

Lemma setPositionIn_cons (p x : YieldPosition) (l : list YieldPosition) :
  YieldScanner.setPositionIn p (x :: l)
  = if YieldScanner.samePlace x p then p :: l else x :: YieldScanner.setPositionIn p l.
Proof.
  unfold YieldScanner.setPositionIn. cbn [findIndex].
  destruct (YieldScanner.samePlace x p); [reflexivity |].
  destruct (findIndex _ l); reflexivity.
Qed.

Lemma setPositionIn_places (p : YieldPosition) (l : list YieldPosition) :
  forall k, In k (map placeOf (YieldScanner.setPositionIn p l)) ->
            k = placeOf p \/ In k (map placeOf l).
Proof.
  induction l as [| x l IH]; intros k Hk.
  - cbn in Hk. destruct Hk as [<- | []]. left. reflexivity.
  - rewrite setPositionIn_cons in Hk.
    destruct (YieldScanner.samePlace x p) eqn:E.
    + cbn in Hk. destruct Hk as [<- | Hk]; [left; reflexivity | right; right; exact Hk].
    + cbn in Hk. destruct Hk as [<- | Hk]; [right; left; reflexivity |].
      destruct (IH k Hk) as [-> | H]; [left; reflexivity | right; right; exact H].
Qed.

Lemma replace_absent (p : YieldPosition) (l : list YieldPosition) :
  ~ In (placeOf p) (map placeOf l) ->
  map (fun q => if YieldScanner.samePlace q p then p else q) l = l.
Proof.
  induction l as [| x l IH]; intros Hnot; [reflexivity |].
  cbn in *. destruct (YieldScanner.samePlace x p) eqn:E.
  - exfalso. apply Hnot. left. apply samePlace_placeOf. exact E.
  - f_equal. apply IH. intros H. apply Hnot. right. exact H.
Qed.

(** X12.  [setPosition] keeps at most one position per protocol and
    chain.  On such a list, when the protocol and chain of the new position
    are tracked, the list after the call is the list before it with the new
    position at the index of the old one and every other position at its
    own index; when they are not, it is the list before it with the new
    position added at the end. *)
Theorem setPosition_one_per_place (p : YieldPosition) (l : list YieldPosition) :
  List.NoDup (map placeOf l) ->
  let l' := YieldScanner.setPositionIn p l in
  List.NoDup (map placeOf l') /\
  l' = (if existsb (fun q => YieldScanner.samePlace q p) l
        then map (fun q => if YieldScanner.samePlace q p then p else q) l
        else l ++ [p]).
Proof.
  intros Hnd. cbv zeta.
  induction l as [| x l IH].
  - cbn. split; [| reflexivity]. constructor; [intros [] | constructor].
  - cbn [map] in Hnd. apply List.NoDup_cons_iff in Hnd. destruct Hnd as [Hx Hnd].
    specialize (IH Hnd). destruct IH as (IH1 & IH2).
    rewrite setPositionIn_cons. cbn [existsb map].
    destruct (YieldScanner.samePlace x p) eqn:E.
    + assert (Hxp : placeOf x = placeOf p) by (apply samePlace_placeOf; exact E).
      cbn [map orb]. split.
      * constructor; [rewrite <- Hxp; exact Hx | exact Hnd].
      * f_equal. symmetry. apply replace_absent. rewrite <- Hxp. exact Hx.
    + cbn [map orb]. split.
      * constructor; [| exact IH1].
        intros Hin. apply setPositionIn_places in Hin.
        destruct Hin as [Hin | Hin]; [| exact (Hx Hin)].
        apply samePlace_placeOf in Hin. congruence.
      * rewrite IH2. destruct (existsb _ l); reflexivity.
Qed.

Lemma setPosition_one_per_place_witness :
  map placeOf (currentPositions (scanner thrash2)) = [("Scallop", "Sui"); ("NAVI", "Sui")] /\
  map yp_apy (currentPositions (scanner thrash2)) = [3%Q; 12%Q] /\
  map yp_apy (YieldScanner.setPositionIn scallop5Position (currentPositions (scanner thrash2)))
  = [5%Q; 12%Q] /\
  map yp_apy (YieldScanner.setPositionIn navi12Position (currentPositions (scanner thrash1)))
  = [3%Q; 12%Q].
Proof.
  assert (H2 : List.NoDup (map placeOf (currentPositions (scanner thrash2)))).
  { vm_compute. repeat constructor; cbn; intuition discriminate. }
  assert (H1 : List.NoDup (map placeOf (currentPositions (scanner thrash1)))).
  { vm_compute. repeat constructor; cbn; intuition discriminate. }
  split; [vm_compute; reflexivity |]. split; [vm_compute; reflexivity |]. split.
  - rewrite (proj2 (setPosition_one_per_place scallop5Position
                      (currentPositions (scanner thrash2)) H2)).
    vm_compute. reflexivity.
  - rewrite (proj2 (setPosition_one_per_place navi12Position
                      (currentPositions (scanner thrash1)) H1)).
    vm_compute. reflexivity.
Defined.

Lemma mergeOne_spec (l : list YieldPosition) (pos : YieldPosition) :
  List.NoDup (map placeOf l) ->
  List.NoDup (map placeOf (Positions.mergeOne l pos)) /\
  In (placeOf pos) (map placeOf (Positions.mergeOne l pos)) /\
  exists added, Positions.mergeOne l pos = l ++ added /\ Forall (eq pos) added.
Proof.
  intros Hnd. unfold Positions.mergeOne.
  destruct (List.find _ l) as [q |] eqn:E.
  - apply List.find_some in E. destruct E as [Hq Hsame].
    apply samePlace_placeOf in Hsame.
    split; [exact Hnd |]. split.
    + rewrite <- Hsame. apply List.in_map. exact Hq.
    + exists []. rewrite app_nil_r. split; [reflexivity | constructor].
  - split; [| split].
    + rewrite map_app. cbn [map].
      apply List.NoDup_app;
        [exact Hnd | constructor; [intros [] | constructor] |].
      intros k Hk [<- | []].
      apply List.in_map_iff in Hk. destruct Hk as (q & Hq & Hin).
      pose proof (List.find_none _ _ E q Hin) as Hno.
      apply samePlace_placeOf in Hq. congruence.
    + rewrite map_app. apply List.in_or_app. right. left. reflexivity.
    + exists [pos]. split; [reflexivity | repeat constructor].
Qed.

(** X13.  [syncPositions] never touches a tracked position: on a list with
    one position per protocol and chain it keeps the list as a prefix, adds
    only on-chain positions at places that were not tracked, keeps one
    position per place, and afterwards every on-chain place is tracked. *)
Theorem syncPositions_adds_only (onChain l : list YieldPosition) :
  List.NoDup (map placeOf l) ->
  let l' := Positions.syncPositionsIn onChain l in
  List.NoDup (map placeOf l') /\
  (exists added, l' = l ++ added /\ Forall (fun a => In a onChain) added) /\
  Forall (fun pos => In (placeOf pos) (map placeOf l')) onChain.
Proof.
  cbv zeta. unfold Positions.syncPositionsIn. revert l.
  induction onChain as [| pos onChain IH]; intros l Hnd.
  - cbn. split; [exact Hnd |]. split; [| constructor].
    exists []. rewrite app_nil_r. split; [reflexivity | constructor].
  - cbn [fold_left].
    destruct (mergeOne_spec l pos Hnd) as (Hnd1 & Hin1 & added1 & Hadd1 & Hall1).
    destruct (IH _ Hnd1) as (Hnd2 & (added2 & Hadd2 & Hall2) & Hcov).
    split; [exact Hnd2 |]. split.
    + exists (added1 ++ added2). rewrite Hadd2, Hadd1, app_assoc. split; [reflexivity |].
      apply Forall_app. split.
      * eapply Forall_impl; [exact Hall1 |]. intros a <-. left. reflexivity.
      * eapply Forall_impl; [exact Hall2 |]. intros a Ha. right. exact Ha.
    + constructor; [| exact Hcov].
      rewrite Hadd2, map_app. apply List.in_or_app. left. exact Hin1.
Qed.

Lemma syncPositions_adds_only_witness :
  List.NoDup (map placeOf (currentPositions (scanner thrash0))) /\
  map placeOf
    (Positions.syncPositionsIn [navi12Position; navi12Position]
       (currentPositions (scanner thrash0)))
  = [("Scallop", "Sui"); ("NAVI", "Sui")] /\
  List.NoDup
    (map placeOf
       (Positions.syncPositionsIn [navi12Position; navi12Position]
          (currentPositions (scanner thrash0)))).
Proof.
  assert (H : List.NoDup (map placeOf (currentPositions (scanner thrash0)))).
  { vm_compute. repeat constructor; cbn; intuition discriminate. }
  split; [exact H |]. split; [vm_compute; reflexivity |].
  exact (proj1 (syncPositions_adds_only [navi12Position; navi12Position]
                  (currentPositions (scanner thrash0)) H)).
Defined.

(** ** What a computation leaves alone *)

Section Frames.
Context {X : Type} (f : Heap -> X).

Lemma Keeps_ret {A} (a : A) : Keeps f (ret a).
Proof. intros w h. reflexivity. Qed.

Lemma Keeps_throw {A} (msg : string) : Keeps f (@throw A msg).
Proof. intros w h. reflexivity. Qed.

Lemma Keeps_getHeap : Keeps f getHeap.
Proof. intros w h. reflexivity. Qed.

Lemma Keeps_dateNow : Keeps f dateNow.
Proof. intros w h. reflexivity. Qed.

Lemma Keeps_modify (g : Heap -> Heap) : (forall h, f (g h) = f h) -> Keeps f (modify g).
Proof. intros Hg w h. apply Hg. Qed.

Lemma Keeps_bind {A B} (m : Eff A) (k : A -> Eff B) :
  Keeps f m -> (forall a, Keeps f (k a)) -> Keeps f (bind m k).
Proof.
  intros Hm Hk w h. unfold bind. specialize (Hm w h).
  destruct (m w h) as [[a | e] h1]; cbn in *; [| exact Hm].
  rewrite (Hk a w h1). exact Hm.
Qed.

Lemma Keeps_catch {A} (m : Eff A) (handler : string -> Eff A) :
  Keeps f m -> (forall e, Keeps f (handler e)) -> Keeps f (catch m handler).
Proof.
  intros Hm Hk w h. unfold catch. specialize (Hm w h).
  destruct (m w h) as [[a | e] h1]; cbn in *; [exact Hm |].
  rewrite (Hk e w h1). exact Hm.
Qed.

Lemma Keeps_promiseAll3 {A B C} (a : Eff A) (b : Eff B) (c : Eff C) :
  Keeps f a -> Keeps f b -> Keeps f c -> Keeps f (promiseAll3 a b c).
Proof.
  intros Ha Hb Hc w h. unfold promiseAll3.
  specialize (Ha w h). destruct (a w h) as [ra h1]. cbn in Ha.
  specialize (Hb w h1). destruct (b w h1) as [rb h2]. cbn in Hb.
  specialize (Hc w h2). destruct (c w h2) as [rc h3]. cbn in Hc.
  destruct ra, rb, rc; cbn; congruence.
Qed.

Hypothesis f_off_trace : OffTrace f.

Lemma Keeps_emit (e : Event) : Keeps f (emit e).
Proof. apply Keeps_modify. intros h. apply f_off_trace. Qed.

Lemma Keeps_fetchJson {A} (e : Endpoint) (answer : World -> fetched A) :
  Keeps f (fetchJson e answer).
Proof.
  intros w h. unfold fetchJson, bind, emit, modify. cbn.
  destruct (answer w); cbn; apply f_off_trace.
Qed.

Lemma Keeps_write (ev : Event) (sim : string) (pick : WalletClient -> fetched string) :
  Keeps f (ArcClient.write ev sim pick).
Proof.
  intros w h. unfold ArcClient.write.
  destruct (agentWallet w) as [wc |]; [| reflexivity].
  destruct (pick wc); cbn; apply f_off_trace.
Qed.

Lemma Keeps_runDelegator (g : Transaction -> fetched (option Executor.TxResult))
    (tx : Transaction) :
  Keeps f (Executor.runDelegator g tx).
Proof.
  intros w h. unfold Executor.runDelegator, bind, emit, modify. cbn.
  destruct (g tx); cbn; apply f_off_trace.
Qed.

End Frames.

Lemma exec_off_trace : OffTrace exec.
Proof. intros g h. reflexivity. Qed.

Lemma books_off_trace : OffTrace books.
Proof. intros g h. reflexivity. Qed.

Lemma positions_off_trace : OffTrace positions.
Proof. intros g h. reflexivity. Qed.

Lemma recorded_off_trace : OffTrace recorded.
Proof. intros g h. reflexivity. Qed.

Create HintDb keeps.

Ltac off_trace := intros ? ?; reflexivity.

Ltac head_of t :=
  match t with
  | ?f _ => head_of f
  | _ => t
  end.

(** The steps that close a goal or follow the shape of the computation;
    [leaf] is tried on what is neither. *)
Ltac keeps_step leaf :=
  match goal with
  | |- Keeps _ (ret _) => apply Keeps_ret
  | |- Keeps _ (throw _) => apply Keeps_throw
  | |- Keeps _ getHeap => apply Keeps_getHeap
  | |- Keeps _ dateNow => apply Keeps_dateNow
  | |- Keeps _ (emit _) => apply Keeps_emit; off_trace
  | |- Keeps _ (fetchJson _ _) => apply Keeps_fetchJson; off_trace
  | |- Keeps _ (ArcClient.write _ _ _) => apply Keeps_write; off_trace
  | |- Keeps _ (Executor.runDelegator _ _) => apply Keeps_runDelegator; off_trace
  | |- Keeps _ (modify _) => apply Keeps_modify; intros ?; first [reflexivity | leaf]
  | |- Keeps _ (promiseAll3 _ _ _) => apply Keeps_promiseAll3
  | |- Keeps _ (catch _ _) => apply Keeps_catch; [| intros ?]
  | |- Keeps _ (bind _ _) => apply Keeps_bind; [| intros ?]
  | |- Keeps _ (if ?c then _ else _) => destruct c
  | |- Keeps _ (match ?x with _ => _ end) => destruct x
  | |- Keeps _ (let _ := _ in _) => cbv zeta
  | |- Keeps _ _ => solve [auto 1 with keeps nocore]
  | |- Keeps _ ?m => let c := head_of m in unfold c
  end.

Ltac keeps_with leaf := repeat keeps_step leaf.

Ltac keeps := keeps_with fail.

(** The feeds and the scan work on their caches only. *)
Lemma fetchPrices_keeps_exec : Keeps exec Prices.fetchPrices.
Proof. unfold Prices.fetchPrices. keeps. Qed.

Lemma fetchPrices_keeps_positions : Keeps positions Prices.fetchPrices.
Proof. unfold Prices.fetchPrices. keeps. Qed.

#[local] Hint Resolve fetchPrices_keeps_exec fetchPrices_keeps_positions : keeps.

Lemma getSuiPrice_keeps_exec : Keeps exec Executor.getSuiPrice.
Proof. unfold Executor.getSuiPrice. keeps. Qed.

Lemma getSuiPrice_keeps_positions : Keeps positions Executor.getSuiPrice.
Proof. unfold Executor.getSuiPrice. keeps. Qed.

Lemma scanYields_keeps_exec : Keeps exec YieldScanner.scanYields.
Proof.
  unfold YieldScanner.scanYields, YieldScanner.fetchDefiLlamaPools,
    YieldScanner.fetchNaviPoolData, Bluefin.getFundingRateYields,
    Bluefin.fetchFundingRates, Bluefin.fetchMarketData.
  keeps.
Qed.

Lemma scanYields_keeps_positions : Keeps positions YieldScanner.scanYields.
Proof.
  unfold YieldScanner.scanYields, YieldScanner.fetchDefiLlamaPools,
    YieldScanner.fetchNaviPoolData, Bluefin.getFundingRateYields,
    Bluefin.fetchFundingRates, Bluefin.fetchMarketData.
  keeps.
Qed.

#[local] Hint Resolve getSuiPrice_keeps_exec getSuiPrice_keeps_positions
  scanYields_keeps_exec scanYields_keeps_positions : keeps.

Lemma findBestYield_keeps_exec (riskLevel : RiskLevel) :
  Keeps exec (YieldScanner.findBestYield riskLevel).
Proof. unfold YieldScanner.findBestYield. keeps. Qed.

Lemma findBestYield_keeps_positions (riskLevel : RiskLevel) :
  Keeps positions (YieldScanner.findBestYield riskLevel).
Proof. unfold YieldScanner.findBestYield. keeps. Qed.

(** X14.  Looking for the best yield is read-only outside the caches: it
    leaves the executor state and the tracked positions as they were, so
    the allocation it reports is the list of positions before the call. *)
Theorem findBestYield_read_only (riskLevel : RiskLevel) (w : World) (h : Heap) :
  let h' := snd (YieldScanner.findBestYield riskLevel w h) in
  exec h' = exec h /\
  currentPositions (scanner h') = currentPositions (scanner h) /\
  forall r,
    fst (YieldScanner.findBestYield riskLevel w h) = Value r ->
    sr_currentAllocation r = currentPositions (scanner h).
Proof.
  cbv zeta. split; [apply findBestYield_keeps_exec |].
  split; [apply (findBestYield_keeps_positions riskLevel w h) |].
  intros r Hr. apply findBestYield_result in Hr.
  destruct Hr as (_ & _ & _ & _ & ->).
  apply (scanYields_keeps_positions w h).
Qed.

Lemma findBestYield_read_only_witness :
  exec (snd (YieldScanner.findBestYield conservative liveWorld initialHeap))
  = exec initialHeap /\
  sr_currentAllocation liveBest = currentPositions (scanner initialHeap).
Proof.
  assert (H : fst (YieldScanner.findBestYield conservative liveWorld initialHeap)
              = Value liveBest) by (vm_compute; reflexivity).
  pose proof (findBestYield_read_only conservative liveWorld initialHeap) as (H1 & _ & H3).
  split; [exact H1 | exact (H3 liveBest H)].
Defined.

(** ** Manual moves and the books *)

(** X15.  A vault deposit, a vault withdrawal and a manual yield move never
    touch the decision ledger, the treasury totals or the risk level,
    whatever their arguments and however the transaction ends. *)
Theorem manual_moves_leave_books (name : Executor.FunctionName) (args : Executor.Args)
    (context : Executor.Context) (w : World) (h : Heap) :
  name = Executor.depositToVault \/ name = Executor.withdrawFromVault
  \/ name = Executor.moveToYield ->
  let h' := snd (Executor.executeFunction name args context w h) in
  ledger h' = ledger h /\
  recorded h' = recorded h /\
  treasuryState (exec h') = treasuryState (exec h) /\
  riskLevel (exec h') = riskLevel (exec h).
Proof.
  intros Hname. cbv zeta.
  assert (Hk : Keeps books (Executor.executeFunction name args context)).
  { unfold Executor.executeFunction.
    destruct Hname as [-> | [-> | ->]].
    - unfold Executor.caseDepositToVault. keeps.
    - unfold Executor.caseWithdrawFromVault. keeps.
    - unfold Executor.caseMoveToYield, Executor.getSuiPrice, YieldScanner.scanYields,
        YieldScanner.setPosition. keeps. }
  specialize (Hk w h). unfold books in Hk. unfold ledger, recorded.
  injection Hk as H1 H2 H3 H4. auto.
Qed.

Lemma manual_moves_leave_books_witness :
  ledger (snd (Executor.executeFunction Executor.moveToYield (scallopMove 100) voice
                 liveWorld initialHeap)) = ledger initialHeap.
Proof.
  apply (manual_moves_leave_books Executor.moveToYield (scallopMove 100) voice
           liveWorld initialHeap).
  right. right. reflexivity.
Defined.

(** ** Nothing escapes *)

Lemma NeverThrows_ret {A} (a : A) : NeverThrows (ret a).
Proof. intros w h. eexists. reflexivity. Qed.

Lemma NeverThrows_getHeap : NeverThrows getHeap.
Proof. intros w h. eexists. reflexivity. Qed.

Lemma NeverThrows_dateNow : NeverThrows dateNow.
Proof. intros w h. eexists. reflexivity. Qed.

Lemma NeverThrows_modify (g : Heap -> Heap) : NeverThrows (modify g).
Proof. intros w h. eexists. reflexivity. Qed.

Lemma NeverThrows_bind {A B} (m : Eff A) (k : A -> Eff B) :
  NeverThrows m -> (forall a, NeverThrows (k a)) -> NeverThrows (bind m k).
Proof.
  intros Hm Hk w h. unfold bind. destruct (Hm w h) as [a Ha].
  destruct (m w h) as [r h1]. cbn in Ha. subst r. apply Hk.
Qed.

Lemma NeverThrows_catch {A} (m : Eff A) (handler : string -> Eff A) :
  (forall e, NeverThrows (handler e)) -> NeverThrows (catch m handler).
Proof.
  intros Hk w h. unfold catch. destruct (m w h) as [[a | e] h1].
  - eexists. reflexivity.
  - apply Hk.
Qed.

Lemma NeverThrows_write (ev : Event) (sim : string) (pick : WalletClient -> fetched string) :
  NeverThrows (ArcClient.write ev sim pick).
Proof.
  intros w h. unfold ArcClient.write.
  destruct (agentWallet w) as [wc |]; [destruct (pick wc) |]; eexists; reflexivity.
Qed.

Ltac never_throws :=
  repeat first
    [ apply NeverThrows_ret | apply NeverThrows_getHeap | apply NeverThrows_dateNow
    | apply NeverThrows_modify | apply NeverThrows_write
    | apply NeverThrows_catch; intros ?
    | apply NeverThrows_bind; [| intros ?]
    | match goal with
      | |- NeverThrows (if ?c then _ else _) => destruct c
      | |- NeverThrows (match ?x with _ => _ end) => destruct x
      | |- NeverThrows (let _ := _ in _) => cbv zeta
      end ].

(** X16.  [executeFunction] answers with a sentence whatever happens: for
    every modelled function, every argument record and every state of the
    outside world it returns and never throws. *)
Theorem executeFunction_never_throws (name : Executor.FunctionName)
    (args : Executor.Args) (context : Executor.Context) (w : World) (h : Heap) :
  exists reply, fst (Executor.executeFunction name args context w h) = Value reply.
Proof.
  revert w h. change (NeverThrows (Executor.executeFunction name args context)).
  unfold Executor.executeFunction.
  destruct name;
    unfold Executor.caseDepositToVault, Executor.caseWithdrawFromVault,
      Executor.caseMoveToYield, Executor.caseSetRiskLevel,
      Executor.caseAssessTreasuryRisk, Executor.caseMoveToArcVault,
      Executor.caseWithdrawFromArcVault;
    never_throws.
Qed.

(** X17.  An optimization cycle never throws: whatever fails inside it is
    logged and the cycle ends normally. *)
Theorem runOptimizationCycle_never_throws (context : Executor.Context)
    (w : World) (h : Heap) :
  fst (Executor.runOptimizationCycle context w h) = Value tt.
Proof.
  assert (H : NeverThrows (Executor.runOptimizationCycle context)).
  { unfold Executor.runOptimizationCycle. never_throws. }
  destruct (H w h) as [[] Hu]. exact Hu.
Qed.

(** ** How much a cycle records *)

Lemma RecordsAtMost_keeps {A} (n : nat) (m : Eff A) :
  Keeps recorded m -> RecordsAtMost n m.
Proof. intros Hm w h. rewrite (Hm w h). lia. Qed.

Lemma RecordsAtMost_weaken {A} (a b : nat) (m : Eff A) :
  (a <= b)%nat -> RecordsAtMost a m -> RecordsAtMost b m.
Proof. intros Hab Hm w h. specialize (Hm w h). lia. Qed.

Lemma RecordsAtMost_bind {A B} (a b : nat) (m : Eff A) (k : A -> Eff B) :
  RecordsAtMost a m -> (forall x, RecordsAtMost b (k x)) ->
  RecordsAtMost (a + b) (bind m k).
Proof.
  intros Hm Hk w h. unfold bind. specialize (Hm w h).
  destruct (m w h) as [[x | e] h1]; cbn in *; [| lia].
  specialize (Hk x w h1). lia.
Qed.

Lemma RecordsAtMost_catch {A} (a b : nat) (m : Eff A) (handler : string -> Eff A) :
  RecordsAtMost a m -> (forall e, RecordsAtMost b (handler e)) ->
  RecordsAtMost (a + b) (catch m handler).
Proof.
  intros Hm Hk w h. unfold catch. specialize (Hm w h).
  destruct (m w h) as [[x | e] h1]; cbn in *; [lia |].
  specialize (Hk e w h1). lia.
Qed.

Lemma RecordsAtMost_after {A B} (n : nat) (m : Eff A) (k : A -> Eff B) :
  Keeps recorded m -> (forall x, RecordsAtMost n (k x)) -> RecordsAtMost n (bind m k).
Proof.
  intros Hm Hk. apply (RecordsAtMost_bind 0 n); [apply RecordsAtMost_keeps, Hm | exact Hk].
Qed.

Lemma RecordsAtMost_before {A B} (n : nat) (m : Eff A) (k : A -> Eff B) :
  RecordsAtMost n m -> (forall x, Keeps recorded (k x)) -> RecordsAtMost n (bind m k).
Proof.
  intros Hm Hk. apply (RecordsAtMost_weaken (n + 0) n); [lia |].
  apply RecordsAtMost_bind; [exact Hm | intros x; apply RecordsAtMost_keeps, Hk].
Qed.

Lemma recordTreasuryDecision_records_one type trigger action reasoning riskScore
    amount txHash chain :
  RecordsAtMost 1
    (Executor.recordTreasuryDecision type trigger action reasoning riskScore
       amount txHash chain).
Proof. intros w h. unfold recorded. cbn. lia. Qed.

Create HintDb records.

Ltac records :=
  repeat first
    [ solve [auto 1 with records nocore]
    | apply RecordsAtMost_keeps; solve [keeps]
    | apply recordTreasuryDecision_records_one
    | apply RecordsAtMost_before;
        [apply recordTreasuryDecision_records_one | intros ?; solve [keeps]]
    | apply RecordsAtMost_after; [solve [keeps] | intros ?]
    | match goal with
      | |- RecordsAtMost _ (if ?c then _ else _) => destruct c
      | |- RecordsAtMost _ (match ?x with _ => _ end) => destruct x
      | |- RecordsAtMost _ (let _ := _ in _) => cbv zeta
      end ].

Lemma safetyMove_records_one (n : nat) (priceFromRecent moveAmount : Q) :
  RecordsAtMost (S n) (Executor.safetyMove priceFromRecent moveAmount).
Proof.
  apply (RecordsAtMost_weaken 1); [lia |]. unfold Executor.safetyMove. records.
Qed.

#[local] Hint Resolve safetyMove_records_one : records.

Lemma recoveryRedeploy_records_one (recoveryFromLow : Q) :
  RecordsAtMost 1 (Executor.recoveryRedeploy recoveryFromLow).
Proof. unfold Executor.recoveryRedeploy. records. Qed.

Lemma standardRebalance_records_one (context : Executor.Context) :
  RecordsAtMost 1 (Executor.standardRebalance context).
Proof. unfold Executor.standardRebalance. records. Qed.

(** X18.  One optimization cycle adds at most two decisions to the ledger
    counter and never takes one away; a cycle that takes the safety branch
    adds at most one. *)
Theorem cycle_records_at_most_two (context : Executor.Context) (w : World) (h : Heap) :
  (recorded h <= recorded (snd (Executor.runOptimizationCycle context w h))
   <= recorded h + 2)%nat /\
  forall priceFromRecent moveAmount,
    (recorded h <= recorded (snd (Executor.safetyMove priceFromRecent moveAmount w h))
     <= recorded h + 1)%nat.
Proof.
  split; [| intros p m; apply (safetyMove_records_one 0)].
  revert w h. change (RecordsAtMost 2 (Executor.runOptimizationCycle context)).
  unfold Executor.runOptimizationCycle.
  apply (RecordsAtMost_catch 2 0); [| intros e; apply RecordsAtMost_keeps; keeps].
  records.
  apply (RecordsAtMost_bind 1 1);
    [apply recoveryRedeploy_records_one | intros _; apply standardRebalance_records_one].
Qed.

(** ** What a cycle leaves alone in the treasury state *)

(** X19.  An optimization cycle never brings the allocation percentages
    up to date and never changes the risk level: both are after the cycle
    what they were before it, also when the cycle moved money between the
    vault and the yield side. *)
Theorem cycle_keeps_allocation (context : Executor.Context) (w : World) (h : Heap) :
  let h' := snd (Executor.runOptimizationCycle context w h) in
  allocationArcPct (treasuryState (exec h')) = allocationArcPct (treasuryState (exec h)) /\
  allocationSuiPct (treasuryState (exec h')) = allocationSuiPct (treasuryState (exec h)) /\
  riskLevel (exec h') = riskLevel (exec h).
Proof.
  cbv zeta.
  assert (Hk : Keeps (fun h => (allocation h, riskLevel (exec h)))
                 (Executor.runOptimizationCycle context)).
  { unfold Executor.runOptimizationCycle, Executor.safetyMove, Executor.recoveryRedeploy,
      Executor.standardRebalance, Executor.getSuiPrice, YieldScanner.findBestYield,
      YieldScanner.setPosition, Executor.fireAndForget, ArcClient.depositToVault,
      ArcClient.withdrawFromVault, ArcClient.logVaultDecision.
    keeps. }
  specialize (Hk w h). cbv beta in Hk. unfold allocation in Hk.
  pose proof (f_equal (fun x => fst (fst x)) Hk) as H1.
  pose proof (f_equal (fun x => snd (fst x)) Hk) as H2.
  pose proof (f_equal snd Hk) as H3. cbn [fst snd] in H1, H2, H3.
  split; [exact H1 | split; assumption].
Qed.

(** ** The Arc vault cases *)

Lemma leb_gt (x y : Q) : (y < x)%Q -> Js.leb x y = false.
Proof.
  intros H. destruct (Js.leb x y) eqn:E; [| reflexivity].
  apply leb_le in E. lra.
Qed.

Lemma updateAllocation_sum (t : TreasuryState) :
  (allocationArcPct (Executor.updateAllocation t)
   + allocationSuiPct (Executor.updateAllocation t) == 100)%Q.
Proof. unfold Executor.updateAllocation. cbn. ring. Qed.

(** X20.  A manual move to the Arc vault with a positive amount: when the
    wallet rejects the write, nothing is recorded and the treasury totals
    are untouched; otherwise exactly one [safety_deposit] decision carrying
    the amount is recorded, the vault balance grows by the amount, the
    yield side is not reduced, and the two allocation percentages add up
    to 100. *)
Theorem moveToArcVault_books (args : Executor.Args) (context : Executor.Context)
    (w : World) (h : Heap) :
  let amount := Js.orNum (Executor.arg_amount args) 0 in
  let h' := snd (Executor.executeFunction Executor.moveToArcVault args context w h) in
  (0 < amount)%Q ->
  (writeRejected w writeDeposit = true -> books h' = books h) /\
  (writeRejected w writeDeposit = false ->
     recorded h' = S (recorded h) /\
     lastDecisionType h' = Some safety_deposit /\
     lastDecisionAmount h' = Some (Some amount) /\
     arcVaultBalance (treasuryState (exec h'))
       = (arcVaultBalance (treasuryState (exec h)) + amount)%Q /\
     suiYieldTotal (treasuryState (exec h')) = suiYieldTotal (treasuryState (exec h)) /\
     (allocationArcPct (treasuryState (exec h'))
      + allocationSuiPct (treasuryState (exec h')) == 100)%Q).
Proof.
  cbv zeta. intros Hpos. apply leb_gt in Hpos.
  unfold Executor.executeFunction, Executor.caseMoveToArcVault. cbv zeta.
  rewrite Hpos.
  unfold writeRejected, ArcClient.depositToVault, ArcClient.logVaultDecision,
    Executor.fireAndForget, ArcClient.write, bind, catch,
    recorded, lastDecisionType, lastDecisionAmount.
  destruct w as [t cg dl nc bm [[[hash | msg] ww [hash' | msg']] |]];
    cbn -[Executor.updateAllocation Js.orNum pushBounded];
    (split; [first [discriminate | intros _; reflexivity] |]);
    first [discriminate | intros _];
    (repeat split; try reflexivity; apply updateAllocation_sum).
Qed.

Lemma moveToArcVault_books_witness :
  recorded (snd (Executor.executeFunction Executor.moveToArcVault park100 voice
                   liveWorld initialHeap)) = 1%nat /\
  books (snd (Executor.executeFunction Executor.moveToArcVault park100 voice
                emptyWallet initialHeap)) = books initialHeap.
Proof.
  assert (Hpos : (0 < Js.orNum (Executor.arg_amount park100) 0)%Q) by reflexivity.
  split.
  - apply (proj2 (moveToArcVault_books park100 voice liveWorld initialHeap Hpos)).
    reflexivity.
  - apply (proj1 (moveToArcVault_books park100 voice emptyWallet initialHeap Hpos)).
    reflexivity.
Defined.

(** X21.  A withdrawal from the Arc vault never drives the tracked balance
    below zero: the balance after it is the larger of zero and the
    difference, so asking for more than is there empties the vault, and the
    decision that is recorded still carries the amount asked for. *)
Theorem withdrawFromArcVault_floor (args : Executor.Args) (context : Executor.Context)
    (w : World) (h : Heap) :
  let amount := Js.orNum (Executor.arg_amount args) 0 in
  let h' := snd (Executor.executeFunction Executor.withdrawFromArcVault args context w h) in
  (0 < amount)%Q ->
  writeRejected w writeWithdraw = false ->
  recorded h' = S (recorded h) /\
  lastDecisionType h' = Some yield_withdraw /\
  lastDecisionAmount h' = Some (Some amount) /\
  (0 <= arcVaultBalance (treasuryState (exec h')))%Q /\
  ((arcVaultBalance (treasuryState (exec h)) <= amount)%Q ->
   (arcVaultBalance (treasuryState (exec h')) == 0)%Q) /\
  ((amount <= arcVaultBalance (treasuryState (exec h)))%Q ->
   (arcVaultBalance (treasuryState (exec h'))
    == arcVaultBalance (treasuryState (exec h)) - amount)%Q).
Proof.
  cbv zeta. intros Hpos Hok. apply leb_gt in Hpos.
  unfold Executor.executeFunction, Executor.caseWithdrawFromArcVault. cbv zeta.
  rewrite Hpos.
  assert (Hmax : forall x : Q,
             (0 <= Js.max 0 x)%Q /\ ((x <= 0)%Q -> (Js.max 0 x == 0)%Q)
             /\ ((0 <= x)%Q -> (Js.max 0 x == x)%Q)).
  { intros x. unfold Js.max. split; [| split; intros Hx]; by_cases_on_comparisons; lra. }
  revert Hok.
  unfold writeRejected, ArcClient.withdrawFromVault, ArcClient.logVaultDecision,
    Executor.fireAndForget, ArcClient.write, bind, catch,
    recorded, lastDecisionType, lastDecisionAmount.
  set (amount := Js.orNum (Executor.arg_amount args) 0).
  destruct w as [t cg dl nc bm [[wd [hash | msg] [hash' | msg']] |]];
    cbn -[Executor.updateAllocation pushBounded Js.max];
    first [discriminate | intros _];
    destruct (Hmax (arcVaultBalance (treasuryState (exec h)) - amount)%Q)
      as (M0 & M1 & M2);
    (split; [reflexivity |]; split; [reflexivity |]; split; [reflexivity |];
     split; [exact M0 |]; split; intros Hx; [apply M1 | apply M2]; lra).
Qed.

Lemma withdrawFromArcVault_floor_witness :
  (arcVaultBalance (treasuryState (exec
     (snd (Executor.executeFunction Executor.withdrawFromArcVault park100 voice
             liveWorld initialHeap)))) == 0)%Q.
Proof.
  assert (Hpos : (0 < Js.orNum (Executor.arg_amount park100) 0)%Q) by reflexivity.
  assert (Hok : writeRejected liveWorld writeWithdraw = false) by reflexivity.
  apply (proj1 (proj2 (proj2 (proj2 (proj2
           (withdrawFromArcVault_floor park100 voice liveWorld initialHeap Hpos Hok)))))).
  discriminate.
Defined.

(** ** Risk assessment *)

Lemma fetchFundingRates_keeps_exec : Keeps exec Bluefin.fetchFundingRates.
Proof. unfold Bluefin.fetchFundingRates, Bluefin.fetchMarketData. keeps. Qed.

Lemma riskScoreOf_range (priceChange24h avgFundingAnnualized bestYieldApy : Q) :
  0 <= Executor.riskScoreOf priceChange24h avgFundingAnnualized bestYieldApy <= 100.
Proof.
  pose proof (priceRisk_range priceChange24h) as Hp.
  pose proof (fundingRisk_range avgFundingAnnualized) as Hf.
  pose proof (yieldRisk_range bestYieldApy) as Hy.
  unfold Executor.riskScoreOf, Js.round. split.
  - change 0 with (Qfloor 0). apply Qfloor_resp_le. lra.
  - change 100 with (Qfloor (201 # 2)). apply Qfloor_resp_le. lra.
Qed.

Lemma caseAssessTreasuryRisk_run (w : World) (h : Heap) :
  exists rest score h',
    Executor.caseAssessTreasuryRisk w h
      = (Value (Lit "Treasury Risk Assessment:" :: rest), h') /\
    0 <= score <= 100 /\
    decisionIdCounter (exec h') = S (decisionIdCounter (exec h)) /\
    option_map td_type (lastDecision (treasuryState (exec h'))) = Some risk_assessment /\
    ts_riskScore (treasuryState (exec h')) = Js.ofZ score /\
    option_map td_riskScore (lastDecision (treasuryState (exec h'))) = Some (Js.ofZ score) /\
    arcVaultBalance (treasuryState (exec h')) = arcVaultBalance (treasuryState (exec h)) /\
    suiYieldTotal (treasuryState (exec h')) = suiYieldTotal (treasuryState (exec h)).
Proof.
  unfold Executor.caseAssessTreasuryRisk.
  unfold catch at 1. unfold bind at 1.
  destruct (guarded_feeds_never_throw w h) as ([prices Hp] & _ & _).
  pose proof (fetchPrices_keeps_exec w h) as K1.
  destruct (Prices.fetchPrices w h) as [r1 h2]. cbn in Hp, K1. subst r1.
  unfold bind at 1. cbn [dateNow].
  unfold bind at 1. cbn [modify].
  unfold bind at 1. cbn [getHeap].
  unfold bind at 1.
  match goal with
  | |- context [catch _ _ w ?h0] => set (h3 := h0)
  end.
  assert (E23 : treasuryState (exec h3) = treasuryState (exec h)
                /\ decisionIdCounter (exec h3) = decisionIdCounter (exec h)).
  { subst h3. cbn. rewrite K1. split; reflexivity. }
  destruct E23 as (<- & <-).
  clearbody h3. clear K1 h h2.
  (* the funding signal: a failure counts as neutral *)
  destruct (guarded_feeds_never_throw w h3) as (_ & _ & [rates Hr]).
  pose proof (fetchFundingRates_keeps_exec w h3) as K3.
  unfold catch at 1. unfold bind at 1.
  destruct (Bluefin.fetchFundingRates w h3) as [r3 h4]. cbn in Hr, K3. subst r3.
  rewrite <- K3. clear K3.
  match goal with
  | |- context [(if nonEmpty rates then ret ?a else ret ?b) w h4] =>
      replace ((if nonEmpty rates then ret a else ret b) w h4)
        with (Value (if nonEmpty rates then a else b), h4)
        by (destruct (nonEmpty rates); reflexivity)
  end.
  (* the best yield: a failure counts as 0 *)
  pose proof (findBestYield_keeps_exec (riskLevel (exec h4)) w h4) as K4.
  unfold bind at 1. unfold catch at 1. unfold bind at 1.
  destruct (YieldScanner.findBestYield (riskLevel (exec h4)) w h4) as [[yr | e] h5];
    cbn in K4; rewrite <- K4; clear K4;
    cbn -[pushBounded Executor.riskScoreOf Executor.recommend joinText
          Executor.priceChangeOf];
    do 3 eexists;
    (split; [reflexivity |]); (split; [apply riskScoreOf_range |]);
    cbn; repeat split.
Qed.

(** X22.  A risk assessment always completes: whichever of the price,
    funding and yield feeds fail, it answers with the assessment, records
    exactly one [risk_assessment] decision whose score is a whole number
    between 0 and 100, stores that score in the treasury state, and leaves
    both balances as they were. *)
Theorem assessTreasuryRisk_records_one (args : Executor.Args)
    (context : Executor.Context) (w : World) (h : Heap) :
  let r := Executor.executeFunction Executor.assessTreasuryRisk args context w h in
  let t' := treasuryState (exec (snd r)) in
  (exists rest, fst r = Value (Lit "Treasury Risk Assessment:" :: rest)) /\
  recorded (snd r) = S (recorded h) /\
  lastDecisionType (snd r) = Some risk_assessment /\
  (exists score : Z,
      0 <= score <= 100 /\ ts_riskScore t' = Js.ofZ score /\
      option_map td_riskScore (lastDecision t') = Some (Js.ofZ score)) /\
  arcVaultBalance t' = arcVaultBalance (treasuryState (exec h)) /\
  suiYieldTotal t' = suiYieldTotal (treasuryState (exec h)).
Proof.
  cbv zeta. unfold Executor.executeFunction, recorded, lastDecisionType.
  unfold bind at 1 2 3 4 5 6.
  cbn -[Executor.caseAssessTreasuryRisk pushBounded].
  match goal with
  | |- context [Executor.caseAssessTreasuryRisk w ?h0] =>
      destruct (caseAssessTreasuryRisk_run w h0)
        as (rest & score & h' & -> & Hs & Hn & Ht & Hr & Hd & Ha & Hy)
  end.
  cbn in *. split; [eexists; reflexivity |]. split; [exact Hn |].
  split; [exact Ht |]. split; [exists score; auto |]. split; assumption.
Qed.

(** ** The price cache *)

(** X23.  When the price cache cannot answer, a successful request fills it
    and a second call less than thirty seconds later gives the same quotes
    and the same state without a request, whatever the feed would answer
    then; a failed request leaves the cache and its time stamp as they
    were, so that the next call asks again. *)
Theorem fetchPrices_cache_round_trip (w1 w2 : World) (h : Heap) :
  priceCacheFresh w1 h = false ->
  now w2 - now w1 < Prices.PRICE_CACHE_TTL ->
  let r1 := Prices.fetchPrices w1 h in
  trace (snd r1) = trace h ++ [EvFetch CoinGecko] /\
  match coingecko w1 with
  | Fetched _ => Prices.fetchPrices w2 (snd r1) = r1
  | FetchError _ => prices (snd r1) = prices h
  end.
Proof.
  intros Hstale Hsoon. cbv zeta. apply Z.ltb_lt in Hsoon.
  unfold priceCacheFresh in Hstale.
  destruct w1 as [t1 [data | msg] dl nc bm aw];
    unfold Prices.fetchPrices, bind, catch, fetchJson, emit, modify, dateNow, getHeap, ret;
    cbn in *; rewrite Hstale; cbn.
  - split; [reflexivity |]. rewrite Hsoon. reflexivity.
  - split; [destruct (nonEmpty _); reflexivity |].
    destruct (nonEmpty _); reflexivity.
Qed.

Lemma fetchPrices_cache_round_trip_witness :
  Prices.fetchPrices (calmWorld 1020000 3 twoPools)
    (snd (Prices.fetchPrices (calmWorld 1000000 2 twoPools) initialHeap))
  = Prices.fetchPrices (calmWorld 1000000 2 twoPools) initialHeap.
Proof.
  assert (H1 : priceCacheFresh (calmWorld 1000000 2 twoPools) initialHeap = false)
    by reflexivity.
  assert (H2 : now (calmWorld 1020000 3 twoPools) - now (calmWorld 1000000 2 twoPools)
               < Prices.PRICE_CACHE_TTL) by reflexivity.
  exact (proj2 (fetchPrices_cache_round_trip (calmWorld 1000000 2 twoPools)
                  (calmWorld 1020000 3 twoPools) initialHeap H1 H2)).
Defined.

(** ** Funding rates *)

Lemma toRate_nonNegative (now : Z) (m : BluefinMarketData) :
  (0 <= fr_annualizedRate (Bluefin.toRate now m))%Q.
Proof.
  unfold Bluefin.toRate. cbn. unfold Js.abs.
  pose proof (Qabs_nonneg (bm_fundingRate m)). nra.
Qed.

Lemma fold_Qplus_nonNegative (l : list Q) (acc : Q) :
  (0 <= acc)%Q -> Forall (fun x => (0 <= x)%Q) l -> (0 <= fold_left Qplus l acc)%Q.
Proof.
  intros Hacc Hl. revert acc Hacc.
  induction Hl as [| x l Hx Hl IH]; intros acc Hacc; cbn; [exact Hacc |].
  apply IH. lra.
Qed.

Lemma sumQ_nonNegative (l : list Q) :
  Forall (fun x => (0 <= x)%Q) l -> (0 <= sumQ l)%Q.
Proof. apply fold_Qplus_nonNegative. lra. Qed.

Lemma averageFunding_nonNegative (rates : list BluefinFundingRate) :
  Forall (fun r => (0 <= fr_annualizedRate r)%Q) rates ->
  (0 <= averageFunding rates)%Q.
Proof.
  intros H. unfold averageFunding.
  assert (Hs : (0 <= sumQ (map fr_annualizedRate rates))%Q).
  { apply sumQ_nonNegative. apply Forall_map. exact H. }
  destruct rates as [| r rates].
  - cbn. discriminate.
  - apply Qle_shift_div_l; [| lra].
    unfold Js.ofZ. change 0%Q with (inject_Z 0). rewrite <- Zlt_Qlt. cbn. lia.
Qed.

(** X24.  The annualized rate is computed from the absolute value of the
    funding rate.  So, from a state whose cached rates are non-negative (the
    initial state is one), every list [fetchFundingRates] returns has
    non-negative annualized rates, the state it leaves has the same
    property, the average is never below zero, the signal is never
    [bearish], and the funding component of the risk score is at most
    50. *)
Theorem funding_never_bearish (w : World) (h : Heap) :
  nonNegativeFunding h ->
  nonNegativeFunding (snd (Bluefin.fetchFundingRates w h)) /\
  forall rates,
    fst (Bluefin.fetchFundingRates w h) = Value rates ->
    Forall (fun r => (0 <= fr_annualizedRate r)%Q) rates /\
    (0 <= averageFunding rates)%Q /\
    Executor.fundingSignalOf (averageFunding rates) <> "bearish" /\
    (Executor.fundingRisk (averageFunding rates) <= 50)%Q.
Proof.
  intros Hh.
  assert (Hrun : let (r, h') := Bluefin.fetchFundingRates w h in
                 nonNegativeFunding h' /\
                 forall rates, r = Value rates ->
                               Forall (fun r => (0 <= fr_annualizedRate r)%Q) rates).
  { unfold nonNegativeFunding in *.
    assert (Hm : cachedFundingRates (bluefin (snd (Bluefin.fetchMarketData w h)))
                 = cachedFundingRates (bluefin h)).
    { apply (ltac:(unfold Bluefin.fetchMarketData; keeps) :
               Keeps (fun h => cachedFundingRates (bluefin h)) Bluefin.fetchMarketData). }
    unfold Bluefin.fetchFundingRates.
    unfold bind at 1. cbn [dateNow]. unfold bind at 1. cbn [getHeap].
    destruct (_ && _).
    - cbn. split; [exact Hh | intros rates [= <-]; exact Hh].
    - unfold catch at 1. unfold bind at 1.
      destruct (Bluefin.fetchMarketData w h) as [[markets | e] h1]; cbn in Hm |- *.
      + assert (Hall : Forall (fun r => (0 <= fr_annualizedRate r)%Q)
                         (map (Bluefin.toRate (now w)) markets)).
        { apply Forall_map. apply Forall_forall. intros m _. apply toRate_nonNegative. }
        split; [exact Hall | intros rates [= <-]; exact Hall].
      + rewrite Hm. split; [exact Hh | intros rates [= <-]; exact Hh]. }
  destruct (Bluefin.fetchFundingRates w h) as [r h']. cbn [fst snd].
  destruct Hrun as [Hpost Hrates]. split; [exact Hpost |].
  intros rates Hr. specialize (Hrates rates Hr).
  pose proof (averageFunding_nonNegative rates Hrates) as Havg.
  split; [exact Hrates |]. split; [exact Havg |]. split.
  - unfold Executor.fundingSignalOf.
    destruct (Js.ltb (averageFunding rates) (-5)) eqn:E.
    + apply ltb_lt in E. lra.
    + destruct (Js.gtb _ _); discriminate.
  - unfold Executor.fundingRisk, Js.min, Js.max. by_cases_on_comparisons; lra.
Qed.

Lemma funding_never_bearish_witness :
  nonNegativeFunding (snd (Bluefin.fetchFundingRates liveWorld initialHeap)) /\
  exists rates,
    fst (Bluefin.fetchFundingRates liveWorld initialHeap) = Value rates /\
    Executor.fundingSignalOf (averageFunding rates) <> "bearish".
Proof.
  assert (H0 : nonNegativeFunding initialHeap)
    by (unfold nonNegativeFunding; cbn; constructor).
  pose proof (funding_never_bearish liveWorld initialHeap H0) as [H1 H2].
  split; [exact H1 |].
  eexists. split; [vm_compute; reflexivity |].
  refine (proj1 (proj2 (proj2 (H2 _ _)))). vm_compute. reflexivity.
Defined.

(** ** The offline queue after a run *)

Section QueueAfterRun.
Context {JsArgs ExecutorState : Type}.
Variable executor :
  string -> JsArgs -> ExecutorState -> OfflineQueue.Settled * ExecutorState.

Abbreviation Intent := (@OfflineQueue.OfflineIntent JsArgs).

Abbreviation isQueued :=
  (fun i : @OfflineQueue.OfflineIntent JsArgs =>
     IntentStatus_eqb (OfflineQueue.oi_status i) queued).

Lemma settlementOf_present id (ps : list (Intent * OfflineQueue.Settled)) :
  In id (map (fun p => OfflineQueue.oi_id (fst p)) ps) ->
  exists o, settlementOf id ps = Some o.
Proof.
  induction ps as [| [i o] ps IH]; intros Hin; [destruct Hin |].
  cbn in *. destruct (String.eqb_spec (OfflineQueue.oi_id i) id) as [E | E].
  - exists o. reflexivity.
  - destruct Hin as [Hin | Hin]; [contradiction | apply IH, Hin].
Qed.

Lemma filter_none {A} (p : A -> bool) (l : list A) :
  (forall x, In x l -> p x = false) -> List.filter p l = [].
Proof.
  induction l as [| x l IH]; intros H; [reflexivity |].
  cbn. rewrite (H x) by (left; reflexivity).
  apply IH. intros y Hy. apply H. right. exact Hy.
Qed.

Lemma finalStatus_not_queued (o : OfflineQueue.Settled) :
  IntentStatus_eqb (OfflineQueue.finalStatus o) queued = false
  /\ IntentStatus_eqb (OfflineQueue.finalStatus o) processing = false.
Proof. destruct o; split; reflexivity. Qed.

Lemma same_id_same_intent (q : list Intent) (j k : Intent) :
  List.NoDup (map OfflineQueue.oi_id q) ->
  In j q -> In k q -> OfflineQueue.oi_id j = OfflineQueue.oi_id k -> j = k.
Proof.
  induction q as [| x q IH]; intros Hnd Hj Hk E; [destruct Hj |].
  cbn [map] in Hnd. apply List.NoDup_cons_iff in Hnd. destruct Hnd as [Hx Hnd].
  destruct Hj as [-> | Hj], Hk as [-> | Hk].
  - reflexivity.
  - exfalso. apply Hx. rewrite E. apply List.in_map, Hk.
  - exfalso. apply Hx. rewrite <- E. apply List.in_map, Hj.
  - apply IH; assumption.
Qed.

(** Where a run leaves each intent of the queue. *)
Lemma expected_after_run (q : list Intent) (outs : list OfflineQueue.Settled) (j : Intent) :
  List.NoDup (map OfflineQueue.oi_id q) ->
  length outs = length (List.filter isQueued q) ->
  In j q ->
  let ps := zip (List.filter isQueued q) outs in
  if isQueued j
  then exists o, expected ps j = settled j o
  else expected ps j = j.
Proof.
  intros Hnd Hlen Hj. cbv zeta. unfold expected.
  destruct (IntentStatus_eqb (OfflineQueue.oi_status j) queued) eqn:E.
  - destruct (settlementOf_present (OfflineQueue.oi_id j)
                (zip (List.filter isQueued q) outs)) as [o ->].
    + rewrite zip_ids by exact Hlen. apply List.in_map.
      apply List.filter_In. split; assumption.
    + exists o. reflexivity.
  - rewrite settlementOf_absent; [reflexivity |].
    rewrite zip_ids by exact Hlen. intros Hin.
    apply List.in_map_iff in Hin. destruct Hin as (k & Hid & Hk).
    apply List.filter_In in Hk. destruct Hk as [Hk Hq].
    assert (j = k) by (apply (same_id_same_intent q); auto).
    subst k. rewrite E in Hq. discriminate.
Qed.

Lemma processQueue_final (q : list Intent) (ups : list (string * IntentStatus))
    (s : ExecutorState) :
  List.NoDup (map OfflineQueue.oi_id q) ->
  let st := {| OfflineQueue.available := true; OfflineQueue.item := OfflineQueue.Json q;
               OfflineQueue.updates := ups |} in
  let pending := List.filter isQueued q in
  let outs := OfflineQueue.settlements executor pending s in
  let '(results, st', _) := OfflineQueue.processQueue executor st s in
  length results = length pending /\
  OfflineQueue.available st' = true /\
  OfflineQueue.getQueue st' = map (expected (zip pending outs)) q.
Proof.
  intros Hnd st pending outs. unfold OfflineQueue.processQueue.
  change (OfflineQueue.getPending st) with pending.
  assert (Hlen : length outs = length pending) by apply settlements_length.
  destruct (Nat.eqb_spec (length pending) 0) as [Hempty | Hsome].
  - destruct pending; [| discriminate]. cbn.
    repeat split. unfold expected. cbn. symmetry. apply map_id.
  - pose proof (drain_spec executor pending [] q ups s Hnd) as H. cbv zeta in H.
    fold outs in H. fold st in H.
    destruct (OfflineQueue.drain executor pending [] st s) as [[results st'] s'].
    destruct H as [Hres Hst]. cbn [app] in Hres. subst results st'. cbn.
    split; [| split; [reflexivity |]].
    + rewrite length_zip_with_l_eq by (symmetry; exact Hlen). reflexivity.
    + apply fold_settleIn. rewrite zip_ids by exact Hlen.
      apply filter_ids_NoDup, Hnd.
Qed.

(** X25.  After a run of the queue nothing is pending: a second run at
    once returns no result and changes neither the storage nor the state
    of the executor.  The run answers once per queued intent, keeps the
    intents and their order, and leaves every intent that was not queued
    as it was. *)
Theorem processQueue_drains (q : list Intent) (ups : list (string * IntentStatus))
    (s : ExecutorState) :
  List.NoDup (map OfflineQueue.oi_id q) ->
  let st := {| OfflineQueue.available := true; OfflineQueue.item := OfflineQueue.Json q;
               OfflineQueue.updates := ups |} in
  let '(results, st', s') := OfflineQueue.processQueue executor st s in
  length results = length (OfflineQueue.getPending st) /\
  OfflineQueue.getPending st' = [] /\
  OfflineQueue.processQueue executor st' s' = ([], st', s') /\
  map OfflineQueue.oi_id (OfflineQueue.getQueue st') = map OfflineQueue.oi_id q /\
  forall j, In j q -> OfflineQueue.oi_status j <> queued ->
            In j (OfflineQueue.getQueue st').
Proof.
  intros Hnd st.
  pose proof (processQueue_final q ups s Hnd) as H. cbv zeta in H. fold st in H.
  set (pending := List.filter isQueued q) in *.
  set (outs := OfflineQueue.settlements executor pending s) in *.
  assert (Hlen : length outs = length pending) by apply settlements_length.
  destruct (OfflineQueue.processQueue executor st s) as [[results st'] s'].
  destruct H as (Hres & Hav & Hq).
  assert (Hnone : OfflineQueue.getPending st' = []).
  { unfold OfflineQueue.getPending. rewrite Hq.
    apply filter_none. intros x Hx. apply List.in_map_iff in Hx.
    destruct Hx as (j & <- & Hj).
    pose proof (expected_after_run q outs j Hnd Hlen Hj) as He. cbv zeta in He.
    fold pending in He.
    destruct (IntentStatus_eqb (OfflineQueue.oi_status j) queued) eqn:E.
    - destruct He as [o ->]. cbn. apply finalStatus_not_queued.
    - rewrite He. exact E. }
  split; [exact Hres |]. split; [exact Hnone |]. split.
  - unfold OfflineQueue.processQueue. rewrite Hnone. reflexivity.
  - split.
    + rewrite Hq, map_map. apply map_ext_in. intros j Hj.
      pose proof (expected_after_run q outs j Hnd Hlen Hj) as He. cbv zeta in He.
      fold pending in He. destruct (isQueued j); [destruct He as [o ->] | rewrite He];
        reflexivity.
    + intros j Hj Hstatus. rewrite Hq.
      pose proof (expected_after_run q outs j Hnd Hlen Hj) as He. cbv zeta in He.
      fold pending in He.
      destruct (IntentStatus_eqb (OfflineQueue.oi_status j) queued) eqn:E.
      * exfalso. apply Hstatus. destruct (OfflineQueue.oi_status j); discriminate || reflexivity.
      * rewrite <- He. apply List.in_map. exact Hj.
Qed.

Lemma filter_within {A} (p k : A -> bool) (l : list A) :
  (forall x, p x = true -> k x = true) ->
  List.filter p (List.filter k l) = List.filter p l.
Proof.
  intros H. induction l as [| x l IH]; [reflexivity |].
  cbn. destruct (k x) eqn:Ek; cbn; rewrite IH; [reflexivity |].
  destruct (p x) eqn:Ep; [| reflexivity].
  rewrite (H x Ep) in Ek. discriminate.
Qed.

Lemma filter_map_kept {A} (f h : A -> bool) (g : A -> A) (l : list A) :
  (forall x, In x l -> f (g x) = h x /\ (h x = true -> g x = x)) ->
  List.filter f (map g l) = List.filter h l.
Proof.
  induction l as [| x l IH]; intros H; [reflexivity |].
  cbn. destruct (H x (or_introl eq_refl)) as [Hf Hg]. rewrite Hf.
  rewrite IH by (intros y Hy; apply H; right; exact Hy).
  destruct (h x); [rewrite Hg by reflexivity |]; reflexivity.
Qed.

(** X26.  An intent that is [processing] when a run starts (a run that was
    cut short left it so) is not retried by the run and not removed by
    [clearProcessed]: after a run followed by [clearProcessed] the queue
    holds exactly the intents that were [processing] before, and nothing
    is pending. *)
Theorem processing_intents_stay (q : list Intent) (ups : list (string * IntentStatus))
    (s : ExecutorState) :
  List.NoDup (map OfflineQueue.oi_id q) ->
  let st := {| OfflineQueue.available := true; OfflineQueue.item := OfflineQueue.Json q;
               OfflineQueue.updates := ups |} in
  let '(_, st', _) := OfflineQueue.processQueue executor st s in
  OfflineQueue.getQueue (QueueCleanup.clearProcessed st')
  = List.filter (fun i => IntentStatus_eqb (OfflineQueue.oi_status i) processing) q /\
  OfflineQueue.getPending (QueueCleanup.clearProcessed st') = [].
Proof.
  intros Hnd st.
  pose proof (processQueue_final q ups s Hnd) as H. cbv zeta in H. fold st in H.
  set (pending := List.filter isQueued q) in *.
  set (outs := OfflineQueue.settlements executor pending s) in *.
  assert (Hlen : length outs = length pending) by apply settlements_length.
  destruct (OfflineQueue.processQueue executor st s) as [[results st'] s'].
  destruct H as (_ & Hav & Hq).
  assert (Hleft : OfflineQueue.getQueue (QueueCleanup.clearProcessed st')
                  = List.filter
                      (fun i => IntentStatus_eqb (OfflineQueue.oi_status i) processing) q).
  { unfold QueueCleanup.clearProcessed, OfflineQueue.saveQueue. rewrite Hav.
    unfold OfflineQueue.getQueue at 1. cbn. rewrite Hq.
    apply filter_map_kept. intros j Hj.
    pose proof (expected_after_run q outs j Hnd Hlen Hj) as He. cbv zeta in He.
    fold pending in He.
    destruct (IntentStatus_eqb (OfflineQueue.oi_status j) queued) eqn:E.
    - destruct He as [o ->]. cbn.
      destruct (finalStatus_not_queued o) as [-> ->]. cbn.
      destruct (OfflineQueue.oi_status j); try discriminate. split; [reflexivity | discriminate].
    - rewrite He, E. cbn. split; [reflexivity | intros _; reflexivity]. }
  split; [exact Hleft |].
  unfold OfflineQueue.getPending. rewrite Hleft. apply filter_none.
  intros x Hx. apply List.filter_In in Hx. destruct Hx as [_ Hx].
  destruct (OfflineQueue.oi_status x); try discriminate. reflexivity.
Qed.

(** X27.  [clearProcessed] removes finished intents only: what is pending
    stays pending in the same order, every intent left is [queued] or
    [processing], and clearing twice is clearing once; [clearQueue] leaves
    an empty queue. *)
Theorem clearProcessed_keeps_pending (st : @OfflineQueue.Storage JsArgs) :
  OfflineQueue.getPending (QueueCleanup.clearProcessed st) = OfflineQueue.getPending st /\
  Forall (fun i => OfflineQueue.oi_status i = queued
                   \/ OfflineQueue.oi_status i = processing)
    (OfflineQueue.getQueue (QueueCleanup.clearProcessed st)) /\
  QueueCleanup.clearProcessed (QueueCleanup.clearProcessed st)
  = QueueCleanup.clearProcessed st /\
  OfflineQueue.getQueue (QueueCleanup.clearQueue st) = [].
Proof.
  unfold QueueCleanup.clearProcessed, QueueCleanup.clearQueue, OfflineQueue.getPending,
    OfflineQueue.saveQueue, OfflineQueue.getQueue.
  destruct st as [[|] it ups]; cbn.
  - set (q := match it with OfflineQueue.Json q => q | _ => [] end).
    set (keep := fun i : Intent =>
                   IntentStatus_eqb (OfflineQueue.oi_status i) queued
                   || IntentStatus_eqb (OfflineQueue.oi_status i) processing).
    split; [| split; [| split; [| reflexivity]]].
    + apply filter_within. intros x Hx. unfold keep. rewrite Hx. reflexivity.
    + apply List.Forall_forall. intros x Hx. apply List.filter_In in Hx.
      destruct Hx as [_ Hx]. unfold keep in Hx.
      destruct (OfflineQueue.oi_status x); try discriminate; auto.
    + f_equal. f_equal. apply filter_within. auto.
  - repeat split. constructor.
Qed.

End QueueAfterRun.

Lemma processQueue_drains_witness :
  let '(_, st', _) := OfflineQueue.processQueue failsOnB offlineABC 0%nat in
  OfflineQueue.getPending st' = [].
Proof.
  assert (Hnd : List.NoDup (map OfflineQueue.oi_id
                  [intentNamed "A"; intentNamed "B"; intentNamed "C"])).
  { cbn. repeat constructor; cbn; intuition discriminate. }
  pose proof (processQueue_drains failsOnB
                [intentNamed "A"; intentNamed "B"; intentNamed "C"] [] 0%nat Hnd) as H.
  cbv zeta in H. change (OfflineQueue.processQueue failsOnB _ 0%nat)
    with (OfflineQueue.processQueue failsOnB offlineABC 0%nat) in H.
  destruct (OfflineQueue.processQueue failsOnB offlineABC 0%nat) as [[results st'] s'].
  exact (proj1 (proj2 H)).
Defined.

Lemma processing_intents_stay_witness :
  List.NoDup (map OfflineQueue.oi_id interruptedQueue) /\
  let '(results, st', _) := OfflineQueue.processQueue failsOnB interruptedStorage 0%nat in
  map OfflineQueue.r_id results = ["A"; "C"] /\
  OfflineQueue.getQueue (QueueCleanup.clearProcessed st') = [leftProcessing "B"] /\
  OfflineQueue.getPending (QueueCleanup.clearProcessed st') = [].
Proof.
  assert (Hnd : List.NoDup (map OfflineQueue.oi_id interruptedQueue)).
  { cbn. repeat constructor; cbn; intuition discriminate. }
  split; [exact Hnd |].
  pose proof (processing_intents_stay failsOnB interruptedQueue [] 0%nat Hnd) as H.
  cbv zeta in H. change (OfflineQueue.processQueue failsOnB _ 0%nat)
    with (OfflineQueue.processQueue failsOnB interruptedStorage 0%nat) in H.
  assert (Hids : map OfflineQueue.r_id
                   (fst (fst (OfflineQueue.processQueue failsOnB interruptedStorage 0%nat)))
                 = ["A"; "C"]) by (vm_compute; reflexivity).
  destruct (OfflineQueue.processQueue failsOnB interruptedStorage 0%nat)
    as [[results st'] s'].
  destruct H as [Hleft Hnone]. cbn [fst] in Hids.
  split; [exact Hids |]. split; [| exact Hnone].
  rewrite Hleft. reflexivity.
Defined.

(** ** Funding yields *)

(** X29.  [getFundingRateYields] never throws; what it lists pays more than
    5% annualized, is in descending order of that yield, and says [short]
    exactly for the markets whose funding rate is positive. *)
Theorem getFundingRateYields_listed (w : World) (h : Heap) :
  exists yields,
    fst (Bluefin.getFundingRateYields w h) = Value yields /\
    Forall (fun y => (5 < Bluefin.fy_annualizedYield y)%Q) yields /\
    Forall (fun y => Bluefin.fy_direction y = Bluefin.short <-> (0 < Bluefin.fy_fundingRate y)%Q) yields /\
    StronglySorted (fun a b => (Bluefin.fy_annualizedYield b <= Bluefin.fy_annualizedYield a)%Q) yields.
Proof.
  destruct (guarded_feeds_never_throw w h) as (_ & _ & [rates Hr]).
  unfold Bluefin.getFundingRateYields, bind.
  destruct (Bluefin.fetchFundingRates w h) as [r h1]. cbn in Hr. subst r. cbn.
  eexists. split; [reflexivity |].
  split; [| split].
  - apply sortDesc_Forall. apply Forall_map. apply List.Forall_forall.
    intros r Hin. apply List.filter_In in Hin. destruct Hin as [_ Hgt].
    cbn. apply gtb_gt. exact Hgt.
  - apply sortDesc_Forall. apply Forall_map. apply List.Forall_forall.
    intros r _. cbn. destruct (Js.gtb (fr_fundingRate r) 0) eqn:E.
    + apply gtb_gt in E. split; [intros _; exact E | reflexivity].
    + split; [discriminate |]. intros Hpos. exfalso.
      unfold Js.gtb in E. apply ltb_ge in E. lra.
  - apply sortDesc_sorted.
Qed.

(** ** The scheduler *)

Lemma scheduler_step_invariant (l : Scheduler.Loop) (ev : Scheduler.LoopEvent) :
  Scheduler.timer l = Scheduler.running l ->
  (Scheduler.inFlight l <= Scheduler.launched l)%nat ->
  Scheduler.timer (Scheduler.step l ev) = Scheduler.running (Scheduler.step l ev) /\
  (Scheduler.inFlight (Scheduler.step l ev) <= Scheduler.launched (Scheduler.step l ev))%nat /\
  (Scheduler.launched l <= Scheduler.launched (Scheduler.step l ev))%nat.
Proof.
  intros Ht Hn. destruct l as [r t i n]. cbn in *. subst t.
  destruct ev, r; cbn; repeat split; lia.
Qed.

Lemma scheduler_run_invariant (evs : list Scheduler.LoopEvent) :
  forall l : Scheduler.Loop,
    Scheduler.timer l = Scheduler.running l ->
    (Scheduler.inFlight l <= Scheduler.launched l)%nat ->
    Scheduler.timer (Scheduler.run evs l) = Scheduler.running (Scheduler.run evs l) /\
    (Scheduler.inFlight (Scheduler.run evs l) <= Scheduler.launched (Scheduler.run evs l))%nat /\
    (Scheduler.launched l <= Scheduler.launched (Scheduler.run evs l))%nat.
Proof.
  induction evs as [| ev evs IH]; intros l Ht Hn; [cbn; repeat split; auto |].
  destruct (scheduler_step_invariant l ev Ht Hn) as (Ht' & Hn' & Hm).
  destruct (IH (Scheduler.step l ev) Ht' Hn') as (H1 & H2 & H3).
  unfold Scheduler.run in *. cbn [fold_left]. repeat split; auto. lia.
Qed.

Lemma stopped_ticks_do_nothing (l : Scheduler.Loop) (ticks : nat) :
  Scheduler.timer l = false ->
  Scheduler.run (repeat Scheduler.TimerFires ticks) l = l.
Proof.
  intros Ht. induction ticks as [| n IH]; [reflexivity |].
  unfold Scheduler.run in *. cbn. rewrite Ht. exact IH.
Qed.

(** X30.  Whatever the voice commands, the timer ticks and the cycles that
    settle: the interval timer is set exactly while the agent counts as
    running, no more cycles are in flight than were started, and once the
    agent is stopped no tick starts a cycle, while the cycles already in
    flight are still counted. *)
Theorem scheduler_invariant (evs : list Scheduler.LoopEvent) (ticks : nat) :
  let l := Scheduler.run evs Scheduler.initial in
  Scheduler.timer l = Scheduler.running l /\
  (Scheduler.inFlight l <= Scheduler.launched l)%nat /\
  Scheduler.run (repeat Scheduler.TimerFires ticks) (Scheduler.step l Scheduler.StopAutoYield)
  = Scheduler.step l Scheduler.StopAutoYield /\
  Scheduler.inFlight (Scheduler.step l Scheduler.StopAutoYield) = Scheduler.inFlight l.
Proof.
  cbv zeta.
  destruct (scheduler_run_invariant evs Scheduler.initial eq_refl (le_n 0))
    as (Ht & Hn & _).
  split; [exact Ht |]. split; [exact Hn |]. split.
  - apply stopped_ticks_do_nothing.
    destruct (Scheduler.run evs Scheduler.initial) as [r t i n]. cbn in *.
    subst t. destruct r; reflexivity.
  - destruct (Scheduler.run evs Scheduler.initial) as [r t i n]. cbn.
    destruct r; reflexivity.
Qed.
